(** * EllaAI browser-analysis scripts: page probing and report aggregation

    A shallow embedding of the three analysis scripts
    ([frontend/analyze_admin.py], [frontend/analyze_platform.py] and
    [frontend/scripts/comprehensive-ellaai-analysis.py]).

    The browser, the file system and the clock are outside the program.
    They are modelled by a [world]: a record of answer functions, each
    reading the list of calls made so far (the [trace]).  Every call the
    scripts make to the outside appends an [event] to the trace and
    either returns a value or raises.  Python's [try]/[except
    Exception]/[finally] are the combinators [try_except] and
    [try_finally] of the monad [M]. *)

From Stdlib Require Import String Ascii List ZArith Lia Bool Arith DecimalString.
From Stdlib Require DecimalNat.
Import ListNotations.
Local Open Scope string_scope.
Local Open Scope list_scope.
Set Warnings "-register-all".

(** ** Exceptions *)

(** The result of a Python call: a value, or an exception caught by
    [except Exception], carried as its [str(e)] message. *)
Inductive outcome (A : Type) : Type :=
| Ok (a : A)
| Raise (msg : string).
Arguments Ok {A} a.
Arguments Raise {A} msg.

Definition is_ok {A} (r : outcome A) : bool :=
  match r with Ok _ => true | Raise _ => false end.

(** ** Python strings

    A string is a sequence of code points below 256. *)

(** [str.isspace] on one character. *)
Definition is_space (c : ascii) : bool :=
  let n := nat_of_ascii c in
  (((9 <=? n) && (n <=? 13)) || ((28 <=? n) && (n <=? 32))
   || (n =? 133) || (n =? 160))%nat.

(** White space of JavaScript's [trim] and of [\s] in a regular
    expression, on one character. *)
Definition js_is_space (c : ascii) : bool :=
  let n := nat_of_ascii c in
  (((9 <=? n) && (n <=? 13)) || (n =? 32) || (n =? 160))%nat.

(** Dropping the leading characters that satisfy [p]. *)
Fixpoint lstrip_by (p : ascii -> bool) (s : string) : string :=
  match s with
  | EmptyString => EmptyString
  | String c s' => if p c then lstrip_by p s' else s
  end.

(** Dropping the trailing characters that satisfy [p]. *)
Fixpoint rstrip_by (p : ascii -> bool) (s : string) : string :=
  match s with
  | EmptyString => EmptyString
  | String c s' =>
      match rstrip_by p s' with
      | EmptyString => if p c then EmptyString else String c EmptyString
      | r => String c r
      end
  end.

(** Python's [s.strip()] *)
Definition strip (s : string) : string := rstrip_by is_space (lstrip_by is_space s).

(** JavaScript's [s.trim()] *)
Definition js_trim (s : string) : string :=
  rstrip_by js_is_space (lstrip_by js_is_space s).

(** JavaScript's [s.replace(/\s+/g, '_')]: every run of white space
    becomes one underscore; [in_run] says the previous character was white
    space. *)
Fixpoint replace_ws_runs (in_run : bool) (s : string) : string :=
  match s with
  | EmptyString => EmptyString
  | String c s' =>
      if js_is_space c
      then if in_run then replace_ws_runs true s'
           else String "_" (replace_ws_runs true s')
      else String c (replace_ws_runs false s')
  end.

(** The decimal numeral of a natural number, as [str(n)] and a template
    literal print it. *)
Definition decimal (n : nat) : string := NilEmpty.string_of_uint (Nat.to_uint n).

(** [s.lstrip(chars)] for a one-character [chars]. *)
Fixpoint lstrip_char (ch : ascii) (s : string) : string :=
  match s with
  | EmptyString => EmptyString
  | String c s' => if Ascii.eqb c ch then lstrip_char ch s' else s
  end.

Definition lower_char (c : ascii) : ascii :=
  let n := nat_of_ascii c in
  if (((65 <=? n) && (n <=? 90))
      || ((192 <=? n) && (n <=? 222) && negb (n =? 215)))%nat
  then ascii_of_nat (n + 32) else c.

(** [s.lower()] *)
Fixpoint lower (s : string) : string :=
  match s with
  | EmptyString => EmptyString
  | String c s' => String (lower_char c) (lower s')
  end.

(** [needle in hay] *)
Fixpoint contains (needle hay : string) : bool :=
  String.prefix needle hay ||
  match hay with
  | EmptyString => false
  | String _ hay' => contains needle hay'
  end.

(** [s.replace(old, new)] for a non-empty [old]: occurrences are replaced
    left to right without overlap; [skip] counts the characters of a
    matched occurrence still to be dropped. *)
Fixpoint replace_from (old new : string) (skip : nat) (s : string) : string :=
  match s with
  | EmptyString => EmptyString
  | String c s' =>
      match skip with
      | S k => replace_from old new k s'
      | O =>
          if String.prefix old s
          then new ++ replace_from old new (String.length old - 1) s'
          else String c (replace_from old new 0 s')
      end
  end.

Definition replace (old new s : string) : string := replace_from old new 0 s.

(** The selectors of the scripts hold double quotes.  They are written
    here with apostrophes in their place, which [dq] turns back into
    double quotes. *)
Fixpoint dq (s : string) : string :=
  match s with
  | EmptyString => EmptyString
  | String c s' =>
      String (if Ascii.eqb c "'" then ascii_of_nat 34 else c) (dq s')
  end.

(** [s or default] *)
Definition str_or (s default : string) : string :=
  match s with EmptyString => default | _ => s end.

(** Python truthiness of a string. *)
Definition truthy (s : string) : bool :=
  match s with EmptyString => false | _ => true end.

(** [os.path.join(dir, name)] for a relative [name] and a [dir] without a
    trailing separator. *)
Definition path_join (dir name : string) : string := dir ++ "/" ++ name.

(** ** Python values and JSON *)

(** The values the scripts put in a report.  A [PDict] lists its items in
    insertion order; every key in the scripts is a string.  [PObj] is an
    object that is none of the others (a [datetime], say), with its
    [str()].  [PFloat] is a duration in seconds, held as its count of
    microseconds. *)
Inductive pyval : Type :=
| PNone
| PBool (b : bool)
| PInt (z : Z)
| PFloat (micros : Z)
| PStr (s : string)
| PList (l : list pyval)
| PTuple (l : list pyval)
| PDict (items : list (string * pyval))
| PObj (repr : string).

(** The JSON data model. *)
Inductive json : Type :=
| JNull
| JBool (b : bool)
| JInt (z : Z)
| JFloat (micros : Z)
| JStr (s : string)
| JArr (l : list json)
| JObj (members : list (string * json)).

(** [d[k] = v] on an insertion-ordered dict: an existing key keeps its
    place and takes the new value, a new key goes last. *)
Fixpoint dict_set {V : Type} (k : string) (v : V) (d : list (string * V))
  : list (string * V) :=
  match d with
  | [] => [(k, v)]
  | (k', v') :: d' =>
      if String.eqb k' k then (k, v) :: d' else (k', v') :: dict_set k v d'
  end.

(** [d.get(k)] *)
Fixpoint dict_get {V : Type} (k : string) (d : list (string * V)) : option V :=
  match d with
  | [] => None
  | (k', v) :: d' => if String.eqb k' k then Some v else dict_get k d'
  end.

(** [k in d] *)
Definition dict_mem {V : Type} (k : string) (d : list (string * V)) : bool :=
  match dict_get k d with Some _ => true | None => false end.

(** [list(d.keys())] *)
Definition keys {V : Type} (d : list (string * V)) : list string := map fst d.

(** The dict built by inserting [items] one after the other. *)
Definition dict_of_items {V : Type} (items : list (string * V))
  : list (string * V) :=
  fold_left (fun d kv => dict_set (fst kv) (snd kv) d) items [].

(** [json.dump(v, f, default=str)] up to the text: the JSON value
    written.  A tuple is written as an array; an object of no JSON type
    goes through [default], here [str]. *)
Fixpoint json_dump_default_str (v : pyval) : json :=
  match v with
  | PNone => JNull
  | PBool b => JBool b
  | PInt z => JInt z
  | PFloat m => JFloat m
  | PStr s => JStr s
  | PList l => JArr (map json_dump_default_str l)
  | PTuple l => JArr (map json_dump_default_str l)
  | PDict d => JObj (map (fun kv => (fst kv, json_dump_default_str (snd kv))) d)
  | PObj r => JStr r
  end.

(** All results of a list of outcomes, or the first exception. *)
Fixpoint sequence_outcomes {A : Type} (l : list (outcome A)) : outcome (list A) :=
  match l with
  | [] => Ok []
  | Ok a :: l' =>
      match sequence_outcomes l' with
      | Ok r => Ok (a :: r)
      | Raise m => Raise m
      end
  | Raise m :: _ => Raise m
  end.

(** [json.dump(v, f)] up to the text: without [default], an object of no
    JSON type raises [TypeError]. *)
Fixpoint json_dump (v : pyval) : outcome json :=
  match v with
  | PNone => Ok JNull
  | PBool b => Ok (JBool b)
  | PInt z => Ok (JInt z)
  | PFloat m => Ok (JFloat m)
  | PStr s => Ok (JStr s)
  | PList l =>
      match sequence_outcomes (map json_dump l) with
      | Ok r => Ok (JArr r)
      | Raise m => Raise m
      end
  | PTuple l =>
      match sequence_outcomes (map json_dump l) with
      | Ok r => Ok (JArr r)
      | Raise m => Raise m
      end
  | PDict d =>
      match sequence_outcomes
              (map (fun kv => match json_dump (snd kv) with
                              | Ok j => Ok (fst kv, j)
                              | Raise m => Raise m
                              end) d) with
      | Ok r => Ok (JObj r)
      | Raise m => Raise m
      end
  | PObj r => Raise ("Object of type is not JSON serializable: " ++ r)
  end.

(** [json.load(f)] up to the text: an array becomes a list, an object a
    dict filled member by member. *)
Fixpoint json_load (j : json) : pyval :=
  match j with
  | JNull => PNone
  | JBool b => PBool b
  | JInt z => PInt z
  | JFloat m => PFloat m
  | JStr s => PStr s
  | JArr l => PList (map json_load l)
  | JObj d => PDict (dict_of_items (map (fun kv => (fst kv, json_load (snd kv))) d))
  end.

(** No string occurs twice. *)
Fixpoint nodupb (l : list string) : bool :=
  match l with
  | [] => true
  | x :: l' => negb (existsb (String.eqb x) l') && nodupb l'
  end.

(** A value made of JSON's own types only: no tuple, no foreign object,
    and no key twice in a dict. *)
Fixpoint json_native (v : pyval) : bool :=
  match v with
  | PNone | PBool _ | PInt _ | PFloat _ | PStr _ => true
  | PList l => forallb json_native l
  | PTuple _ => false
  | PDict d => nodupb (map fst d) && forallb (fun kv => json_native (snd kv)) d
  | PObj _ => false
  end.

(** ** The world outside the scripts *)

(** [datetime.now()]: the instant with the two renderings the scripts
    use, [isoformat()] and [strftime("%Y%m%d_%H%M%S")], and its count of
    microseconds. *)
Record datetime : Type := {
  dt_iso : string;
  dt_stamp : string;
  dt_micros : Z
}.

(** An element handle returned by [query_selector_all], with what its
    [inner_text()] and [get_attribute('href')] give. *)
Record element : Type := {
  el_inner_text : outcome string;
  el_href : outcome (option string)
}.

(** An [input], [select] or [textarea] of the document. *)
Record input_el : Type := {
  in_type : string;
  in_tagName : string;
  in_name : string;
  in_placeholder : string;
  in_required : bool
}.

(** A [button], [.MuiButton-root] or [[role="button"]] element; [disabled]
    and [type] are undefined on an element that is not a form control. *)
Record button_el : Type := {
  bt_textContent : string;
  bt_disabled : option bool;
  bt_type : option string
}.

(** One of the elements whose computed style [extract_design_tokens]
    reads. *)
Record key_element : Type := {
  ke_tagName : string;
  ke_className : string;
  ke_style : string -> string
}.

(** The document a script passed to [page.evaluate] runs on. *)
Record document : Type := {
  d_title : string;
  d_href : string;
  d_body_className : string;
  d_body_innerText : string;
  d_root_style : list (string * string);
  d_color_scheme : string;
  d_mui_theme : option json;
  d_count : string -> nat;
  d_key_elements : list key_element;
  d_alerts : list string;
  d_inputs : list input_el;
  d_buttons : list button_el;
  d_firebase : outcome bool
}.

(** What the page's event handlers see while a call is awaited. *)
Inductive net_event : Type :=
| NetRequest (url method : string) (at_time : datetime)
| NetResponse (url : string) (status : Z) (at_time : datetime).

(** A call to the outside. *)
Inductive event : Type :=
| EMakedirs (path : string)
| ELaunch
| ENewContext
| ENewPage
| EClose
| EGoto (url : string)
| ESleep (ms : Z)
| EWaitForTimeout (ms : Z)
| EScreenshot (path : string)
| ETitle
| EQuerySelector (selector : string)
| EQuerySelectorAll (selector : string)
| ELocatorCount (selector : string)
| EClick (selector : string)
| EEvaluate (script : string)
| EInnerText (selector : string)
| ENow
| EOn (name : string)
| EDumpJson (path : string) (content : json)
| EWriteText (path : string)
| EExit (code : Z).

Definition trace : Type := list event.

(** The answers of the outside, each a function of the calls made so
    far. *)
Record world : Type := {
  w_makedirs : trace -> string -> outcome unit;
  w_launch : trace -> outcome unit;
  w_new_context : trace -> outcome unit;
  w_new_page : trace -> outcome unit;
  w_close : trace -> outcome unit;
  w_goto : trace -> string -> outcome (option Z);
  w_wait_for_timeout : trace -> outcome unit;
  w_screenshot : trace -> string -> outcome unit;
  w_title : trace -> outcome string;
  w_url : trace -> string;
  w_query_selector : trace -> string -> outcome bool;
  w_query_selector_all : trace -> string -> outcome (list element);
  w_locator_count : trace -> string -> outcome nat;
  w_click : trace -> string -> outcome unit;
  w_document : trace -> outcome document;
  w_inner_text : trace -> string -> outcome string;
  w_now : trace -> datetime;
  w_network : trace -> list net_event;
  w_write : trace -> string -> outcome unit
}.

(** ** The monad of the scripts

    A script reads the world, mutates the object it fills (the store, of
    type [S]) and makes calls.  A mutation made before an exception stays:
    the store and the trace are kept when a call raises. *)

Definition M (S A : Type) : Type :=
  world -> S -> trace -> outcome A * S * trace.

Definition ret {S A : Type} (a : A) : M S A := fun _ s t => (Ok a, s, t).

Definition bind {S A B : Type} (m : M S A) (f : A -> M S B) : M S B :=
  fun w s t =>
    match m w s t with
    | (Ok a, s', t') => f a w s' t'
    | (Raise e, s', t') => (Raise e, s', t')
    end.

Definition raise {S A : Type} (msg : string) : M S A :=
  fun _ s t => (Raise msg, s, t).

(** An outcome already at hand (what an element handle gives). *)
Definition lift {S A : Type} (r : outcome A) : M S A := fun _ s t => (r, s, t).

Definition get {S : Type} : M S S := fun _ s t => (Ok s, s, t).

Definition modify {S : Type} (f : S -> S) : M S unit :=
  fun _ s t => (Ok tt, f s, t).

(** [try: m  except Exception as e: h e] *)
Definition try_except {S A : Type} (m : M S A) (h : string -> M S A) : M S A :=
  fun w s t =>
    match m w s t with
    | (Ok a, s', t') => (Ok a, s', t')
    | (Raise e, s', t') => h e w s' t'
    end.

(** [try: m  finally: f].  The [finally] block runs on both exits; when it
    raises, its exception replaces the pending result. *)
Definition try_finally {S A : Type} (m : M S A) (f : M S unit) : M S A :=
  fun w s t =>
    match m w s t with
    | (r, s', t') =>
        match f w s' t' with
        | (Ok _, s'', t'') => (r, s'', t'')
        | (Raise e, s'', t'') => (Raise e, s'', t'')
        end
    end.

(** A function body with a local object [init] that it fills and
    returns. *)
Definition with_local {S L A : Type} (init : L) (m : M L A) : M S L :=
  fun w s t =>
    match m w init t with
    | (Ok _, l, t') => (Ok l, s, t')
    | (Raise e, _, t') => (Raise e, s, t')
    end.

(** A call to the outside: the answer is read at the calls made so far,
    and the call is recorded whether it returns or raises. *)
Definition call {S A : Type} (ev : event) (answer : world -> trace -> outcome A)
  : M S A :=
  fun w s t => (answer w t, s, (t ++ [ev])%list).

Declare Scope script_scope.
Delimit Scope script_scope with script.
Notation "x <- m ;; k" := (bind m (fun x => k))
  (at level 61, m at next level, right associativity) : script_scope.
Notation "m ;; k" := (bind m (fun _ => k))
  (at level 61, right associativity) : script_scope.
Local Open Scope script_scope.

(** [for a in l: body a] *)
Fixpoint for_each {S A : Type} (l : list A) (body : A -> M S unit) : M S unit :=
  match l with
  | [] => ret tt
  | a :: l' => body a ;; for_each l' body
  end.

Section Calls.
Context {S : Type}.

Definition makedirs (path : string) : M S unit :=
  call (EMakedirs path) (fun w t => w_makedirs w t path).
Definition launch : M S unit := call ELaunch w_launch.
Definition new_context : M S unit := call ENewContext w_new_context.
Definition new_page : M S unit := call ENewPage w_new_page.
Definition close : M S unit := call EClose w_close.
Definition goto (url : string) : M S (option Z) :=
  call (EGoto url) (fun w t => w_goto w t url).
Definition sleep (ms : Z) : M S unit := call (ESleep ms) (fun _ _ => Ok tt).
Definition wait_for_timeout (ms : Z) : M S unit :=
  call (EWaitForTimeout ms) w_wait_for_timeout.
Definition screenshot (path : string) : M S unit :=
  call (EScreenshot path) (fun w t => w_screenshot w t path).
Definition page_title : M S string := call ETitle w_title.
(** [page.url] is an attribute read: no call is made. *)
Definition page_url : M S string := fun w s t => (Ok (w_url w t), s, t).
Definition query_selector (sel : string) : M S bool :=
  call (EQuerySelector sel) (fun w t => w_query_selector w t sel).
Definition query_selector_all (sel : string) : M S (list element) :=
  call (EQuerySelectorAll sel) (fun w t => w_query_selector_all w t sel).
Definition locator_count (sel : string) : M S nat :=
  call (ELocatorCount sel) (fun w t => w_locator_count w t sel).
Definition click (sel : string) : M S unit :=
  call (EClick sel) (fun w t => w_click w t sel).
Definition evaluate (script : string) : M S document :=
  call (EEvaluate script) w_document.
Definition inner_text (sel : string) : M S string :=
  call (EInnerText sel) (fun w t => w_inner_text w t sel).
Definition now : M S datetime := call ENow (fun w t => Ok (w_now w t)).

End Calls.

(** How a Python process ends: status 0 when the script runs to its end,
    1 when an exception reaches the top or [sys.exit(1)] is called. *)
Definition exit_code {A : Type} (r : outcome A) : Z :=
  match r with Ok _ => 0%Z | Raise _ => 1%Z end.

(** ** [frontend/analyze_admin.py] *)

Module AnalyzeAdmin.

(** [analyze_page_structure]: five [query_selector] and six
    [query_selector_all] calls, whose results are only printed. *)
Definition analyze_page_structure : M unit unit :=
  query_selector "header" ;;
  query_selector "nav" ;;
  query_selector "main" ;;
  query_selector "aside" ;;
  query_selector "footer" ;;
  query_selector_all (dq "[class*='dashboard'], [id*='dashboard']") ;;
  query_selector_all (dq "[class*='sidebar'], [class*='side-nav']") ;;
  query_selector_all (dq "[class*='card'], .card") ;;
  query_selector_all "table" ;;
  query_selector_all "form" ;;
  query_selector_all (dq "[class*='modal']") ;;
  ret tt.

(** The body of the loop of [analyze_navigation] on one link: the item
    appended to [nav_items], if any.  An exception of the element skips
    it ([except: continue]). *)
Definition nav_item (link : element) : option (string * string) :=
  match el_inner_text link with
  | Raise _ => None
  | Ok raw =>
      let text := strip raw in
      match el_href link with
      | Raise _ => None
      | Ok h =>
          let href := match h with
                      | Some x => str_or x "N/A"
                      | None => "N/A"
                      end in
          if truthy text && (String.length text <? 50)%nat
          then Some (text, href) else None
      end
  end.

(** [nav_items] after the loop over [nav_links[:20]]. *)
Definition collect_nav_items (nav_links : list element) : list (string * string) :=
  flat_map (fun link => match nav_item link with
                        | Some it => [it]
                        | None => []
                        end)
           (firstn 20 nav_links).

(** [analyze_navigation], returning the [nav_items] it prints. *)
Definition analyze_navigation : M unit (list (string * string)) :=
  nav_links <- query_selector_all (dq "a[href], button[role='menuitem']") ;;
  ret (collect_nav_items nav_links).

Definition feature_selectors : list (string * list string) :=
  [ ("User Management",
     [(dq "[class*='user'], [data-testid*='user']"); "text=Users"; "text=User Management"]);
    ("Company/Tenant Management",
     [(dq "[class*='company'], [class*='tenant']"); "text=Companies"; "text=Tenants"]);
    ("Assessment Tools",
     [(dq "[class*='assessment'], [class*='test']"); "text=Assessments"; "text=Tests"]);
    ("Analytics/Reports",
     [(dq "[class*='analytics'], [class*='report']"); "text=Analytics"; "text=Reports"]);
    ("Settings",
     [(dq "[class*='setting'], [class*='config']"); "text=Settings"; "text=Configuration"]);
    ("Search/Filter",
     [(dq "input[type='search'], [class*='search']"); (dq "[class*='filter']")]);
    ("Data Tables", ["table"; (dq "[class*='data-table'], [class*='grid']")]);
    ("Action Buttons", [(dq "button[class*='action'], [class*='btn-primary']")]);
    ("Status Indicators", [(dq "[class*='status'], [class*='badge']")]);
    ("Bulk Operations", [(dq "[class*='bulk'], [class*='select-all']")]) ].

(** The inner loop of [analyze_admin_features]: the selectors are tried in
    turn until one matches ([break]); a selector that raises is skipped
    ([continue]).  The result is [found]. *)
Fixpoint find_feature (selectors : list string) : M unit bool :=
  match selectors with
  | [] => ret false
  | sel :: rest =>
      r <- try_except
             (elements <- query_selector_all sel ;;
              ret (match elements with [] => false | _ => true end))
             (fun _ => ret false) ;;
      if r then ret true else find_feature rest
  end.

Definition analyze_admin_features : M unit unit :=
  for_each feature_selectors (fun fs => find_feature (snd fs) ;; ret tt).

(** The [try] statement of [analyze_ellaai_admin] without its [finally]:
    the handler takes a screenshot, which may raise in turn. *)
Definition visit_admin : M unit unit :=
  try_except
    (goto "https://ellaai-platform-prod.web.app/admin" ;;
     sleep 3000 ;;
     _ <- page_title ;;
     url <- page_url ;;
     makedirs "screenshots" ;;
     screenshot "screenshots/admin_homepage.png" ;;
     if contains "login" (lower url) || contains "auth" (lower url)
     then
       screenshot "screenshots/login_page.png" ;;
       query_selector_all
         (dq "input[type='email'], input[type='password'], button[type='submit']") ;;
       ret tt
     else
       analyze_page_structure ;;
       analyze_navigation ;;
       analyze_admin_features)
    (fun _ => screenshot "screenshots/error_page.png").

(** [analyze_ellaai_admin] *)
Definition analyze_ellaai_admin : M unit unit :=
  launch ;;
  new_context ;;
  new_page ;;
  try_finally visit_admin close.

(** Running the file as a script. *)
Definition script (w : world) : Z * trace :=
  match analyze_ellaai_admin w tt [] with
  | (r, _, t) => (exit_code r, t)
  end.

End AnalyzeAdmin.

(** ** [frontend/analyze_platform.py] *)

Module AnalyzePlatform.

(** The dict [analysis_results], called [results] by the functions that
    fill it: its items in insertion order. *)
Definition results : Type := list (string * pyval).

Definition py_strs (l : list string) : pyval := PList (map PStr l).

Definition py_opt_str (o : option string) : pyval :=
  match o with Some s => PStr s | None => PNone end.

(** [when c m]: [if c: m] *)
Definition when {S : Type} (c : bool) (m : M S unit) : M S unit :=
  if c then m else ret tt.

(** *** The login page *)

Record login_analysis : Type := {
  security_features : list string;
  ux_issues : list string;
  missing_features : list string;
  strengths : list string
}.

Definition login_to_py (la : login_analysis) : pyval :=
  PDict [ ("security_features", py_strs (security_features la));
          ("ux_issues", py_strs (ux_issues la));
          ("missing_features", py_strs (missing_features la));
          ("strengths", py_strs (strengths la)) ].

Definition add_security (x : string) (la : login_analysis) : login_analysis :=
  {| security_features := security_features la ++ [x];
     ux_issues := ux_issues la;
     missing_features := missing_features la;
     strengths := strengths la |}.

Definition add_missing (x : string) (la : login_analysis) : login_analysis :=
  {| security_features := security_features la;
     ux_issues := ux_issues la;
     missing_features := missing_features la ++ [x];
     strengths := strengths la |}.

Definition add_strength (x : string) (la : login_analysis) : login_analysis :=
  {| security_features := security_features la;
     ux_issues := ux_issues la;
     missing_features := missing_features la;
     strengths := strengths la ++ [x] |}.

(** [analyze_login_page]: no [try] guards its calls. *)
Definition analyze_login_page : M results unit :=
  goto "https://ellaai-platform-prod.web.app/login" ;;
  sleep 2000 ;;
  makedirs "screenshots" ;;
  screenshot "screenshots/login_detailed.png" ;;
  login_analysis <-
    with_local
      {| security_features := []; ux_issues := [];
         missing_features := []; strengths := [] |}
      (pw <- query_selector (dq "input[type='password']") ;;
       when pw (modify (add_security "Password field properly masked")) ;;
       google <- query_selector (dq "[class*='google'], [text*='Google']") ;;
       when google
            (modify (add_security "Google SSO integration") ;;
             modify (add_strength "Multiple authentication methods")) ;;
       forgot <- query_selector (dq "a[href*='forgot'], [text*='forgot']") ;;
       (if forgot
        then modify (add_strength "Password recovery option")
        else modify (add_missing "Password recovery link")) ;;
       signup <- query_selector (dq "a[href*='signup'], [text*='Sign up']") ;;
       when signup (modify (add_strength "Clear signup option")) ;;
       sso <- query_selector (dq "[text*='SSO'], [text*='SAML']") ;;
       when (negb sso)
            (modify (add_missing "Enterprise SSO (SAML/OIDC) not visible")) ;;
       mfa <- query_selector (dq "[text*='MFA'], [text*='2FA']") ;;
       when (negb mfa)
            (modify (add_missing "Multi-factor authentication not visible"))) ;;
  modify (dict_set "login_page" (login_to_py login_analysis)).

(** *** The main application *)

Record nav_link : Type := {
  nav_text : string;
  nav_href : option string
}.

Definition nav_to_py (n : nav_link) : pyval :=
  PDict [ ("text", PStr (nav_text n)); ("href", py_opt_str (nav_href n)) ].

Definition nav_selectors : list string :=
  [ "nav a"; dq "[role='navigation'] a"; ".navbar a"; ".menu a";
    ".nav-link"; "header a" ].

(** The body of the inner loop of [extract_navigation_items] on one
    element, filling [nav_items]. *)
Definition add_nav_item (element : element) : M (list nav_link) unit :=
  raw <- lift (el_inner_text element) ;;
  let text := strip raw in
  href <- lift (el_href element) ;;
  when (truthy text && (String.length text <? 30)%nat)
       (modify (fun nav_items =>
                  nav_items ++ [{| nav_text := text; nav_href := href |}])).

(** The loop of [extract_navigation_items] over one selector.  An
    exception of the query or of an element leaves the rest of that
    selector's elements ([except: continue]). *)
Definition extract_from_selector (selector : string) : M (list nav_link) unit :=
  try_except
    (elements <- query_selector_all selector ;;
     for_each (firstn 10 elements) add_nav_item)
    (fun _ => ret tt).

(** [extract_navigation_items] *)
Definition extract_navigation_items {S : Type} : M S (list nav_link) :=
  with_local [] (for_each nav_selectors extract_from_selector).

Definition urls_to_check : list string :=
  [ "https://ellaai-platform-prod.web.app/";
    "https://ellaai-platform-prod.web.app/dashboard";
    "https://ellaai-platform-prod.web.app/demo";
    "https://ellaai-platform-prod.web.app/public" ].

Record accessible_page : Type := {
  ap_url : string;
  ap_final_url : string;
  ap_title : string
}.

Definition accessible_page_to_py (a : accessible_page) : pyval :=
  PDict [ ("url", PStr (ap_url a)); ("final_url", PStr (ap_final_url a));
          ("title", PStr (ap_title a)) ].

Record app_analysis : Type := {
  accessible_pages : list accessible_page;
  navigation_structure : list nav_link;
  inferred_features : list pyval;
  missing_admin_features : list (string * list string)
}.

Definition admin_feature_to_py (c : string * list string) : pyval :=
  PDict [ ("category", PStr (fst c)); ("features", py_strs (snd c)) ].

Definition app_to_py (a : app_analysis) : pyval :=
  PDict [ ("accessible_pages", PList (map accessible_page_to_py (accessible_pages a)));
          ("navigation_structure", PList (map nav_to_py (navigation_structure a)));
          ("inferred_features", PList (inferred_features a));
          ("missing_admin_features",
           PList (map admin_feature_to_py (missing_admin_features a))) ].

Definition add_accessible_page (p : accessible_page) (a : app_analysis) : app_analysis :=
  {| accessible_pages := accessible_pages a ++ [p];
     navigation_structure := navigation_structure a;
     inferred_features := inferred_features a;
     missing_admin_features := missing_admin_features a |}.

Definition extend_navigation (l : list nav_link) (a : app_analysis) : app_analysis :=
  {| accessible_pages := accessible_pages a;
     navigation_structure := navigation_structure a ++ l;
     inferred_features := inferred_features a;
     missing_admin_features := missing_admin_features a |}.

Definition admin_features : list (string * list string) :=
  [ ("User Management",
     [ "User list with search/filter"; "User role management";
       "User activity logs"; "Bulk user operations"; "User invitation system" ]);
    ("Company/Tenant Management",
     [ "Company profiles"; "Subscription management";
       "Usage analytics per tenant"; "Custom branding controls";
       "Data isolation monitoring" ]);
    ("Assessment Management",
     [ "Assessment template library"; "Custom assessment creation";
       "Performance analytics"; "Candidate pipeline view";
       "Assessment results dashboard" ]);
    ("System Administration",
     [ "System health monitoring"; "Error logs and alerts";
       "API usage statistics"; "Security audit logs";
       "Backup and restore tools" ]);
    ("Analytics & Reporting",
     [ "Usage metrics dashboard"; "Revenue analytics";
       "User engagement metrics"; "Custom report builder";
       "Data export capabilities" ]) ].

(** [infer_admin_requirements] *)
Definition infer_admin_requirements (a : app_analysis) : app_analysis :=
  {| accessible_pages := accessible_pages a;
     navigation_structure := navigation_structure a;
     inferred_features := inferred_features a;
     missing_admin_features := admin_features |}.

(** The [try] block of the loop of [analyze_main_application], on one
    URL. *)
Definition probe_url (url : string) : M app_analysis unit :=
  goto url ;;
  sleep 1000 ;;
  current_url <- page_url ;;
  title <- page_title ;;
  when (negb (contains "login" (lower current_url)))
       (modify (add_accessible_page
                  {| ap_url := url; ap_final_url := current_url;
                     ap_title := title |}) ;;
        let filename :=
          str_or (replace "/" "_"
                    (replace "https://ellaai-platform-prod.web.app/" "" url))
                 "homepage" in
        screenshot ("screenshots/app_" ++ filename ++ ".png") ;;
        nav_items <- extract_navigation_items ;;
        when (match nav_items with [] => false | _ => true end)
             (modify (extend_navigation nav_items))).

(** The body of the loop of [analyze_main_application] on one URL: the
    handler only prints. *)
Definition check_url (url : string) : M app_analysis unit :=
  try_except (probe_url url) (fun _ => ret tt).

(** [app_analysis] when [analyze_main_application] stores it. *)
Definition main_application_analysis {S : Type} : M S app_analysis :=
  with_local
    {| accessible_pages := []; navigation_structure := [];
       inferred_features := []; missing_admin_features := [] |}
    (for_each urls_to_check check_url ;;
     modify infer_admin_requirements).

(** [analyze_main_application] *)
Definition analyze_main_application : M results unit :=
  app_analysis <- main_application_analysis ;;
  modify (dict_set "main_application" (app_to_py app_analysis)).

(** *** The public pages *)

Definition public_urls : list string :=
  [ "https://ellaai-platform-prod.web.app/about";
    "https://ellaai-platform-prod.web.app/features";
    "https://ellaai-platform-prod.web.app/pricing";
    "https://ellaai-platform-prod.web.app/contact";
    "https://ellaai-platform-prod.web.app/help";
    "https://ellaai-platform-prod.web.app/docs" ].

(** An entry of [accessible_content]: the one appended in the [try]
    block, or the one appended by the handler. *)
Inductive content_entry : Type :=
| Accessible (url title : string)
| Inaccessible (url error : string).

Definition content_url (c : content_entry) : string :=
  match c with
  | Accessible u _ => u
  | Inaccessible u _ => u
  end.

Definition content_to_py (c : content_entry) : pyval :=
  match c with
  | Accessible u t =>
      PDict [ ("url", PStr u); ("title", PStr t); ("accessible", PBool true) ]
  | Inaccessible u e =>
      PDict [ ("url", PStr u); ("accessible", PBool false); ("error", PStr e) ]
  end.

Record public_analysis : Type := {
  accessible_content : list content_entry;
  platform_insights : list string
}.

Definition insight_to_py (url : string) : pyval :=
  PDict [ ("url", PStr url);
          ("insight", PStr "Contains admin/management references") ].

Definition public_to_py (p : public_analysis) : pyval :=
  PDict [ ("accessible_content", PList (map content_to_py (accessible_content p)));
          ("platform_insights", PList (map insight_to_py (platform_insights p))) ].

Definition add_content (c : content_entry) (p : public_analysis) : public_analysis :=
  {| accessible_content := accessible_content p ++ [c];
     platform_insights := platform_insights p |}.

Definition add_insight (url : string) (p : public_analysis) : public_analysis :=
  {| accessible_content := accessible_content p;
     platform_insights := platform_insights p ++ [url] |}.

(** The [try] block of the loop of [check_public_pages], on one URL. *)
Definition probe_public_url (url : string) : M public_analysis unit :=
  goto url ;;
  current_url <- page_url ;;
  when (negb (contains "login" (lower current_url)))
       (title <- page_title ;;
        modify (add_content (Accessible url title)) ;;
        body <- inner_text "body" ;;
        let text_content := String.substring 0 1000 body in
        when (contains "admin" (lower text_content)
              || contains "manage" (lower text_content))
             (modify (add_insight url))).

(** The body of the loop of [check_public_pages] on one URL: the handler
    records the exception in an entry of its own. *)
Definition check_public_url (url : string) : M public_analysis unit :=
  try_except (probe_public_url url)
             (fun e => modify (add_content (Inaccessible url e))).

(** [public_analysis] when [check_public_pages] stores it. *)
Definition public_pages_analysis {S : Type} : M S public_analysis :=
  with_local {| accessible_content := []; platform_insights := [] |}
             (for_each public_urls check_public_url).

(** [check_public_pages] *)
Definition check_public_pages : M results unit :=
  public_analysis <- public_pages_analysis ;;
  modify (dict_set "public_pages" (public_to_py public_analysis)).

(** *** The report *)

(** [generate_recommendations]: it takes no argument. *)
Definition generate_recommendations : list (string * list string) :=
  [ ("critical",
     [ "Implement comprehensive user management dashboard with search, filter, and bulk operations";
       "Add system health monitoring and error alerting for proactive issue resolution";
       "Create audit logging system for compliance and security tracking";
       "Develop role-based access control (RBAC) interface for permission management";
       "Build company/tenant management system with usage analytics" ]);
    ("high_priority",
     [ "Add assessment management dashboard with performance analytics";
       "Implement API usage monitoring and rate limiting controls";
       "Create automated backup and disaster recovery management";
       "Build custom reporting and data export capabilities";
       "Add multi-factor authentication (MFA) and enterprise SSO support" ]);
    ("medium_priority",
     [ "Develop email template management for automated communications";
       "Create webhook configuration interface for integrations";
       "Add user activity tracking and engagement metrics";
       "Implement custom branding controls for white-label customers";
       "Build notification center for system alerts and updates" ]);
    ("low_priority",
     [ "Add dark mode support for admin interface";
       "Create mobile-responsive admin dashboard";
       "Implement advanced search with faceted filtering";
       "Add data visualization widgets for KPI monitoring";
       "Create onboarding flow for new admin users" ]) ].

(** What [generate_report] prints under PRIORITY RECOMMENDATIONS: for
    each priority, its name and its first five items. *)
Definition printed_recommendations : list (string * list string) :=
  map (fun pi => (fst pi, firstn 5 (snd pi))) generate_recommendations.

Definition report_path : string := "analysis/ellaai_admin_analysis.json".

(** [generate_report]: the printing reads [results] and cannot raise; the
    calls are [os.makedirs] and the writing of the JSON file.  When
    [json.dump] raises, the file has been opened. *)
Definition generate_report : M results unit :=
  makedirs "analysis" ;;
  res <- get ;;
  match json_dump (PDict res) with
  | Ok j => call (EDumpJson report_path j) (fun w t => w_write w t report_path)
  | Raise m =>
      call (EWriteText report_path) (fun w t => w_write w t report_path) ;;
      raise m
  end.

(** [analysis_results] as [analyze_platform] creates it. *)
Definition initial_results : results :=
  [ ("login_page", PDict []);
    ("main_application", PDict []);
    ("recommendations",
     PDict [ ("critical", PList []); ("high_priority", PList []);
             ("medium_priority", PList []); ("low_priority", PList []) ]) ].

(** Steps 1 to 3 of the [try] block of [analyze_platform], which fill
    [analysis_results]. *)
Definition collect : M results unit :=
  analyze_login_page ;;
  analyze_main_application ;;
  check_public_pages.

(** The [try] block of [analyze_platform]. *)
Definition analysis : M results unit :=
  collect ;;
  generate_report.

(** The [try] statement of [analyze_platform] without its [finally]: the
    handler prints the exception. *)
Definition guarded_analysis : M unit unit :=
  try_except
    (with_local initial_results analysis ;; ret tt)
    (fun _ => ret tt).

(** [analyze_platform] *)
Definition analyze_platform : M unit unit :=
  launch ;;
  new_context ;;
  new_page ;;
  try_finally guarded_analysis close.

(** Running the file as a script. *)
Definition script (w : world) : Z * trace :=
  match analyze_platform w tt [] with
  | (r, _, t) => (exit_code r, t)
  end.

End AnalyzePlatform.

(** ** [frontend/scripts/comprehensive-ellaai-analysis.py] *)

Module Comprehensive.

Import AnalyzePlatform (py_strs, py_opt_str, when).

Definition base_url : string := "https://ellaai-platform-prod.web.app".
Definition screenshots_dir : string := "./screenshots/analysis".

(** [self.analysis_results]: its items in insertion order. *)
Definition results : Type := list (string * pyval).

(** [self.analysis_results] as [__init__] creates it at the instant
    [now]. *)
Definition initial_results (now : datetime) : results :=
  [ ("timestamp", PStr (dt_iso now));
    ("main_app", PDict []);
    ("admin_interface", PDict []);
    ("design_analysis", PDict []);
    ("service_connectivity", PDict []);
    ("design_gaps", PList []) ].

(** [take_screenshot] *)
Definition take_screenshot {S : Type} (name : string) : M S string :=
  timestamp <- now ;;
  let filename := (name ++ "_" ++ dt_stamp timestamp ++ ".png")%string in
  let filepath := path_join screenshots_dir filename in
  screenshot filepath ;;
  ret filepath.

(** *** Design tokens *)

Record design_tokens : Type := {
  cssVariables : list (string * string);
  muiTheme : option json;
  elementStyles : list (string * pyval)
}.

Definition style_properties : list string :=
  [ "backgroundColor"; "color"; "fontSize"; "fontFamily"; "fontWeight";
    "borderRadius"; "padding"; "margin"; "boxShadow"; "border" ].

(** The key and the styles the script records for the element of index
    [index]. *)
Definition element_style (index : nat) (el : key_element) : string * pyval :=
  ((lower (ke_tagName el) ++ "_" ++ replace_ws_runs false (ke_className el)
      ++ "_" ++ decimal index)%string,
   PDict (map (fun p => (p, PStr (ke_style el p))) style_properties)).

Fixpoint element_styles_from (index : nat) (l : list key_element)
  : list (string * pyval) :=
  match l with
  | [] => []
  | el :: l' => element_style index el :: element_styles_from (S index) l'
  end.

(** The script of [extract_design_tokens], on the document. *)
Definition design_tokens_script (d : document) : design_tokens :=
  {| cssVariables :=
       dict_of_items
         (map (fun pv => (fst pv, js_trim (snd pv)))
              (filter (fun pv => String.prefix "--" (fst pv)) (d_root_style d)));
     muiTheme := d_mui_theme d;
     elementStyles := dict_of_items (element_styles_from 0 (d_key_elements d)) |}.

Definition py_str_dict (d : list (string * string)) : pyval :=
  PDict (map (fun kv => (fst kv, PStr (snd kv))) d).

Definition design_tokens_to_py (t : design_tokens) : pyval :=
  PDict ([ ("cssVariables", py_str_dict (cssVariables t)) ]
         ++ match muiTheme t with
            | Some j => [ ("muiTheme", json_load j) ]
            | None => []
            end
         ++ [ ("elementStyles", PDict (elementStyles t)) ]).

(** [extract_design_tokens] *)
Definition extract_design_tokens {S : Type} : M S design_tokens :=
  d <- evaluate "design_tokens" ;;
  ret (design_tokens_script d).

(** *** The main application *)

Record page_structure : Type := {
  ps_title : string;
  ps_url : string;
  ps_bodyClasses : string;
  ps_hasNavigation : bool;
  ps_hasCards : nat;
  ps_hasButtons : nat;
  ps_colorScheme : string;
  ps_mainContentSelector : bool
}.

(** The script of [analyze_main_application], on the document. *)
Definition page_structure_script (d : document) : page_structure :=
  {| ps_title := d_title d;
     ps_url := d_href d;
     ps_bodyClasses := d_body_className d;
     ps_hasNavigation := (0 <? d_count d "nav, .MuiAppBar-root, .MuiDrawer-root")%nat;
     ps_hasCards := d_count d ".MuiCard-root, .MuiPaper-root";
     ps_hasButtons := d_count d "button, .MuiButton-root";
     ps_colorScheme := str_or (d_color_scheme d) "auto";
     ps_mainContentSelector := (0 <? d_count d "main, #main, #root, .main-content")%nat |}.

Definition page_structure_to_py (p : page_structure) : pyval :=
  PDict [ ("title", PStr (ps_title p));
          ("url", PStr (ps_url p));
          ("bodyClasses", PStr (ps_bodyClasses p));
          ("hasNavigation", PBool (ps_hasNavigation p));
          ("hasCards", PInt (Z.of_nat (ps_hasCards p)));
          ("hasButtons", PInt (Z.of_nat (ps_hasButtons p)));
          ("colorScheme", PStr (ps_colorScheme p));
          ("mainContentSelector", PBool (ps_mainContentSelector p)) ].

Record main_app : Type := {
  ma_screenshot_path : string;
  ma_page_structure : page_structure;
  ma_design_tokens : design_tokens;
  ma_is_login_page : bool;
  ma_timestamp : string
}.

Definition main_app_to_py (m : main_app) : pyval :=
  PDict [ ("screenshot_path", PStr (ma_screenshot_path m));
          ("page_structure", page_structure_to_py (ma_page_structure m));
          ("design_tokens", design_tokens_to_py (ma_design_tokens m));
          ("is_login_page", PBool (ma_is_login_page m));
          ("timestamp", PStr (ma_timestamp m)) ].

(** [analyze_main_application]: no [try] guards its calls. *)
Definition analyze_main_application {S : Type} : M S main_app :=
  goto base_url ;;
  wait_for_timeout 3000 ;;
  screenshot_path <- take_screenshot "main_dashboard" ;;
  design_tokens <- extract_design_tokens ;;
  d <- evaluate "page_structure" ;;
  n <- locator_count (dq "input[type='email'], input[type='password']") ;;
  timestamp <- now ;;
  ret {| ma_screenshot_path := screenshot_path;
         ma_page_structure := page_structure_script d;
         ma_design_tokens := design_tokens;
         ma_is_login_page := (0 <? n)%nat;
         ma_timestamp := dt_iso timestamp |}.

(** *** The admin interface *)

Definition admin_pages : list string :=
  [ "/admin"; "/admin/create-company"; "/admin/users"; "/admin/audit-logs";
    "/admin/system-health"; "/admin/database-query" ].

Record page_analysis : Type := {
  pa_title : string;
  pa_url : string;
  hasContent : bool;
  hasForm : bool;
  hasTable : bool;
  hasNavigation : bool;
  hasCards : bool;
  hasLoadingIndicators : bool;
  errorMessages : list string;
  formFields : list input_el;
  actionButtons : list button_el
}.

(** The script of [analyze_admin_interface], on the document.  Of the
    three error selectors only the first is one [querySelectorAll]
    accepts; the script swallows the exception of the other two. *)
Definition page_analysis_script (d : document) : page_analysis :=
  {| pa_title := d_title d;
     pa_url := d_href d;
     hasContent := (100 <? String.length (d_body_innerText d))%nat;
     hasForm := (0 <? d_count d "form, input, select, textarea")%nat;
     hasTable := (0 <? d_count d "table, .MuiTable-root, .MuiDataGrid-root")%nat;
     hasNavigation := (0 <? d_count d "nav, .MuiDrawer-root, sidebar")%nat;
     hasCards := (0 <? d_count d ".MuiCard-root, .MuiPaper-root")%nat;
     hasLoadingIndicators :=
       (0 <? d_count d (dq ".MuiCircularProgress-root, .loading, [data-testid*='loading']"))%nat;
     errorMessages := d_alerts d;
     formFields := d_inputs d;
     actionButtons := d_buttons d |}.

Definition input_to_py (i : input_el) : pyval :=
  PDict [ ("type", PStr (str_or (in_type i) (lower (in_tagName i))));
          ("name", PStr (in_name i));
          ("placeholder", PStr (in_placeholder i));
          ("required", PBool (in_required i)) ].

Definition button_to_py (b : button_el) : pyval :=
  PDict [ ("text", PStr (js_trim (bt_textContent b)));
          ("disabled", match bt_disabled b with
                       | Some x => PBool x
                       | None => PNone
                       end);
          ("type", py_opt_str (bt_type b)) ].

Definition page_analysis_to_py (p : page_analysis) : pyval :=
  PDict [ ("title", PStr (pa_title p));
          ("url", PStr (pa_url p));
          ("hasContent", PBool (hasContent p));
          ("hasForm", PBool (hasForm p));
          ("hasTable", PBool (hasTable p));
          ("hasNavigation", PBool (hasNavigation p));
          ("hasCards", PBool (hasCards p));
          ("hasLoadingIndicators", PBool (hasLoadingIndicators p));
          ("errorMessages", py_strs (errorMessages p));
          ("formFields", PList (map input_to_py (formFields p)));
          ("actionButtons", PList (map button_to_py (actionButtons p))) ].

(** The dict [functionality] of [test_form_functionality];
    [required_fields] starts as an empty list and becomes a count. *)
Record functionality : Type := {
  has_validation : bool;
  required_fields : option nat;
  submit_test : string;
  api_connectivity : string
}.

Definition functionality_to_py (f : functionality) : pyval :=
  PDict [ ("has_validation", PBool (has_validation f));
          ("required_fields", match required_fields f with
                              | Some n => PInt (Z.of_nat n)
                              | None => PList []
                              end);
          ("submit_test", PStr (submit_test f));
          ("api_connectivity", PStr (api_connectivity f)) ].

Definition set_required_fields (n : nat) (f : functionality) : functionality :=
  {| has_validation := has_validation f;
     required_fields := Some n;
     submit_test := submit_test f;
     api_connectivity := api_connectivity f |}.

Definition set_has_validation (b : bool) (f : functionality) : functionality :=
  {| has_validation := b;
     required_fields := required_fields f;
     submit_test := submit_test f;
     api_connectivity := api_connectivity f |}.

Definition set_submit_test (x : string) (f : functionality) : functionality :=
  {| has_validation := has_validation f;
     required_fields := required_fields f;
     submit_test := x;
     api_connectivity := api_connectivity f |}.

Definition submit_selector : string :=
  dq "button[type='submit'], button:has-text('Submit'), button:has-text('Create'), button:has-text('Save')".

(** [test_form_functionality]: its handler records the exception in
    [submit_test]. *)
Definition test_form_functionality {S : Type} : M S functionality :=
  with_local
    {| has_validation := false; required_fields := None;
       submit_test := "not_tested"; api_connectivity := "unknown" |}
    (try_except
       (required_inputs <-
          locator_count "input[required], select[required], textarea[required]" ;;
        modify (set_required_fields required_inputs) ;;
        n <- locator_count submit_selector ;;
        when (0 <? n)%nat
             (click submit_selector ;;
              wait_for_timeout 1000 ;;
              validation_messages <-
                locator_count (dq ".error, .MuiFormHelperText-root, [role='alert']") ;;
              modify (set_has_validation (0 <? validation_messages)%nat) ;;
              modify (set_submit_test
                        (if (0 <? validation_messages)%nat
                         then "validation_works" else "no_validation"))))
       (fun e => modify (set_submit_test ("error: " ++ e)))).

(** The entry of one admin page when probing it went through. *)
Record page_record : Type := {
  screenshot_path : string;
  status_code : Z;
  is_error : bool;
  pr_page_analysis : page_analysis;
  functionality_test : option functionality;
  pr_design_tokens : design_tokens
}.

(** An entry of [admin_analysis["pages"]]: the one of the [try] block, or
    the one of the handler. *)
Inductive page_entry : Type :=
| Probed (r : page_record)
| Failed (error : string).

Definition page_entry_to_py (e : page_entry) : pyval :=
  match e with
  | Probed r =>
      PDict [ ("screenshot_path", PStr (screenshot_path r));
              ("status_code", PInt (status_code r));
              ("is_error", PBool (is_error r));
              ("page_analysis", page_analysis_to_py (pr_page_analysis r));
              ("functionality_test",
               match functionality_test r with
               | Some f => functionality_to_py f
               | None => PDict []
               end);
              ("design_tokens", design_tokens_to_py (pr_design_tokens r)) ]
  | Failed e => PDict [ ("error", PStr e); ("status", PStr "failed") ]
  end.

(** [admin_analysis]; only [pages] is ever filled. *)
Record admin_analysis : Type := {
  pages : list (string * page_entry)
}.

Definition admin_to_py (a : admin_analysis) : pyval :=
  PDict [ ("pages", PDict (map (fun kv => (fst kv, page_entry_to_py (snd kv)))
                               (pages a)));
          ("navigation_structure", PDict []);
          ("connectivity_issues", PList []);
          ("functionality_tests", PDict []) ].

Definition set_page (path : string) (e : page_entry) (a : admin_analysis)
  : admin_analysis :=
  {| pages := dict_set path e (pages a) |}.

(** [admin_path.replace("/admin", "admin_root").replace("/", "_").lstrip("_")] *)
Definition page_name (admin_path : string) : string :=
  lstrip_char "_" (replace "/" "_" (replace "/admin" "admin_root" admin_path)).

(** The [try] block of the loop of [analyze_admin_interface], on one
    page. *)
Definition probe_admin_page (admin_path : string) : M admin_analysis unit :=
  let full_url := (base_url ++ admin_path)%string in
  response <- goto full_url ;;
  wait_for_timeout 2000 ;;
  screenshot_path <- take_screenshot ("admin_" ++ page_name admin_path) ;;
  let status_code := match response with Some st => st | None => 0%Z end in
  n404 <- locator_count "text=404, text=Not Found, text=Page not found" ;;
  let is_404 := (0 <? n404)%nat in
  let is_error := (400 <=? status_code)%Z || is_404 in
  d <- evaluate "page_analysis" ;;
  let page_analysis := page_analysis_script d in
  functionality_test <-
    (if hasForm page_analysis
     then f <- test_form_functionality ;; ret (Some f)
     else ret None) ;;
  design_tokens <- extract_design_tokens ;;
  modify (set_page admin_path
            (Probed {| screenshot_path := screenshot_path;
                       status_code := status_code;
                       is_error := is_error;
                       pr_page_analysis := page_analysis;
                       functionality_test := functionality_test;
                       pr_design_tokens := design_tokens |})).

(** The body of the loop of [analyze_admin_interface] on one page: the
    handler records the exception as the entry of the page. *)
Definition analyze_admin_page (admin_path : string) : M admin_analysis unit :=
  try_except (probe_admin_page admin_path)
             (fun e => modify (set_page admin_path (Failed e))).

(** [analyze_admin_interface] *)
Definition analyze_admin_interface {S : Type} : M S admin_analysis :=
  with_local {| pages := [] |} (for_each admin_pages analyze_admin_page).

(** *** Service connectivity *)

(** An item of [network_requests]; [status] and [response_time] are set
    by [handle_response]. *)
Record network_request : Type := {
  nr_url : string;
  nr_method : string;
  nr_timestamp : string;
  nr_status : option Z;
  nr_response_time : option string
}.

Definition network_request_to_py (r : network_request) : pyval :=
  PDict ([ ("url", PStr (nr_url r));
           ("method", PStr (nr_method r));
           ("timestamp", PStr (nr_timestamp r)) ]
         ++ match nr_status r with
            | Some st => [ ("status", PInt st) ]
            | None => []
            end
         ++ match nr_response_time r with
            | Some rt => [ ("response_time", PStr rt) ]
            | None => []
            end).

(** [handle_response]: the first request with the URL of the response
    takes its status. *)
Fixpoint handle_response (url : string) (status : Z) (at_time : datetime)
         (network_requests : list network_request) : list network_request :=
  match network_requests with
  | [] => []
  | req :: rest =>
      if String.eqb (nr_url req) url
      then {| nr_url := nr_url req; nr_method := nr_method req;
              nr_timestamp := nr_timestamp req;
              nr_status := Some status;
              nr_response_time := Some (dt_iso at_time) |} :: rest
      else req :: handle_response url status at_time rest
  end.

(** The two handlers, on one event of the network. *)
Definition handle (network_requests : list network_request) (e : net_event)
  : list network_request :=
  match e with
  | NetRequest u m at_time =>
      network_requests ++
      [ {| nr_url := u; nr_method := m; nr_timestamp := dt_iso at_time;
           nr_status := None; nr_response_time := None |} ]
  | NetResponse u st at_time => handle_response u st at_time network_requests
  end.

(** [l[-n:]] for a positive [n] *)
Definition lastn {A : Type} (n : nat) (l : list A) : list A :=
  skipn (List.length l - n) l.

Record connectivity : Type := {
  firebase_auth : string;
  api_calls : list network_request;
  errors : list pyval;
  load_time_micros : Z
}.

Definition connectivity_to_py (c : connectivity) : pyval :=
  PDict [ ("firebase_auth", PStr (firebase_auth c));
          ("api_calls", PList (map network_request_to_py (api_calls c)));
          ("errors", PList (errors c));
          ("loading_times", PDict [ ("admin_page", PFloat (load_time_micros c)) ]) ].

(** The script that tests Firebase, on the document. *)
Definition firebase_script (d : document) : string :=
  match d_firebase d with
  | Ok true => "loaded"
  | Ok false => "not_loaded"
  | Raise m => "error: " ++ m
  end.

(** The network events the handlers saw while the last call was
    awaited. *)
Definition observed_network {S : Type} : M S (list net_event) :=
  fun w s t => (Ok (w_network w t), s, t).

(** [l[-n:]] read once [l] has become [l']: the slice is a new list of
    the same items, and the handlers only append to the log and write
    into its items, so the items of the slice are those of [l'] at the
    places the slice was taken from. *)
Definition shared_lastn {A : Type} (n : nat) (l l' : list A) : list A :=
  firstn (List.length (lastn n l)) (skipn (List.length l - n) l').

(** [test_service_connectivity]: no [try] guards its calls.  The two
    handlers stay registered when the navigation has returned: what the
    network does while the Firebase script is awaited still reaches the
    log, and through it the items [api_calls] shares with it. *)
Definition test_service_connectivity {S : Type} : M S connectivity :=
  call (EOn "request") (fun _ _ => Ok tt) ;;
  call (EOn "response") (fun _ _ => Ok tt) ;;
  start_time <- now ;;
  goto (base_url ++ "/admin") ;;
  net <- observed_network ;;
  let network_requests := fold_left handle net [] in
  end_time <- now ;;
  d <- evaluate "firebase" ;;
  late <- observed_network ;;
  ret {| firebase_auth := firebase_script d;
         api_calls := shared_lastn 10 network_requests
                                   (fold_left handle late network_requests);
         errors := [];
         load_time_micros := dt_micros end_time - dt_micros start_time |}.

(** *** Design gaps *)

Record design_gap : Type := {
  gap_page : string;
  missing_variables : list string;
  different_values : list (string * (string * string))
}.

Definition design_gap_to_py (g : design_gap) : pyval :=
  PDict [ ("page", PStr (gap_page g));
          ("type", PStr "css_variables");
          ("missing_variables", py_strs (missing_variables g));
          ("different_values",
           PDict (map (fun kv =>
                         (fst kv,
                          PDict [ ("main_app", PStr (fst (snd kv)));
                                  ("admin_page", PStr (snd (snd kv))) ]))
                      (different_values g))) ].

(** The gap [compare_designs] appends for one admin page, if any.  The
    missing variables are listed in the order of the main application's
    (Python's set difference fixes no order). *)
Definition compare_page (main_vars : list (string * string))
           (page_path : string) (page_data : page_entry) : list design_gap :=
  match page_data with
  | Failed _ => []
  | Probed r =>
      let admin_vars := cssVariables (pr_design_tokens r) in
      let missing_vars :=
        filter (fun v => negb (dict_mem v admin_vars)) (keys main_vars) in
      let different_values :=
        flat_map (fun kv =>
                    match dict_get (fst kv) admin_vars with
                    | Some a =>
                        if String.eqb (snd kv) a then []
                        else [ (fst kv, (snd kv, a)) ]
                    | None => []
                    end) main_vars in
      match missing_vars, different_values with
      | [], [] => []
      | _, _ => [ {| gap_page := page_path;
                     missing_variables := missing_vars;
                     different_values := different_values |} ]
      end
  end.

(** [compare_designs] *)
Definition compare_designs (main_app_data : main_app) (admin_data : admin_analysis)
  : list design_gap :=
  flat_map (fun kv => compare_page (cssVariables (ma_design_tokens main_app_data))
                                   (fst kv) (snd kv))
           (pages admin_data).

(** *** The report *)

(** [_generate_recommendations]: a method that does not read [self]. *)
Definition _generate_recommendations (self : results) : string :=
"
### Key Recommendations

1. **Design Consistency**
   - Standardize CSS variables across main app and admin interface
   - Implement shared design system components
   - Ensure consistent Material-UI theme usage

2. **Admin Interface Improvements**
   - Fix any non-functional admin pages identified
   - Improve form validation and error handling
   - Enhance mobile responsiveness for admin workflows

3. **Service Connectivity**
   - Optimize API response times
   - Implement proper error handling for failed requests
   - Add loading states for better UX

4. **Next Steps**
   - Address design gaps identified in this analysis
   - Implement missing admin functionality
   - Create comprehensive admin interface rebuild plan
".

(** A line break. *)
Definition nl : string := String "010"%char EmptyString.

(** What [_format_design_gaps] adds for one gap.  The [type] of a gap is
    always [css_variables]; a list is true when it is not empty. *)
Definition gap_summary (gap : design_gap) : string :=
  ("**" ++ gap_page gap ++ "**" ++ nl
   ++ "- Gap Type: css_variables" ++ nl
   ++ match missing_variables gap with
      | [] => ""
      | l => "- Missing Variables: " ++ decimal (List.length l) ++ nl
      end
   ++ match different_values gap with
      | [] => ""
      | l => "- Different Values: " ++ decimal (List.length l) ++ nl
      end
   ++ nl)%string.

(** [_format_design_gaps], on the gaps [compare_designs] returned, which
    the report holds under [design_gaps]. *)
Definition _format_design_gaps (gaps : list design_gap) : string :=
  match gaps with
  | [] => "No significant design gaps identified."
  | _ =>
      ("### Identified Design Inconsistencies" ++ nl ++ nl
       ++ String.concat "" (map gap_summary gaps))%string
  end.

(** [generate_report]: the JSON report is written with [default=str], the
    Markdown summary after it. *)
Definition generate_report : M results string :=
  timestamp <- now ;;
  let report_path :=
    ("./analysis/comprehensive_ellaai_analysis_" ++ dt_stamp timestamp ++ ".json")%string in
  makedirs "./analysis" ;;
  self <- get ;;
  call (EDumpJson report_path (json_dump_default_str (PDict self)))
       (fun w t => w_write w t report_path) ;;
  now ;;
  let markdown_path :=
    ("./analysis/ellaai_analysis_summary_" ++ dt_stamp timestamp ++ ".md")%string in
  call (EWriteText markdown_path) (fun w t => w_write w t markdown_path) ;;
  ret report_path.

(** Steps 1 to 4 of the [try] block of [run_analysis], which fill
    [self.analysis_results]. *)
Definition collect : M results unit :=
  main_app <- analyze_main_application ;;
  modify (dict_set "main_app" (main_app_to_py main_app)) ;;
  admin <- analyze_admin_interface ;;
  modify (dict_set "admin_interface" (admin_to_py admin)) ;;
  service <- test_service_connectivity ;;
  modify (dict_set "service_connectivity" (connectivity_to_py service)) ;;
  modify (dict_set "design_gaps"
            (PList (map design_gap_to_py (compare_designs main_app admin)))).

(** The [try] block of [run_analysis]. *)
Definition stages : M results string :=
  collect ;;
  generate_report.

(** The [try] statement of [run_analysis] without its [finally]: the
    handler prints the exception and raises it again. *)
Definition guarded_stages : M results string :=
  try_except stages (fun e => raise e).

(** [run_analysis] *)
Definition run_analysis : M results string :=
  launch ;;
  new_context ;;
  new_page ;;
  try_finally guarded_stages close.

(** [sys.exit(code)] *)
Definition sys_exit {S A : Type} (code : Z) : M S A :=
  call (EExit code) (fun _ _ => Raise "SystemExit").

(** [EllaAIAnalyzer()], filling the store, then [main]. *)
Definition main : M results unit :=
  timestamp <- now ;;
  modify (fun _ => initial_results timestamp) ;;
  makedirs screenshots_dir ;;
  try_except (run_analysis ;; ret tt) (fun _ => sys_exit 1).

(** Running the file as a script. *)
Definition script (w : world) : Z * trace :=
  match main w [] [] with
  | (r, _, t) => (exit_code r, t)
  end.

End Comprehensive.

(** ** Some worlds *)

Definition blank_document : document :=
  {| d_title := "EllaAI";
     d_href := "https://ellaai-platform-prod.web.app/";
     d_body_className := "";
     d_body_innerText := "";
     d_root_style := [];
     d_color_scheme := "";
     d_mui_theme := None;
     d_count := fun _ => 0%nat;
     d_key_elements := [];
     d_alerts := [];
     d_inputs := [];
     d_buttons := [];
     d_firebase := Ok false |}.

Definition new_year : datetime :=
  {| dt_iso := "2025-01-01T00:00:00";
     dt_stamp := "20250101_000000";
     dt_micros := 0 |}.

(** The URL of the last navigation. *)
Fixpoint last_goto (t : trace) (default : string) : string :=
  match t with
  | [] => default
  | EGoto u :: t' => last_goto t' u
  | _ :: t' => last_goto t' default
  end.

(** A world in which every call returns: every page answers 200, shows
    the URL asked for and is empty. *)
Definition quiet_world : world :=
  {| w_makedirs := fun _ _ => Ok tt;
     w_launch := fun _ => Ok tt;
     w_new_context := fun _ => Ok tt;
     w_new_page := fun _ => Ok tt;
     w_close := fun _ => Ok tt;
     w_goto := fun _ _ => Ok (Some 200%Z);
     w_wait_for_timeout := fun _ => Ok tt;
     w_screenshot := fun _ _ => Ok tt;
     w_title := fun _ => Ok "EllaAI";
     w_url := fun t => last_goto t "about:blank";
     w_query_selector := fun _ _ => Ok false;
     w_query_selector_all := fun _ _ => Ok [];
     w_locator_count := fun _ _ => Ok 0%nat;
     w_click := fun _ _ => Ok tt;
     w_document := fun _ => Ok blank_document;
     w_inner_text := fun _ _ => Ok "";
     w_now := fun _ => new_year;
     w_network := fun _ => [];
     w_write := fun _ _ => Ok tt |}.

(** [w] with other answers to [goto]. *)
Definition with_goto (g : trace -> string -> outcome (option Z)) (w : world)
  : world :=
  {| w_makedirs := w_makedirs w;
     w_launch := w_launch w;
     w_new_context := w_new_context w;
     w_new_page := w_new_page w;
     w_close := w_close w;
     w_goto := g;
     w_wait_for_timeout := w_wait_for_timeout w;
     w_screenshot := w_screenshot w;
     w_title := w_title w;
     w_url := w_url w;
     w_query_selector := w_query_selector w;
     w_query_selector_all := w_query_selector_all w;
     w_locator_count := w_locator_count w;
     w_click := w_click w;
     w_document := w_document w;
     w_inner_text := w_inner_text w;
     w_now := w_now w;
     w_network := w_network w;
     w_write := w_write w |}.

(** [w] with other answers to [new_context]. *)
Definition with_new_context (g : trace -> outcome unit) (w : world) : world :=
  {| w_makedirs := w_makedirs w;
     w_launch := w_launch w;
     w_new_context := g;
     w_new_page := w_new_page w;
     w_close := w_close w;
     w_goto := w_goto w;
     w_wait_for_timeout := w_wait_for_timeout w;
     w_screenshot := w_screenshot w;
     w_title := w_title w;
     w_url := w_url w;
     w_query_selector := w_query_selector w;
     w_query_selector_all := w_query_selector_all w;
     w_locator_count := w_locator_count w;
     w_click := w_click w;
     w_document := w_document w;
     w_inner_text := w_inner_text w;
     w_now := w_now w;
     w_network := w_network w;
     w_write := w_write w |}.

(** [w] with other answers to the writing of a file. *)
Definition with_write (g : trace -> string -> outcome unit) (w : world) : world :=
  {| w_makedirs := w_makedirs w;
     w_launch := w_launch w;
     w_new_context := w_new_context w;
     w_new_page := w_new_page w;
     w_close := w_close w;
     w_goto := w_goto w;
     w_wait_for_timeout := w_wait_for_timeout w;
     w_screenshot := w_screenshot w;
     w_title := w_title w;
     w_url := w_url w;
     w_query_selector := w_query_selector w;
     w_query_selector_all := w_query_selector_all w;
     w_locator_count := w_locator_count w;
     w_click := w_click w;
     w_document := w_document w;
     w_inner_text := w_inner_text w;
     w_now := w_now w;
     w_network := w_network w;
     w_write := g |}.

(** [w] with other documents. *)
Definition with_document (g : trace -> outcome document) (w : world) : world :=
  {| w_makedirs := w_makedirs w;
     w_launch := w_launch w;
     w_new_context := w_new_context w;
     w_new_page := w_new_page w;
     w_close := w_close w;
     w_goto := w_goto w;
     w_wait_for_timeout := w_wait_for_timeout w;
     w_screenshot := w_screenshot w;
     w_title := w_title w;
     w_url := w_url w;
     w_query_selector := w_query_selector w;
     w_query_selector_all := w_query_selector_all w;
     w_locator_count := w_locator_count w;
     w_click := w_click w;
     w_document := g;
     w_inner_text := w_inner_text w;
     w_now := w_now w;
     w_network := w_network w;
     w_write := w_write w |}.

(** A world whose every navigation fails. *)
Definition dead_world : world :=
  with_goto (fun _ _ => Raise "net::ERR_NAME_NOT_RESOLVED") quiet_world.

Definition not_found_text : string :=
  "404 Page Not Found. The page you are looking for does not exist or has been moved. Please check the address and try again.".

(** A world whose every page answers 404 with a page of some length. *)
Definition not_found_world : world :=
  with_document
    (fun _ => Ok {| d_title := "Page Not Found";
                    d_href := "https://ellaai-platform-prod.web.app/admin";
                    d_body_className := "";
                    d_body_innerText := not_found_text;
                    d_root_style := [];
                    d_color_scheme := "";
                    d_mui_theme := None;
                    d_count := fun _ => 0%nat;
                    d_key_elements := [];
                    d_alerts := [];
                    d_inputs := [];
                    d_buttons := [];
                    d_firebase := Ok false |})
    (with_goto (fun _ _ => Ok (Some 404%Z)) quiet_world).

(** A world whose disk is full. *)
Definition full_disk_world : world :=
  with_write (fun _ _ => Raise "No space left on device") quiet_world.

(** [w] with other answers to [query_selector_all]. *)
Definition with_query_selector_all (g : trace -> string -> outcome (list element)) (w : world)
  : world :=
  {| w_makedirs := w_makedirs w;
     w_launch := w_launch w;
     w_new_context := w_new_context w;
     w_new_page := w_new_page w;
     w_close := w_close w;
     w_goto := w_goto w;
     w_wait_for_timeout := w_wait_for_timeout w;
     w_screenshot := w_screenshot w;
     w_title := w_title w;
     w_url := w_url w;
     w_query_selector := w_query_selector w;
     w_query_selector_all := g;
     w_locator_count := w_locator_count w;
     w_click := w_click w;
     w_document := w_document w;
     w_inner_text := w_inner_text w;
     w_now := w_now w;
     w_network := w_network w;
     w_write := w_write w |}.

(** [w] with other answers to [page.inner_text]. *)
Definition with_inner_text (g : trace -> string -> outcome string) (w : world)
  : world :=
  {| w_makedirs := w_makedirs w;
     w_launch := w_launch w;
     w_new_context := w_new_context w;
     w_new_page := w_new_page w;
     w_close := w_close w;
     w_goto := w_goto w;
     w_wait_for_timeout := w_wait_for_timeout w;
     w_screenshot := w_screenshot w;
     w_title := w_title w;
     w_url := w_url w;
     w_query_selector := w_query_selector w;
     w_query_selector_all := w_query_selector_all w;
     w_locator_count := w_locator_count w;
     w_click := w_click w;
     w_document := w_document w;
     w_inner_text := g;
     w_now := w_now w;
     w_network := w_network w;
     w_write := w_write w |}.

Definition menu_link (text href : string) : element :=
  {| el_inner_text := Ok text; el_href := Ok (Some href) |}.

(** Twenty-eight links: one with a short text, one with a text of more
    than 50 characters, one without text, and twenty-five more. *)
Definition some_links : list element :=
  [ menu_link "  Users  " "/admin/users";
    menu_link not_found_text "/admin/help";
    menu_link "   " "/admin/blank" ]
  ++ repeat (menu_link "Item" "/admin/item") 25.

(** A world whose pages show the links [some_links]. *)
Definition links_world : world :=
  with_query_selector_all (fun _ _ => Ok some_links) quiet_world.

(** A world whose pages load but whose body cannot be read. *)
Definition unreadable_world : world :=
  with_inner_text (fun _ _ => Raise "Timeout 30000ms exceeded") quiet_world.

(** A world whose browser starts and then fails to open a context. *)
Definition no_context_world : world :=
  with_new_context (fun _ => Raise "Target closed") quiet_world.

(** ** Reading a run *)

Definition result_of {S A : Type} (x : outcome A * S * trace) : outcome A :=
  fst (fst x).
Definition store_of {S A : Type} (x : outcome A * S * trace) : S := snd (fst x).
Definition trace_of {S A : Type} (x : outcome A * S * trace) : trace := snd x.

(** Every call [m] makes satisfies [P]; the calls made before stay. *)
Definition emits (P : event -> Prop) {S A : Type} (m : M S A) : Prop :=
  forall w s t, exists d, trace_of (m w s t) = t ++ d /\ Forall P d.

Definition is_goto (e : event) : bool :=
  match e with EGoto _ => true | _ => false end.

(** The URLs navigated to, in order. *)
Definition gotos (t : trace) : list string :=
  flat_map (fun e => match e with EGoto u => [u] | _ => [] end) t.

(** A call other than a navigation. *)
Definition stays (e : event) : Prop := is_goto e = false.

(** A call that neither launches nor closes the browser. *)
Definition in_session (e : event) : Prop := e <> ELaunch /\ e <> EClose.

(** The number of calls to [browser.close()]. *)
Definition closes (t : trace) : nat :=
  List.length (filter (fun e => match e with EClose => true | _ => false end) t).

(** [m] holds the browser as a scoped resource: from any point where the
    browser, its context and its page are obtained, the calls of [m] are
    these three, calls that neither launch nor close a browser, and last
    the closing of the browser. *)
Definition scoped_session {S A : Type} (m : M S A) : Prop :=
  forall w s t,
    w_launch w t = Ok tt ->
    w_new_context w (t ++ [ELaunch]) = Ok tt ->
    w_new_page w (t ++ [ELaunch; ENewContext]) = Ok tt ->
    exists mid,
      trace_of (m w s t) = t ++ [ELaunch; ENewContext; ENewPage] ++ mid ++ [EClose]
      /\ Forall in_session mid.


(** The entries of [accessible_pages] for a URL. *)
Definition pages_for (url : string) (a : AnalyzePlatform.app_analysis)
  : list AnalyzePlatform.accessible_page :=
  filter (fun p => String.eqb (AnalyzePlatform.ap_url p) url)
         (AnalyzePlatform.accessible_pages a).

(** The entries of [accessible_content] for a URL. *)
Definition content_for (url : string) (a : AnalyzePlatform.public_analysis)
  : list AnalyzePlatform.content_entry :=
  filter (fun c => String.eqb (AnalyzePlatform.content_url c) url)
         (AnalyzePlatform.accessible_content a).

(** The message of an exception. *)
Definition error_of {A : Type} (r : outcome A) : option string :=
  match r with Ok _ => None | Raise msg => Some msg end.

(** The exception the call [ev] raises when it is made after the calls
    [t], if it raises. *)
Definition failure (w : world) (t : trace) (ev : event) : option string :=
  match ev with
  | EMakedirs path => error_of (w_makedirs w t path)
  | ELaunch => error_of (w_launch w t)
  | ENewContext => error_of (w_new_context w t)
  | ENewPage => error_of (w_new_page w t)
  | EClose => error_of (w_close w t)
  | EGoto url => error_of (w_goto w t url)
  | ESleep _ => None
  | EWaitForTimeout _ => error_of (w_wait_for_timeout w t)
  | EScreenshot path => error_of (w_screenshot w t path)
  | ETitle => error_of (w_title w t)
  | EQuerySelector sel => error_of (w_query_selector w t sel)
  | EQuerySelectorAll sel => error_of (w_query_selector_all w t sel)
  | ELocatorCount sel => error_of (w_locator_count w t sel)
  | EClick sel => error_of (w_click w t sel)
  | EEvaluate _ => error_of (w_document w t)
  | EInnerText sel => error_of (w_inner_text w t sel)
  | ENow => None
  | EOn _ => None
  | EDumpJson path _ => error_of (w_write w t path)
  | EWriteText path => error_of (w_write w t path)
  | EExit _ => Some "SystemExit"
  end.


(** A loop, turn by turn.  From the store [s] and the calls [t] the
    items of the list are handled in order; the turn of an item starts
    from the store and the calls that the turn before left, and the last
    turn leaves [s'] and [t']. *)
Inductive chain {S A : Type} (turn : A -> S -> trace -> S -> trace -> Prop)
  : list A -> S -> trace -> S -> trace -> Prop :=
| chain_nil : forall s t, chain turn [] s t s t
| chain_cons : forall a l s t s1 t1 s' t',
    turn a s t s1 t1 ->
    chain turn l s1 t1 s' t' ->
    chain turn (a :: l) s t s' t'.

(** One turn of the loop of [analyze_admin_interface], from the store
    [s0] and the calls [t0] to [s1] and [t1].  Its calls start with the
    navigation to the page and hold no other navigation, and when they
    are made the entry of the page is set.  If the entry is that of a
    probe, the calls are all the steps of the probe: the navigation, the
    wait, the screenshot, the count of the 404 texts, the page analysis,
    the form test when the page has a form, and the design tokens.  If
    it is that of a failure, the last call of the turn raised the
    exception recorded. *)
Definition admin_turn (w : world) (path : string)
           (s0 : Comprehensive.admin_analysis) (t0 : trace)
           (s1 : Comprehensive.admin_analysis) (t1 : trace) : Prop :=
  Comprehensive.analyze_admin_page path w s0 t0 = (Ok tt, s1, t1)
  /\ exists e rest,
      t1 = t0 ++ EGoto (Comprehensive.base_url ++ path) :: rest
      /\ Forall stays rest
      /\ s1 = Comprehensive.set_page path e s0
      /\ match e with
         | Comprehensive.Probed r =>
             exists form,
               rest = [ EWaitForTimeout 2000; ENow;
                        EScreenshot (Comprehensive.screenshot_path r);
                        ELocatorCount "text=404, text=Not Found, text=Page not found";
                        EEvaluate "page_analysis" ]
                      ++ form ++ [ EEvaluate "design_tokens" ]
               /\ if Comprehensive.hasForm (Comprehensive.pr_page_analysis r)
                  then exists more,
                      form = ELocatorCount
                               "input[required], select[required], textarea[required]"
                             :: more
                  else form = []
         | Comprehensive.Failed msg =>
             exists pre ev,
               EGoto (Comprehensive.base_url ++ path) :: rest = pre ++ [ev]
               /\ failure w (t0 ++ pre) ev = Some msg
         end.

(** One turn of the loop of [analyze_main_application] of the platform
    script.  Its calls start with the navigation to the URL and hold no
    other navigation.  Without an entry, they stop at the navigation
    when it raised, and at the reading of the title, after the wait,
    when it returned; with the entry of the URL, the screenshot follows,
    and the six queries of the navigation items when the screenshot
    returned. *)
Definition main_turn (w : world) (url : string)
           (s0 : AnalyzePlatform.app_analysis) (t0 : trace)
           (s1 : AnalyzePlatform.app_analysis) (t1 : trace) : Prop :=
  AnalyzePlatform.check_url url w s0 t0 = (Ok tt, s1, t1)
  /\ exists rest xs,
      t1 = t0 ++ EGoto url :: rest
      /\ Forall stays rest
      /\ AnalyzePlatform.accessible_pages s1
         = AnalyzePlatform.accessible_pages s0 ++ xs
      /\ match xs with
         | [] =>
             (rest = [] /\ is_ok (w_goto w t0 url) = false)
             \/ (rest = [ ESleep 1000; ETitle ]
                 /\ is_ok (w_goto w t0 url) = true)
         | [ p ] =>
             AnalyzePlatform.ap_url p = url
             /\ exists shot queries,
                 rest = [ ESleep 1000; ETitle; EScreenshot shot ] ++ queries
                 /\ ((queries = []
                      /\ is_ok (w_screenshot w
                                  (t0 ++ [ EGoto url; ESleep 1000; ETitle ]) shot)
                         = false)
                     \/ (queries = map EQuerySelectorAll AnalyzePlatform.nav_selectors
                         /\ is_ok (w_screenshot w
                                     (t0 ++ [ EGoto url; ESleep 1000; ETitle ]) shot)
                            = true))
         | _ => False
         end.

(** One turn of the loop of [check_public_pages].  Its calls start with
    the navigation to the URL and hold no other navigation.  Either the
    navigation returned and the URL read after it contains [login], and
    nothing more is called or recorded; or the
    last call of the turn raised, and the entry of the failure is
    recorded, after that of the page if the title was read; or the title
    and the body were read and the entry of the page is recorded. *)
Definition public_turn (w : world) (url : string)
           (s0 : AnalyzePlatform.public_analysis) (t0 : trace)
           (s1 : AnalyzePlatform.public_analysis) (t1 : trace) : Prop :=
  AnalyzePlatform.check_public_url url w s0 t0 = (Ok tt, s1, t1)
  /\ exists rest xs,
      t1 = t0 ++ EGoto url :: rest
      /\ Forall stays rest
      /\ AnalyzePlatform.accessible_content s1
         = AnalyzePlatform.accessible_content s0 ++ xs
      /\ ((rest = [] /\ xs = []
           /\ is_ok (w_goto w t0 url) = true
           /\ contains "login" (lower (w_url w (t0 ++ [ EGoto url ]))) = true)
          \/ (exists pre ev msg,
                 EGoto url :: rest = pre ++ [ev]
                 /\ failure w (t0 ++ pre) ev = Some msg
                 /\ (xs = [ AnalyzePlatform.Inaccessible url msg ]
                     \/ exists title,
                         xs = [ AnalyzePlatform.Accessible url title;
                                AnalyzePlatform.Inaccessible url msg ]))
          \/ (rest = [ ETitle; EInnerText "body" ]
              /\ exists title, xs = [ AnalyzePlatform.Accessible url title ])).

(** Design tokens as the script builds them: no CSS variable and no
    element key twice, and native element styles. *)
Definition wf_tokens (t : Comprehensive.design_tokens) : Prop :=
  NoDup (keys (Comprehensive.cssVariables t))
  /\ NoDup (keys (Comprehensive.elementStyles t))
  /\ Forall (fun kv => json_native (snd kv) = true) (Comprehensive.elementStyles t).

Definition wf_entry (e : Comprehensive.page_entry) : Prop :=
  match e with
  | Comprehensive.Probed r => wf_tokens (Comprehensive.pr_design_tokens r)
  | Comprehensive.Failed _ => True
  end.

(** The keys of [admin_interface["pages"]] in a report. *)
Definition admin_page_keys (report : list (string * pyval)) : option (list string) :=
  match dict_get "admin_interface" report with
  | Some (PDict admin) =>
      match dict_get "pages" admin with
      | Some (PDict pages) => Some (keys pages)
      | _ => None
      end
  | _ => None
  end.

(** The names of the members of a JSON object. *)
Definition json_keys (j : json) : list string :=
  match j with
  | JObj members => keys members
  | _ => []
  end.

(** [it] is an item [analyze_navigation] takes from [link]: the whole
    stripped text of the link, not empty and shorter than 50
    characters. *)
Definition nav_item_of (link : element) (it : string * string) : Prop :=
  exists raw,
    el_inner_text link = Ok raw
    /\ fst it = strip raw
    /\ fst it <> ""
    /\ (String.length (fst it) < 50)%nat.

(** [n] is an item [extract_navigation_items] takes from [element]: the
    whole stripped text of the element, not empty and shorter than 30
    characters. *)
Definition nav_link_of (element : element) (n : AnalyzePlatform.nav_link) : Prop :=
  exists raw,
    el_inner_text element = Ok raw
    /\ AnalyzePlatform.nav_text n = strip raw
    /\ AnalyzePlatform.nav_text n <> ""
    /\ (String.length (AnalyzePlatform.nav_text n) < 30)%nat.

(** ** More worlds *)

(** A button of the document [themed_document]. *)
Definition text_button : key_element :=
  {| ke_tagName := "BUTTON";
     ke_className := "MuiButton-root MuiButton-text";
     ke_style := fun _ => "0px" |}.

(** A document with two custom properties and two buttons of the same
    classes. *)
Definition themed_document : document :=
  {| d_title := "EllaAI";
     d_href := "https://ellaai-platform-prod.web.app/";
     d_body_className := "";
     d_body_innerText := "";
     d_root_style := [ ("--primary", " #1976d2 "); ("color", "black");
                       ("--spacing", "8px") ];
     d_color_scheme := "";
     d_mui_theme := None;
     d_count := fun _ => 0%nat;
     d_key_elements := [ text_button; text_button ];
     d_alerts := [];
     d_inputs := [];
     d_buttons := [];
     d_firebase := Ok false |}.

(** A world whose pages say what they are for. *)
Definition managed_world : world :=
  with_inner_text (fun _ _ => Ok "Manage your hiring pipeline") quiet_world.

(** [w] with another network. *)
Definition with_network (g : trace -> list net_event) (w : world) : world :=
  {| w_makedirs := w_makedirs w;
     w_launch := w_launch w;
     w_new_context := w_new_context w;
     w_new_page := w_new_page w;
     w_close := w_close w;
     w_goto := w_goto w;
     w_wait_for_timeout := w_wait_for_timeout w;
     w_screenshot := w_screenshot w;
     w_title := w_title w;
     w_url := w_url w;
     w_query_selector := w_query_selector w;
     w_query_selector_all := w_query_selector_all w;
     w_locator_count := w_locator_count w;
     w_click := w_click w;
     w_document := w_document w;
     w_inner_text := w_inner_text w;
     w_now := w_now w;
     w_network := g;
     w_write := w_write w |}.

(** [w] with other URLs shown. *)
Definition with_url (g : trace -> string) (w : world) : world :=
  {| w_makedirs := w_makedirs w;
     w_launch := w_launch w;
     w_new_context := w_new_context w;
     w_new_page := w_new_page w;
     w_close := w_close w;
     w_goto := w_goto w;
     w_wait_for_timeout := w_wait_for_timeout w;
     w_screenshot := w_screenshot w;
     w_title := w_title w;
     w_url := g;
     w_query_selector := w_query_selector w;
     w_query_selector_all := w_query_selector_all w;
     w_locator_count := w_locator_count w;
     w_click := w_click w;
     w_document := w_document w;
     w_inner_text := w_inner_text w;
     w_now := w_now w;
     w_network := w_network w;
     w_write := w_write w |}.

(** The request of the [n]-th resource of the admin page. *)
Definition api_request (n : nat) : net_event :=
  NetRequest ("https://ellaai-platform-prod.web.app/api/" ++ decimal n) "GET"
             new_year.

(** A world whose navigations request twelve resources, of which the
    third is answered before the navigation returns and the twelfth
    while the next script is evaluated, when a thirteenth is
    requested. *)
Definition busy_world : world :=
  with_network
    (fun t =>
       match last t ENow with
       | EGoto _ =>
           map api_request (seq 1 12)
           ++ [ NetResponse "https://ellaai-platform-prod.web.app/api/3" 200 new_year ]
       | EEvaluate _ =>
           [ NetResponse "https://ellaai-platform-prod.web.app/api/12" 503 new_year;
             api_request 13 ]
       | _ => []
       end)
    quiet_world.

(** A world in which only the dashboard is behind the login page: the
    navigation to it ends on the login page. *)
Definition login_wall_world : world :=
  with_url
    (fun t =>
       if String.eqb (last_goto t "about:blank")
                     "https://ellaai-platform-prod.web.app/dashboard"
       then "https://ellaai-platform-prod.web.app/login?next=dashboard"
       else last_goto t "about:blank")
    quiet_world.

(** The main application of [themed_document]. *)
Definition themed_main_app : Comprehensive.main_app :=
  {| Comprehensive.ma_screenshot_path := "./screenshots/analysis/main_dashboard.png";
     Comprehensive.ma_page_structure := Comprehensive.page_structure_script themed_document;
     Comprehensive.ma_design_tokens := Comprehensive.design_tokens_script themed_document;
     Comprehensive.ma_is_login_page := false;
     Comprehensive.ma_timestamp := dt_iso new_year |}.

(** The admin interface after the probe of its first page in the quiet
    world, whose pages define no custom property. *)
Definition plain_admin : Comprehensive.admin_analysis :=
  store_of (Comprehensive.analyze_admin_page "/admin" quiet_world
              {| Comprehensive.pages := [] |} []).

(** ** Reading a result *)

(** The characters of a string. *)
Fixpoint chars (s : string) : list ascii :=
  match s with
  | EmptyString => []
  | String c s' => c :: chars s'
  end.

(** [s] neither starts nor ends with a character that satisfies [p]. *)
Definition trimmed (p : ascii -> bool) (s : string) : Prop :=
  match chars s with
  | [] => True
  | c :: _ => p c = false /\ p (last (chars s) c) = false
  end.

Definition is_digit (c : ascii) : bool :=
  let n := nat_of_ascii c in ((48 <=? n) && (n <=? 57))%nat.

(** What follows the last underscore of a string; the whole string when
    it has none. *)
Fixpoint after_last_underscore (s : string) : string :=
  match s with
  | EmptyString => EmptyString
  | String c s' =>
      if existsb (Ascii.eqb "_") (chars s')
      then after_last_underscore s'
      else if Ascii.eqb c "_" then s' else s
  end.

(** [s] holds no path separator. *)
Fixpoint no_slash (s : string) : bool :=
  match s with
  | EmptyString => true
  | String c s' => negb (Ascii.eqb c "/") && no_slash s'
  end.

Definition is_nil {A : Type} (l : list A) : bool :=
  match l with [] => true | _ => false end.

(** The longest prefix whose items satisfy [p]. *)
Fixpoint take_while {A : Type} (p : A -> bool) (l : list A) : list A :=
  match l with
  | [] => []
  | a :: l' => if p a then a :: take_while p l' else []
  end.

(** [l] as booleans say which of the findings, in this order, are
    there. *)
Definition chosen (l : list (bool * string)) : list string :=
  flat_map (fun bx : bool * string => if fst bx then [snd bx] else []) l.

(** [admin_vars] defines every variable of [main_vars], with the same
    value. *)
Definition covers (admin_vars main_vars : list (string * string)) : Prop :=
  forall k v, In (k, v) main_vars -> dict_get k admin_vars = Some v.

(** What a gap of the page [r] against [main_vars] holds. *)
Definition gap_of (main_vars : list (string * string)) (path : string)
           (r : Comprehensive.page_record) (g : Comprehensive.design_gap) : Prop :=
  let admin_vars := Comprehensive.cssVariables (Comprehensive.pr_design_tokens r) in
  Comprehensive.gap_page g = path
  /\ (forall k, In k (Comprehensive.missing_variables g) <->
                In k (keys main_vars) /\ dict_get k admin_vars = None)
  /\ (forall k m a, In (k, (m, a)) (Comprehensive.different_values g) <->
                    In (k, m) main_vars /\ dict_get k admin_vars = Some a /\ m <> a)
  /\ (Comprehensive.missing_variables g <> []
      \/ Comprehensive.different_values g <> []).

(** The requests among the events of the network, as [handle_request]
    records them. *)
Definition requests_of (net : list net_event) : list (string * string * string) :=
  flat_map (fun e => match e with
                     | NetRequest u m at_time => [ (u, m, dt_iso at_time) ]
                     | NetResponse _ _ _ => []
                     end) net.

(** What [handle_request] wrote in an item. *)
Definition request_part (r : Comprehensive.network_request)
  : string * string * string :=
  (Comprehensive.nr_url r, Comprehensive.nr_method r, Comprehensive.nr_timestamp r).

(** Among the items of a URL, only the first may hold a status: [seen]
    are the URLs of the items before. *)
Fixpoint first_answered (seen : list string)
         (l : list Comprehensive.network_request) : Prop :=
  match l with
  | [] => True
  | r :: l' =>
      (In (Comprehensive.nr_url r) seen ->
       Comprehensive.nr_status r = None
       /\ Comprehensive.nr_response_time r = None)
      /\ first_answered (Comprehensive.nr_url r :: seen) l'
  end.

(** The status of an item, if any, is that of a response to its URL
    among [net], and its response time the time of that response. *)
Definition answered_by (net : list net_event) (r : Comprehensive.network_request)
  : Prop :=
  forall st,
    Comprehensive.nr_status r = Some st ->
    exists at_time,
      In (NetResponse (Comprehensive.nr_url r) st at_time) net
      /\ Comprehensive.nr_response_time r = Some (dt_iso at_time).

(** [selector] matches an element when it is queried after the calls
    [t]. *)
Definition matches (w : world) (t : trace) (selector : string) : bool :=
  match w_query_selector_all w t selector with
  | Ok (_ :: _) => true
  | _ => false
  end.

(** The test of [check_public_pages] on the text of a body: only its
    first 1000 characters are read. *)
Definition mentions_admin (body : string) : bool :=
  contains "admin" (lower (String.substring 0 1000 body))
  || contains "manage" (lower (String.substring 0 1000 body)).

(** Every URL with an insight has the entry of an accessible page. *)
Definition insights_accessible (p : AnalyzePlatform.public_analysis) : Prop :=
  forall u,
    In u (AnalyzePlatform.platform_insights p) ->
    exists title,
      In (AnalyzePlatform.Accessible u title) (AnalyzePlatform.accessible_content p).

(** A navigation item as [extract_navigation_items] keeps them. *)
Definition short_text (n : AnalyzePlatform.nav_link) : Prop :=
  AnalyzePlatform.nav_text n <> ""
  /\ (String.length (AnalyzePlatform.nav_text n) < 30)%nat.

(** Both readings of an element return. *)
Definition readable (el : element) : bool :=
  is_ok (el_inner_text el) && is_ok (el_href el).

(** The item [extract_navigation_items] takes from a readable element,
    if its text is kept. *)
Definition link_of (el : element) : list AnalyzePlatform.nav_link :=
  match el_inner_text el, el_href el with
  | Ok raw, Ok href =>
      if truthy (strip raw) && (String.length (strip raw) <? 30)%nat
      then [ {| AnalyzePlatform.nav_text := strip raw;
                AnalyzePlatform.nav_href := href |} ]
      else []
  | _, _ => []
  end.

(** The opening of a file for writing. *)
Definition is_write (e : event) : bool :=
  match e with
  | EDumpJson _ _ | EWriteText _ => true
  | _ => false
  end.

(** The files opened for writing, in order. *)
Definition writes (t : trace) : trace := filter is_write t.

(** A call that writes no file. *)
Definition reads (e : event) : Prop := is_write e = false.

(** The keys of the dict under [k] in a report. *)
Definition section_keys (k : string) (report : list (string * pyval))
  : option (list string) :=
  match dict_get k report with
  | Some (PDict d) => Some (keys d)
  | _ => None
  end.

(** The value under [k2] of the dict under [k1] in a report. *)
Definition nested_get (k1 k2 : string) (report : list (string * pyval))
  : option pyval :=
  match dict_get k1 report with
  | Some (PDict d) => dict_get k2 d
  | _ => None
  end.

(** * Properties *)

(** ** Strings *)

Example strip_example : strip "  Users and roles  " = "Users and roles".
Proof. reflexivity. Qed.

Example replace_example :
  replace "/" "_" "admin_root/create-company" = "admin_root_create-company".
Proof. reflexivity. Qed.

Example page_name_example :
  map Comprehensive.page_name Comprehensive.admin_pages
  = [ "admin_root"; "admin_root_create-company"; "admin_root_users";
      "admin_root_audit-logs"; "admin_root_system-health";
      "admin_root_database-query" ].
Proof. reflexivity. Qed.

Example homepage_example :
  str_or (replace "/" "_"
            (replace "https://ellaai-platform-prod.web.app/" ""
                     "https://ellaai-platform-prod.web.app/"))
         "homepage"
  = "homepage".
Proof. reflexivity. Qed.

Example login_redirect_example :
  contains "login" (lower "https://ellaai-platform-prod.web.app/Login?next=/admin")
  = true.
Proof. reflexivity. Qed.

Example element_key_example :
  fst (Comprehensive.element_style 3
         {| ke_tagName := "BUTTON";
            ke_className := "MuiButton-root  MuiButton-text";
            ke_style := fun _ => "" |})
  = "button_MuiButton-root_MuiButton-text_3".
Proof. reflexivity. Qed.

(** ** Dicts *)

Section DictFacts.
Context {V : Type}.
Implicit Types (d : list (string * V)) (k : string) (v : V).

Lemma dict_set_fresh k v d :
  ~ In k (keys d) -> dict_set k v d = d ++ [(k, v)].
Proof.
  induction d as [|[k' v'] d IH]; simpl; intros Hk; [reflexivity|].
  destruct (String.eqb_spec k' k) as [->|Hne].
  - exfalso; apply Hk; now left.
  - rewrite IH; [reflexivity|]. intros Hin; apply Hk; now right.
Qed.

Lemma keys_dict_set_present k v d :
  In k (keys d) -> keys (dict_set k v d) = keys d.
Proof.
  induction d as [|[k' v'] d IH]; simpl; intros Hk; [contradiction|].
  destruct (String.eqb_spec k' k) as [->|Hne]; simpl; [reflexivity|].
  f_equal. apply IH. destruct Hk as [Hk|Hk]; [congruence|assumption].
Qed.

Lemma keys_dict_set_fresh k v d :
  ~ In k (keys d) -> keys (dict_set k v d) = keys d ++ [k].
Proof.
  intros Hk. rewrite dict_set_fresh by assumption.
  unfold keys. now rewrite map_app.
Qed.


Lemma dict_get_set_other k k' v d :
  k <> k' -> dict_get k' (dict_set k v d) = dict_get k' d.
Proof.
  intros Hne. induction d as [|[k0 v0] d IH]; simpl.
  - destruct (String.eqb_spec k k'); [contradiction|reflexivity].
  - destruct (String.eqb_spec k0 k) as [->|Hne0]; simpl.
    + destruct (String.eqb_spec k k'); [contradiction|reflexivity].
    + destruct (String.eqb_spec k0 k'); [reflexivity|assumption].
Qed.

Lemma dict_get_in_keys k d : In k (keys d) <-> dict_get k d <> None.
Proof.
  induction d as [|[k' v'] d IH]; simpl.
  - split; [contradiction|congruence].
  - destruct (String.eqb_spec k' k) as [->|Hne].
    + split; [congruence|now left].
    + rewrite <- IH. split; [intros [?|?]; [contradiction|assumption]|now right].
Qed.

Lemma NoDup_keys_dict_set k v d :
  NoDup (keys d) -> NoDup (keys (dict_set k v d)).
Proof.
  intros Hd. destruct (in_dec string_dec k (keys d)) as [Hin|Hnin].
  - now rewrite keys_dict_set_present.
  - rewrite keys_dict_set_fresh by assumption.
    apply NoDup_app; [assumption|repeat constructor; intros []|].
    intros x Hx [<-|[]]. contradiction.
Qed.

Lemma fold_dict_set_nodup (items acc : list (string * V)) :
  NoDup (keys acc) ->
  NoDup (keys (fold_left (fun d kv => dict_set (fst kv) (snd kv) d) items acc)).
Proof.
  revert acc. induction items as [|[k v] items IH]; simpl; intros acc Hacc.
  - assumption.
  - apply IH. now apply NoDup_keys_dict_set.
Qed.

Lemma NoDup_keys_dict_of_items (items : list (string * V)) :
  NoDup (keys (dict_of_items items)).
Proof. apply fold_dict_set_nodup. constructor. Qed.

Lemma fold_dict_set_fresh (items acc : list (string * V)) :
  NoDup (keys (acc ++ items)) ->
  fold_left (fun d kv => dict_set (fst kv) (snd kv) d) items acc = acc ++ items.
Proof.
  revert acc. induction items as [|[k v] items IH]; simpl; intros acc Hnd.
  - now rewrite app_nil_r.
  - assert (Hk : ~ In k (keys acc)).
    { unfold keys in *. rewrite map_app in Hnd. simpl in Hnd.
      apply NoDup_remove_2 in Hnd. intros Hin. apply Hnd.
      apply in_or_app. now left. }
    rewrite dict_set_fresh by assumption.
    rewrite IH; rewrite <- app_assoc; simpl; [reflexivity|assumption].
Qed.

Lemma in_dict_set k v d (kv : string * V) :
  In kv (dict_set k v d) -> kv = (k, v) \/ In kv d.
Proof.
  induction d as [|[k' v'] d IH]; simpl.
  - intros [<-|[]]. now left.
  - destruct (String.eqb_spec k' k) as [->|Hne]; simpl.
    + intros [<-|H]; [now left|right; now right].
    + intros [<-|H]; [right; now left|].
      destruct (IH H) as [?|?]; [now left|right; now right].
Qed.

Lemma in_fold_dict_set (items acc : list (string * V)) (kv : string * V) :
  In kv (fold_left (fun d kv => dict_set (fst kv) (snd kv) d) items acc) ->
  In kv acc \/ In kv items.
Proof.
  revert acc. induction items as [|[k v] items IH]; simpl; intros acc H.
  - now left.
  - destruct (IH _ H) as [H1|H1]; [|right; now right].
    apply in_dict_set in H1. destruct H1 as [->|H1]; [right; now left|now left].
Qed.

Lemma in_dict_of_items (items : list (string * V)) (kv : string * V) :
  In kv (dict_of_items items) -> In kv items.
Proof.
  intros H. apply in_fold_dict_set in H. destruct H as [[]|H]. exact H.
Qed.

Lemma dict_of_items_nodup (items : list (string * V)) :
  NoDup (keys items) -> dict_of_items items = items.
Proof. intros H. unfold dict_of_items. now rewrite fold_dict_set_fresh. Qed.

End DictFacts.

Lemma nodupb_NoDup (l : list string) : nodupb l = true <-> NoDup l.
Proof.
  induction l as [|x l IH]; simpl.
  - split; [constructor|reflexivity].
  - rewrite andb_true_iff, negb_true_iff, IH. split.
    + intros [Hx Hl]. constructor; [|assumption].
      intros Hin. assert (existsb (String.eqb x) l = true); [|congruence].
      apply existsb_exists. exists x. split; [assumption|apply String.eqb_refl].
    + intros Hnd. inversion Hnd as [|? ? Hx Hl]; subst. split; [|assumption].
      destruct (existsb (String.eqb x) l) eqn:E; [|reflexivity].
      apply existsb_exists in E. destruct E as [y [Hy Heq]].
      apply String.eqb_eq in Heq. subst. contradiction.
Qed.

(** ** JSON *)

(** Induction on a Python value, with the property known of the members of
    a list, a tuple or a dict. *)
Section PyvalInduction.
Variable P : pyval -> Prop.
Hypothesis HNone : P PNone.
Hypothesis HBool : forall b, P (PBool b).
Hypothesis HInt : forall z, P (PInt z).
Hypothesis HFloat : forall m, P (PFloat m).
Hypothesis HStr : forall s, P (PStr s).
Hypothesis HList : forall l, Forall P l -> P (PList l).
Hypothesis HTuple : forall l, Forall P l -> P (PTuple l).
Hypothesis HDict : forall d, Forall (fun kv => P (snd kv)) d -> P (PDict d).
Hypothesis HObj : forall r, P (PObj r).

Lemma pyval_nested_ind : forall v, P v.
Proof.
  fix IH 1. intros [| b | z | m | s | l | l | d | r].
  - exact HNone.
  - apply HBool.
  - apply HInt.
  - apply HFloat.
  - apply HStr.
  - apply HList. induction l as [|x l IHl]; constructor; [apply IH|exact IHl].
  - apply HTuple. induction l as [|x l IHl]; constructor; [apply IH|exact IHl].
  - apply HDict. induction d as [|kv d IHd]; constructor; [apply IH|exact IHd].
  - apply HObj.
Qed.

End PyvalInduction.

Section JsonInduction.
Variable P : json -> Prop.
Hypothesis HNull : P JNull.
Hypothesis HBool : forall b, P (JBool b).
Hypothesis HInt : forall z, P (JInt z).
Hypothesis HFloat : forall m, P (JFloat m).
Hypothesis HStr : forall s, P (JStr s).
Hypothesis HArr : forall l, Forall P l -> P (JArr l).
Hypothesis HObj : forall d, Forall (fun kv => P (snd kv)) d -> P (JObj d).

Lemma json_nested_ind : forall j, P j.
Proof.
  fix IH 1. intros [| b | z | m | s | l | d].
  - exact HNull.
  - apply HBool.
  - apply HInt.
  - apply HFloat.
  - apply HStr.
  - apply HArr. induction l as [|x l IHl]; constructor; [apply IH|exact IHl].
  - apply HObj. induction d as [|kv d IHd]; constructor; [apply IH|exact IHd].
Qed.

End JsonInduction.

(** A native value is read back as it was written. *)
Lemma json_load_dump_native (v : pyval) :
  json_native v = true -> json_load (json_dump_default_str v) = v.
Proof.
  induction v as [| | | | |l IH|l IH|d IH|] using pyval_nested_ind;
    simpl; intros Hn; try reflexivity; try discriminate.
  - f_equal. rewrite map_map.
    rewrite forallb_forall in Hn.
    rewrite <- (map_id l) at 2. apply map_ext_in.
    intros x Hx. rewrite Forall_forall in IH. apply IH; auto.
  - apply andb_true_iff in Hn. destruct Hn as [Hk Hv].
    f_equal. rewrite map_map. simpl.
    assert (Heq : map (fun x : string * pyval =>
                         (fst x, json_load (json_dump_default_str (snd x)))) d = d).
    { rewrite <- (map_id d) at 2. apply map_ext_in.
      intros [k x] Hx. simpl. f_equal.
      rewrite Forall_forall in IH. apply (IH (k, x) Hx).
      rewrite forallb_forall in Hv. apply (Hv (k, x) Hx). }
    rewrite Heq. apply dict_of_items_nodup. now apply nodupb_NoDup.
Qed.

(** Without [default], a native value is written as with it. *)
Lemma json_dump_native (v : pyval) :
  json_native v = true -> json_dump v = Ok (json_dump_default_str v).
Proof.
  induction v as [| | | | |l IH|l IH|d IH|] using pyval_nested_ind;
    simpl; intros Hn; try reflexivity; try discriminate.
  - assert (H : sequence_outcomes (map json_dump l)
                = Ok (map json_dump_default_str l)).
    { induction l as [|x l IHl]; simpl; [reflexivity|].
      simpl in Hn. apply andb_true_iff in Hn. destruct Hn as [Hx Hl].
      inversion IH as [|? ? IHx IHrest]; subst.
      rewrite (IHx Hx), (IHl IHrest Hl). reflexivity. }
    now rewrite H.
  - apply andb_true_iff in Hn. destruct Hn as [_ Hv].
    assert (H : sequence_outcomes
                  (map (fun kv => match json_dump (snd kv) with
                                  | Ok j => Ok (fst kv, j)
                                  | Raise m => Raise m
                                  end) d)
                = Ok (map (fun kv => (fst kv, json_dump_default_str (snd kv))) d)).
    { induction d as [|[k x] d IHd]; simpl; [reflexivity|].
      simpl in Hv. apply andb_true_iff in Hv. destruct Hv as [Hx Hd].
      inversion IH as [|? ? IHx IHrest]; subst. simpl in IHx.
      rewrite (IHx Hx), (IHd IHrest Hd). reflexivity. }
    now rewrite H.
Qed.

(** What [json.load] returns is native. *)
Lemma json_native_load (j : json) : json_native (json_load j) = true.
Proof.
  induction j as [| | | | |l IH|d IH] using json_nested_ind; simpl;
    try reflexivity.
  - rewrite forallb_forall. intros x Hx. apply in_map_iff in Hx.
    destruct Hx as [y [<- Hy]]. rewrite Forall_forall in IH. now apply IH.
  - apply andb_true_iff. split.
    + apply nodupb_NoDup. apply NoDup_keys_dict_of_items.
    + rewrite forallb_forall. intros [k x] Hx. simpl.
      apply in_dict_of_items in Hx. apply in_map_iff in Hx.
      destruct Hx as [[k' y] [Heq Hy]]. simpl in Heq.
      injection Heq as _ <-. rewrite Forall_forall in IH. apply (IH (k', y) Hy).
Qed.

(** ** The monad *)

Section EmitsFacts.
Context {S : Type} (P : event -> Prop).

Lemma emits_ret {A} (a : A) : emits P (@ret S A a).
Proof. intros w s t. exists []. simpl. now rewrite app_nil_r. Qed.

Lemma emits_raise {A} msg : emits P (@raise S A msg).
Proof. intros w s t. exists []. simpl. now rewrite app_nil_r. Qed.

Lemma emits_lift {A} (r : outcome A) : emits P (@lift S A r).
Proof. intros w s t. exists []. simpl. now rewrite app_nil_r. Qed.

Lemma emits_get : emits P (@get S).
Proof. intros w s t. exists []. simpl. now rewrite app_nil_r. Qed.

Lemma emits_modify f : emits P (@modify S f).
Proof. intros w s t. exists []. simpl. now rewrite app_nil_r. Qed.

Lemma emits_page_url : emits P (@page_url S).
Proof. intros w s t. exists []. simpl. now rewrite app_nil_r. Qed.

Lemma emits_observed_network : emits P (@Comprehensive.observed_network S).
Proof. intros w s t. exists []. simpl. now rewrite app_nil_r. Qed.

Lemma emits_call {A} ev (answer : world -> trace -> outcome A) :
  P ev -> emits P (@call S A ev answer).
Proof. intros H w s t. exists [ev]. simpl. split; [reflexivity|now constructor]. Qed.

Lemma emits_bind {A B} (m : M S A) (f : A -> M S B) :
  emits P m -> (forall a, emits P (f a)) -> emits P (bind m f).
Proof.
  intros Hm Hf w s t. unfold bind.
  destruct (Hm w s t) as [d [Hd HP]].
  destruct (m w s t) as [[[a|e] s'] t']; simpl in Hd; subst t'.
  - destruct (Hf a w s' (t ++ d)) as [d' [Hd' HP']].
    exists (d ++ d'). rewrite Hd', app_assoc. split; [reflexivity|].
    apply Forall_app. now split.
  - exists d. now split.
Qed.

Lemma emits_try_except {A} (m : M S A) (h : string -> M S A) :
  emits P m -> (forall e, emits P (h e)) -> emits P (try_except m h).
Proof.
  intros Hm Hh w s t. unfold try_except.
  destruct (Hm w s t) as [d [Hd HP]].
  destruct (m w s t) as [[[a|e] s'] t']; simpl in Hd; subst t'.
  - exists d. now split.
  - destruct (Hh e w s' (t ++ d)) as [d' [Hd' HP']].
    exists (d ++ d'). rewrite Hd', app_assoc. split; [reflexivity|].
    apply Forall_app. now split.
Qed.

Lemma emits_try_finally {A} (m : M S A) (f : M S unit) :
  emits P m -> emits P f -> emits P (try_finally m f).
Proof.
  intros Hm Hf w s t. unfold try_finally.
  destruct (Hm w s t) as [d [Hd HP]].
  destruct (m w s t) as [[r s'] t']; simpl in Hd; subst t'.
  destruct (Hf w s' (t ++ d)) as [d' [Hd' HP']].
  destruct (f w s' (t ++ d)) as [[[u|e] s''] t'']; simpl in Hd'; subst t'';
    exists (d ++ d'); rewrite app_assoc; (split; [reflexivity|]);
    apply Forall_app; now split.
Qed.

Lemma emits_for_each {A} (l : list A) (body : A -> M S unit) :
  (forall a, emits P (body a)) -> emits P (for_each l body).
Proof.
  intros Hb. induction l as [|a l IH]; simpl.
  - apply emits_ret.
  - apply emits_bind; [apply Hb|intros _; exact IH].
Qed.

Lemma emits_when c (m : M S unit) :
  emits P m -> emits P (AnalyzePlatform.when c m).
Proof. intros H. destruct c; simpl; [exact H|apply emits_ret]. Qed.

End EmitsFacts.

Lemma emits_with_local (P : event -> Prop) {S L A} (init : L) (m : M L A) :
  emits P m -> emits P (@with_local S L A init m).
Proof.
  intros Hm w s t. unfold with_local.
  destruct (Hm w init t) as [d [Hd HP]].
  destruct (m w init t) as [[[a|e] l] t']; simpl in Hd; subst t';
    exists d; now split.
Qed.

(** The store of the caller is untouched by a function that fills a local
    object. *)
Lemma with_local_store {S L A} (init : L) (m : M L A) w (s : S) t :
  store_of (with_local init m w s t) = s.
Proof.
  unfold with_local. destruct (m w init t) as [[[a|e] l] t']; reflexivity.
Qed.

(** One step of the proof that a script emits only calls of some kind. *)
Ltac emits_step :=
  match goal with
  | |- emits _ (ret _) => apply emits_ret
  | |- emits _ (raise _) => apply emits_raise
  | |- emits _ (lift _) => apply emits_lift
  | |- emits _ get => apply emits_get
  | |- emits _ (modify _) => apply emits_modify
  | |- emits _ page_url => apply emits_page_url
  | |- emits _ Comprehensive.observed_network => apply emits_observed_network
  | |- emits _ (call _ _) => apply emits_call
  | |- emits _ (bind _ _) => apply emits_bind; [|intros ?]
  | |- emits _ (try_except _ _) => apply emits_try_except; [|intros ?]
  | |- emits _ (try_finally _ _) => apply emits_try_finally
  | |- emits _ (for_each _ _) => apply emits_for_each; intros ?
  | |- emits _ (AnalyzePlatform.when _ _) => apply emits_when
  | |- emits _ (with_local _ _) => apply emits_with_local
  | |- emits _ (if ?c then _ else _) => destruct c
  | |- emits _ (match ?x with _ => _ end) => destruct x
  end.

(** The ends of a proof about one turn of a loop. *)
Ltac settle :=
  repeat split; try reflexivity; try discriminate;
  try (repeat constructor; fail); try (simpl; lia);
  try (left; reflexivity); try (right; reflexivity); auto.

(** ** Loops, turn by turn *)

(** A loop whose body always returns is the chain of its turns. *)
Lemma for_each_chain {S A} (turn : A -> S -> trace -> S -> trace -> Prop)
      (body : A -> M S unit) (w : world) :
  (forall a s t, exists s1 t1, body a w s t = (Ok tt, s1, t1) /\ turn a s t s1 t1) ->
  forall l s t,
    exists s' t',
      for_each l body w s t = (Ok tt, s', t') /\ chain turn l s t s' t'.
Proof.
  intros Hb l. induction l as [|a l IH]; intros s t; simpl.
  - exists s, t. split; [reflexivity|constructor].
  - unfold bind. destruct (Hb a s t) as (s1 & t1 & -> & Hturn).
    destruct (IH s1 t1) as (s' & t' & -> & Hchain).
    exists s', t'. split; [reflexivity|].
    econstructor; eassumption.
Qed.

Lemma chain_impl {S A} (turn turn' : A -> S -> trace -> S -> trace -> Prop) :
  (forall a s t s1 t1, turn a s t s1 t1 -> turn' a s t s1 t1) ->
  forall l s t s' t', chain turn l s t s' t' -> chain turn' l s t s' t'.
Proof.
  intros H l s t s' t' Hc. induction Hc; econstructor; eauto.
Qed.

Lemma gotos_app (t1 t2 : trace) : gotos (t1 ++ t2) = gotos t1 ++ gotos t2.
Proof. unfold gotos. apply flat_map_app. Qed.

Lemma gotos_stays (d : trace) : Forall stays d -> gotos d = [].
Proof.
  induction 1 as [|e d He _ IH]; [reflexivity|].
  simpl. rewrite IH. destruct e; try reflexivity. discriminate He.
Qed.

(** A navigation among those of some calls splits them. *)
Lemma gotos_split (u : string) (d : trace) :
  In u (gotos d) -> exists pre post, d = pre ++ EGoto u :: post.
Proof.
  induction d as [|e d IH]; simpl; [contradiction|].
  intros H. apply in_app_or in H. destruct H as [H|H].
  - destruct e; try contradiction. destruct H as [->|[]].
    exists [], d. reflexivity.
  - destruct (IH H) as (pre & post & ->). exists (e :: pre), post. reflexivity.
Qed.

(** A navigation found after calls that are not navigations comes after
    all of them. *)
Lemma goto_after_stays (rest d pre post : trace) (u : string) :
  Forall stays rest ->
  rest ++ d = pre ++ EGoto u :: post ->
  exists pre', pre = rest ++ pre' /\ d = pre' ++ EGoto u :: post.
Proof.
  intros Hrest. revert pre. induction Hrest as [|e rest He _ IH]; intros pre H.
  - exists pre. auto.
  - destruct pre as [|e' pre]; simpl in H.
    + injection H as -> _. discriminate He.
    + injection H as <- H. destruct (IH pre H) as (pre' & -> & ->).
      exists pre'. auto.
Qed.

(** The navigations of a chain of turns that each start with the
    navigation to their item and make no other: those to the items, in
    order. *)
Lemma chain_gotos {S A} (url : A -> string)
      (turn : A -> S -> trace -> S -> trace -> Prop) :
  (forall a s0 t0 s1 t1,
      turn a s0 t0 s1 t1 ->
      exists rest, t1 = t0 ++ EGoto (url a) :: rest /\ Forall stays rest) ->
  forall l s t s' t',
    chain turn l s t s' t' ->
    exists d, t' = t ++ d /\ gotos d = map url l.
Proof.
  intros Hturn l s t s' t' Hc.
  induction Hc as [s t|a l s t s1 t1 s' t' Ha _ IH].
  - exists []. now rewrite app_nil_r.
  - destruct (Hturn _ _ _ _ _ Ha) as (rest & -> & Hrest).
    destruct IH as (d & -> & Hd).
    exists (EGoto (url a) :: rest ++ d). split.
    + rewrite <- app_assoc. reflexivity.
    + simpl. rewrite gotos_app, (gotos_stays rest Hrest), Hd. reflexivity.
Qed.

Lemma filter_none {X} (f : X -> bool) (l : list X) :
  Forall (fun x => f x = false) l -> filter f l = [].
Proof.
  induction 1 as [|x l Hx _ IH]; [reflexivity|]. simpl. now rewrite Hx.
Qed.

(** A chain of turns that each start with the navigation to their URL,
    make no other, and append entries that bear that URL: the entries of
    a URL in the whole list are those of its turn, which starts at the
    calls made before its navigation. *)
Lemma chain_entries {S X} (proj : S -> list X) (key : X -> string)
      (P : string -> trace -> list X -> Prop) :
  forall l s t s' t',
    chain (fun u s0 t0 s1 t1 =>
             exists rest xs,
               t1 = t0 ++ EGoto u :: rest
               /\ Forall stays rest
               /\ proj s1 = proj s0 ++ xs
               /\ Forall (fun x => key x = u) xs
               /\ P u t0 xs) l s t s' t' ->
    NoDup l ->
    exists d xs,
      t' = t ++ d
      /\ gotos d = l
      /\ proj s' = proj s ++ xs
      /\ Forall (fun x => In (key x) l) xs
      /\ forall u pre post,
          d = pre ++ EGoto u :: post ->
          P u (t ++ pre) (filter (fun x => String.eqb (key x) u) xs).
Proof.
  intros l s t s' t' Hc.
  induction Hc as [s t|u l s t s1 t1 s' t' Hu _ IH]; intros Hnd.
  - exists [], []. rewrite !app_nil_r. repeat split; auto.
    intros u pre post H. destruct pre; discriminate H.
  - destruct Hu as (rest & xs & -> & Hrest & Hp & Hk & HP).
    inversion Hnd as [|? ? Hnotin Hnd']; subst.
    destruct (IH Hnd') as (d & ys & -> & Hg & Hp' & Hin & Hall).
    exists (EGoto u :: rest ++ d), (xs ++ ys).
    split; [rewrite <- app_assoc; reflexivity|].
    split; [simpl; now rewrite gotos_app, (gotos_stays rest Hrest), Hg|].
    split; [now rewrite Hp', Hp, app_assoc|].
    split.
    { apply Forall_app. split.
      - eapply Forall_impl; [|exact Hk]. intros x ->. now left.
      - eapply Forall_impl; [|exact Hin]. intros x Hx. now right. }
    intros v pre post Hd.
    assert (Hown : filter (fun x => String.eqb (key x) u) xs = xs).
    { clear - Hk. induction Hk as [|x xs Hx _ IHk]; [reflexivity|].
      simpl. rewrite Hx, String.eqb_refl. now f_equal. }
    assert (Hlater : filter (fun x => String.eqb (key x) u) ys = []).
    { clear - Hin Hnotin. induction Hin as [|y ys Hy _ IHy]; [reflexivity|].
      simpl. destruct (String.eqb_spec (key y) u) as [E|_]; [|exact IHy].
      exfalso. apply Hnotin. now rewrite <- E. }
    destruct pre as [|e pre]; simpl in Hd.
    + injection Hd as <- _. rewrite app_nil_r, filter_app, Hown, Hlater, app_nil_r.
      exact HP.
    + injection Hd as <- Hd.
      destruct (goto_after_stays rest d pre post v Hrest Hd) as (pre' & -> & Hd').
      assert (Hv : In v l).
      { rewrite <- Hg, Hd', gotos_app. apply in_or_app. right. now left. }
      assert (Hne : u <> v) by (intros ->; contradiction).
      assert (Hnone : filter (fun x => String.eqb (key x) v) xs = []).
      { clear - Hk Hne. induction Hk as [|x xs Hx _ IHk]; [reflexivity|].
        simpl. destruct (String.eqb_spec (key x) v); [congruence|exact IHk]. }
      rewrite filter_app, Hnone. simpl.
      replace (t ++ EGoto u :: rest ++ pre')
        with ((t ++ EGoto u :: rest) ++ pre')
        by (rewrite <- app_assoc; reflexivity).
      apply (Hall v pre' post). exact Hd'.
Qed.

(** ** Scripts without a handler *)

Section Unguarded.
Context {S : Type}.









End Unguarded.






(** ** The browser session *)

Ltac emits_in_session :=
  repeat emits_step; try (split; discriminate).

Lemma find_feature_in_session selectors :
  emits in_session (AnalyzeAdmin.find_feature selectors).
Proof.
  induction selectors as [|sel rest IH]; simpl.
  - apply emits_ret.
  - apply emits_bind.
    + unfold query_selector_all. emits_in_session.
    + intros [|]; [apply emits_ret|exact IH].
Qed.

Lemma visit_admin_in_session : emits in_session AnalyzeAdmin.visit_admin.
Proof.
  unfold AnalyzeAdmin.visit_admin,
    AnalyzeAdmin.analyze_page_structure, AnalyzeAdmin.analyze_navigation,
    AnalyzeAdmin.analyze_admin_features,
    goto, sleep, page_title, makedirs, screenshot, query_selector,
    query_selector_all.
  repeat emits_step; try (split; discriminate).
  apply find_feature_in_session.
Qed.

Lemma guarded_analysis_in_session :
  emits in_session AnalyzePlatform.guarded_analysis.
Proof.
  unfold AnalyzePlatform.guarded_analysis, AnalyzePlatform.analysis,
    AnalyzePlatform.collect, AnalyzePlatform.generate_report,
    AnalyzePlatform.analyze_login_page,
    AnalyzePlatform.analyze_main_application,
    AnalyzePlatform.main_application_analysis,
    AnalyzePlatform.check_url, AnalyzePlatform.probe_url,
    AnalyzePlatform.extract_navigation_items,
    AnalyzePlatform.extract_from_selector, AnalyzePlatform.add_nav_item,
    AnalyzePlatform.check_public_pages,
    AnalyzePlatform.public_pages_analysis, AnalyzePlatform.check_public_url,
    AnalyzePlatform.probe_public_url,
    goto, sleep, page_title, makedirs, screenshot, query_selector,
    query_selector_all, inner_text.
  emits_in_session.
Qed.

Lemma guarded_stages_in_session :
  emits in_session Comprehensive.guarded_stages.
Proof.
  unfold Comprehensive.guarded_stages, Comprehensive.stages,
    Comprehensive.collect, Comprehensive.generate_report,
    Comprehensive.analyze_main_application,
    Comprehensive.analyze_admin_interface, Comprehensive.analyze_admin_page,
    Comprehensive.probe_admin_page,
    Comprehensive.test_service_connectivity,
    Comprehensive.test_form_functionality,
    Comprehensive.take_screenshot, Comprehensive.extract_design_tokens,
    goto, sleep, page_title, makedirs, screenshot, query_selector,
    query_selector_all, inner_text, wait_for_timeout, evaluate, locator_count,
    click, now.
  emits_in_session.
Qed.

Lemma try_finally_close {S A} (m : M S A) :
  emits in_session m ->
  forall w s t,
    exists mid,
      trace_of (try_finally m close w s t) = t ++ mid ++ [EClose]
      /\ Forall in_session mid.
Proof.
  intros Hm w s t. unfold try_finally, close, call.
  destruct (Hm w s t) as [d [Hd HP]].
  destruct (m w s t) as [[r s'] t']. simpl in Hd. subst t'.
  exists d. split; [|exact HP].
  destruct (w_close w (t ++ d)); simpl; now rewrite app_assoc.
Qed.

Lemma scoped_session_intro {S A} (m : M S A) :
  emits in_session m ->
  scoped_session (launch ;; new_context ;; new_page ;; try_finally m close).
Proof.
  intros Hm w s t Hl Hc Hp.
  unfold bind, launch, new_context, new_page, call at 1 2 3.
  rewrite Hl, Hc. rewrite <- app_assoc. simpl. rewrite Hp.
  destruct (try_finally_close m Hm w s
              ((t ++ [ELaunch; ENewContext]) ++ [ENewPage])) as [mid [Hmid HP]].
  exists mid. rewrite Hmid. split; [|exact HP].
  rewrite <- !app_assoc. reflexivity.
Qed.

(** C7, as amended.  In the three scripts the browser is launched where
    the script starts and, once the browser, its context and its page
    have been obtained, [browser.close()] is the last call of the run,
    whatever raises in between: no other launch and no other closing
    occurs. *)
Theorem session_released :
  scoped_session Comprehensive.run_analysis
  /\ scoped_session AnalyzePlatform.analyze_platform
  /\ scoped_session AnalyzeAdmin.analyze_ellaai_admin.
Proof.
  split; [|split].
  - apply scoped_session_intro, guarded_stages_in_session.
  - apply scoped_session_intro, guarded_analysis_in_session.
  - apply scoped_session_intro, visit_admin_in_session.
Qed.

(** A run of the comprehensive script in the quiet world, where the three
    hypotheses of [scoped_session] hold. *)
Lemma session_released_witness :
  exists mid,
    trace_of (Comprehensive.run_analysis quiet_world [] [])
    = [] ++ [ELaunch; ENewContext; ENewPage] ++ mid ++ [EClose]
    /\ Forall in_session mid.
Proof.
  apply (proj1 session_released quiet_world [] []); reflexivity.
Defined.

(** C7, as stated, fails: the browser is launched, the opening of the
    context raises, and [browser.close()] is never called. *)
Lemma session_not_released :
  w_launch no_context_world [] = Ok tt
  /\ Comprehensive.run_analysis no_context_world [] []
     = (Raise "Target closed", [], [ELaunch; ENewContext])
  /\ closes (trace_of (Comprehensive.run_analysis no_context_world [] [])) = 0%nat.
Proof. repeat split. Qed.

(** ** Loops that fill a store *)

(** A loop whose body always returns and appends to a list of the store:
    the list ends up extended by one block of entries per item. *)
Lemma for_each_appends {S A X} (proj : S -> list X) (R : A -> list X -> Prop)
      (body : A -> M S unit) (w : world) :
  (forall a s t,
      exists s' t' xs,
        body a w s t = (Ok tt, s', t') /\ proj s' = proj s ++ xs /\ R a xs) ->
  forall l s t,
    exists s' t' xss,
      for_each l body w s t = (Ok tt, s', t')
      /\ proj s' = proj s ++ concat xss
      /\ Forall2 R l xss.
Proof.
  intros Hb l. induction l as [|a l IH]; intros s t; simpl.
  - exists s, t, []. simpl. rewrite app_nil_r. repeat split. constructor.
  - unfold bind. destruct (Hb a s t) as [s1 [t1 [xs [-> [Hp HR]]]]].
    destruct (IH s1 t1) as [s2 [t2 [xss [-> [Hp2 HF]]]]].
    exists s2, t2, (xs :: xss). simpl. rewrite Hp2, Hp, <- app_assoc.
    repeat split. now constructor.
Qed.

(** A loop whose body always returns and sets the entry of its item in a
    dict of the store. *)
Lemma for_each_sets {S A X} (upd : A -> X -> S -> S) (R : A -> X -> Prop)
      (body : A -> M S unit) (w : world) :
  (forall a s t,
      exists x t', body a w s t = (Ok tt, upd a x s, t') /\ R a x) ->
  forall l s t,
    exists xs t',
      for_each l body w s t
      = (Ok tt, fold_left (fun s ax => upd (fst ax) (snd ax) s) (combine l xs) s, t')
      /\ Forall2 R l xs.
Proof.
  intros Hb l. induction l as [|a l IH]; intros s t; simpl.
  - exists [], t. split; [reflexivity|constructor].
  - unfold bind. destruct (Hb a s t) as [x [t1 [-> HR]]].
    destruct (IH (upd a x s) t1) as [xs [t2 [-> HF]]].
    exists (x :: xs), t2. split; [reflexivity|now constructor].
Qed.

(** ** One probe *)

Lemma with_local_run {S L A} (init : L) (m : M L A) w (s : S) t :
  exists r t', with_local init m w s t = (r, s, t').
Proof.
  unfold with_local. destruct (m w init t) as [[[a|e] l] t']; eauto.
Qed.

Ltac finish :=
  repeat split; try reflexivity; auto;
  try (simpl; lia); try (constructor; auto; fail).

(** The result of a function that fills a local object. *)
Ltac local_call :=
  match goal with
  | |- context [with_local ?i ?m ?w ?s ?t] =>
      let r := fresh "r" in
      let t' := fresh "t" in
      destruct (with_local_run i m w s t) as [r [t' ->]]; cbv beta iota
  end.

(** The answer of the world to a call without argument. *)
Ltac world_call f :=
  match goal with
  | |- context [f ?w ?t] => destruct (f w t) eqn:?; cbv beta iota
  end.

(** The answer of the world to a call with one argument. *)
Ltac world_call1 f :=
  match goal with
  | |- context [f ?w ?t ?x] => destruct (f w t x) eqn:?; cbv beta iota
  end.

Section PlatformProbes.
Import AnalyzePlatform.

(** The loop over the elements of a selector makes no call. *)
Lemma elements_loop_silent els w items t :
  exists r items', for_each els add_nav_item w items t = (r, items', t).
Proof.
  revert items. induction els as [|el els IH]; intros items.
  - eexists _, _. reflexivity.
  - simpl. unfold bind at 1. unfold add_nav_item, lift, bind, when, modify, ret.
    destruct (el_inner_text el) as [raw|e]; [|eexists _, _; reflexivity].
    destruct (el_href el) as [href|e]; [|eexists _, _; reflexivity].
    destruct (truthy (strip raw) && (String.length (strip raw) <? 30)%nat);
      apply IH.
Qed.

(** One selector: the turn returns after its one query. *)
Lemma extract_from_selector_returns selector w items t :
  exists items',
    extract_from_selector selector w items t
    = (Ok tt, items', t ++ [EQuerySelectorAll selector]).
Proof.
  unfold extract_from_selector, try_except. unfold bind at 1.
  unfold query_selector_all, call.
  destruct (w_query_selector_all w t selector) as [elements|e];
    [|eexists; reflexivity].
  destruct (elements_loop_silent (firstn 10 elements) w items
              (t ++ [EQuerySelectorAll selector])) as (r & items' & ->).
  destruct r as [[]|e]; eexists; reflexivity.
Qed.

(** [extract_navigation_items] returns, after one query per selector. *)
Lemma extract_navigation_items_calls {S} w (s : S) t :
  exists items,
    extract_navigation_items w s t
    = (Ok items, s, t ++ map EQuerySelectorAll nav_selectors).
Proof.
  unfold extract_navigation_items, with_local, nav_selectors.
  cbn [for_each map]. unfold bind.
  repeat match goal with
         | |- context [extract_from_selector ?sel ?w ?i ?t] =>
             let H := fresh in
             destruct (extract_from_selector_returns sel w i t) as [? H];
             rewrite H; clear H; cbv beta iota
         end.
  unfold ret. rewrite <- !app_assoc. cbn [app]. eexists. reflexivity.
Qed.

(** One turn of the loop of [analyze_main_application]: what it calls,
    and what it appends to [accessible_pages]. *)
Lemma check_url_turn url w s t :
  exists s1 t1,
    main_turn w url s t s1 t1
    /\ exists rest xs,
        t1 = t ++ EGoto url :: rest
        /\ Forall stays rest
        /\ accessible_pages s1 = accessible_pages s ++ xs
        /\ Forall (fun p => ap_url p = url) xs
        /\ (List.length xs <= 1)%nat
        /\ (forall msg, w_goto w t url = Raise msg -> xs = [])
        /\ (contains "login" (lower (w_url w (t ++ [EGoto url; ESleep 1000]))) = true ->
            xs = [])
        /\ (forall title,
               is_ok (w_goto w t url) = true ->
               w_title w (t ++ [EGoto url; ESleep 1000]) = Ok title ->
               contains "login" (lower (w_url w (t ++ [EGoto url; ESleep 1000]))) = false ->
               xs = [ {| ap_url := url;
                         ap_final_url := w_url w (t ++ [EGoto url; ESleep 1000]);
                         ap_title := title |} ]).
Proof.
  unfold main_turn.
  unfold check_url, probe_url, goto, sleep, page_url, page_title,
    screenshot, try_except, bind, call, when, modify, ret.
  replace ((t ++ [EGoto url]) ++ [ESleep 1000]) with (t ++ [EGoto url; ESleep 1000])
    by (rewrite <- app_assoc; reflexivity).
  destruct (w_goto w t url) as [resp|e]; cbv beta iota.
  2:{ eexists _, _. split.
      - split; [reflexivity|]. exists [], []. rewrite app_nil_r. settle.
      - exists [], []. rewrite app_nil_r. settle. }
  destruct (w_title w _) as [title|e] eqn:Htitle; cbv beta iota.
  2:{ eexists _, _. split.
      - split; [reflexivity|]. exists [ESleep 1000; ETitle], [].
        rewrite app_nil_r, <- app_assoc. settle.
      - exists [ESleep 1000; ETitle], []. rewrite app_nil_r, <- app_assoc.
        settle. }
  destruct (contains "login" (lower (w_url w _))) eqn:Hlogin; cbv beta iota.
  { eexists _, _. split.
    - split; [reflexivity|]. exists [ESleep 1000; ETitle], [].
      rewrite app_nil_r, <- app_assoc. settle.
    - exists [ESleep 1000; ETitle], []. rewrite app_nil_r, <- app_assoc.
      settle. }
  change (negb false) with true. cbv beta iota.
  assert (Hq : Forall stays (map EQuerySelectorAll nav_selectors))
    by (repeat constructor).
  destruct (w_screenshot w _ _) as [[]|e] eqn:Hshot; cbv beta iota;
    rewrite <- !app_assoc in Hshot; cbn [app] in Hshot.
  2:{ eexists _, _. split.
      - split; [reflexivity|]. eexists [ESleep 1000; ETitle; EScreenshot _], [_].
        rewrite <- !app_assoc. cbn [app].
        split; [reflexivity|]. split; [repeat constructor|].
        split; [reflexivity|]. split; [reflexivity|].
        eexists _, []. split; [reflexivity|]. left.
        split; [reflexivity|]. now rewrite Hshot.
      - eexists [ESleep 1000; ETitle; EScreenshot _], [_].
        rewrite <- !app_assoc. cbn [app].
        split; [reflexivity|]. split; [repeat constructor|].
        split; [reflexivity|]. split; [repeat constructor|].
        split; [simpl; lia|]. split; [discriminate|]. split; [discriminate|].
        intros title' _ [= <-] _. reflexivity. }
  match goal with
  | |- context [extract_navigation_items w ?s0 ?t0] =>
      destruct (extract_navigation_items_calls w s0 t0) as [items Hitems];
      rewrite Hitems; cbv beta iota
  end.
  destruct items as [|n items]; cbv beta iota;
    (eexists _, _; split;
     [ split; [reflexivity|];
       eexists ([ESleep 1000; ETitle; EScreenshot _]
                  ++ map EQuerySelectorAll nav_selectors), [_];
       rewrite <- !app_assoc; cbn [app];
       split; [reflexivity|]; split; [repeat constructor|];
       split; [reflexivity|]; split; [reflexivity|];
       eexists _, _; split; [reflexivity|]; right;
       split; [reflexivity|]; now rewrite Hshot
     | eexists ([ESleep 1000; ETitle; EScreenshot _]
                  ++ map EQuerySelectorAll nav_selectors), [_];
       rewrite <- !app_assoc; cbn [app];
       split; [reflexivity|]; split; [repeat constructor|];
       split; [reflexivity|]; split; [repeat constructor|];
       split; [simpl; lia|]; split; [discriminate|]; split; [discriminate|];
       intros title' _ [= <-] _; reflexivity ]).
Qed.

(** One turn of the loop of [check_public_pages]: what it calls, and
    what it appends to [accessible_content]. *)
Lemma check_public_url_turn url w s t :
  exists s1 t1,
    public_turn w url s t s1 t1
    /\ exists rest xs,
        t1 = t ++ EGoto url :: rest
        /\ Forall stays rest
        /\ accessible_content s1 = accessible_content s ++ xs
        /\ Forall (fun c => content_url c = url) xs
        /\ (forall msg, w_goto w t url = Raise msg -> xs = [Inaccessible url msg])
        /\ (is_ok (w_goto w t url) = true ->
            contains "login" (lower (w_url w (t ++ [EGoto url]))) = true ->
            xs = [])
        /\ (forall title,
               is_ok (w_goto w t url) = true ->
               contains "login" (lower (w_url w (t ++ [EGoto url]))) = false ->
               w_title w (t ++ [EGoto url]) = Ok title ->
               is_ok (w_inner_text w (t ++ [EGoto url; ETitle]) "body") = true ->
               xs = [Accessible url title]).
Proof.
  unfold public_turn.
  unfold check_public_url, probe_public_url, goto, page_url, page_title,
    inner_text, try_except, bind, call, when, modify, ret.
  replace ((t ++ [EGoto url]) ++ [ETitle]) with (t ++ [EGoto url; ETitle])
    by (rewrite <- app_assoc; reflexivity).
  destruct (w_goto w t url) as [resp|e] eqn:Hgoto; cbv beta iota.
  2:{ eexists _, _. split.
      - split; [reflexivity|]. eexists [], [_]. split; [reflexivity|].
        split; [constructor|]. split; [reflexivity|].
        right. left. exists [], (EGoto url), e. rewrite app_nil_r. cbn [failure].
        rewrite Hgoto. settle.
      - eexists [], [_]. settle. intros msg [= ->]. reflexivity. }
  destruct (contains "login" (lower (w_url w _))) eqn:Hlogin.
  { change (negb true) with false. cbv beta iota.
    eexists _, _. split.
    - split; [reflexivity|]. exists [], []. rewrite app_nil_r. settle.
    - exists [], []. rewrite app_nil_r. settle. }
  change (negb false) with true. cbv beta iota.
  destruct (w_title w _) as [title|e] eqn:Htitle; cbv beta iota.
  2:{ eexists _, _. split.
      - split; [reflexivity|]. eexists [ETitle], [_]. rewrite <- app_assoc.
        split; [reflexivity|]. split; [repeat constructor|].
        split; [reflexivity|].
        right. left. exists [EGoto url], ETitle, e. cbn [failure].
        rewrite Htitle. settle.
      - eexists [ETitle], [_]. rewrite <- app_assoc. settle. }
  destruct (w_inner_text w _ _) as [body|e] eqn:Hbody; cbv beta iota;
    rewrite <- app_assoc in Hbody; cbn [app] in Hbody.
  - match goal with |- context [if ?c then _ else _] => destruct c end;
      cbv beta iota;
      (eexists _, _; split;
       [ split; [reflexivity|]; eexists [ETitle; EInnerText "body"], [_];
         rewrite <- !app_assoc; cbn [app];
         split; [reflexivity|]; split; [repeat constructor|];
         split; [reflexivity|];
         right; right; split; [reflexivity|]; eexists; reflexivity
       | eexists [ETitle; EInnerText "body"], [_];
         rewrite <- !app_assoc; cbn [app]; settle;
         intros title' _ _ [= <-] _; reflexivity ]).
  - eexists _, _. split.
    + split; [reflexivity|]. eexists [ETitle; EInnerText "body"], [_; _].
      rewrite <- !app_assoc. cbn [app].
      split; [reflexivity|]. split; [repeat constructor|].
      split; [cbn [add_content accessible_content];
              rewrite <- app_assoc; reflexivity|].
      right. left. exists [EGoto url; ETitle], (EInnerText "body"), e.
      cbn [failure]. rewrite Hbody. split; [reflexivity|]. split; [reflexivity|].
      right. eexists. reflexivity.
    + eexists [ETitle; EInnerText "body"], [_; _].
      rewrite <- !app_assoc. cbn [app].
      split; [reflexivity|]. split; [repeat constructor|].
      split; [cbn [add_content accessible_content];
              rewrite <- app_assoc; reflexivity|].
      settle. intros title' _ _ _ H. rewrite Hbody in H. discriminate H.
Qed.

(** One turn of the loop of [check_public_pages]: what it appends to
    [platform_insights]. *)
Lemma check_public_url_insight url w s t :
  exists s1 t1 rest ins,
    check_public_url url w s t = (Ok tt, s1, t1)
    /\ t1 = t ++ EGoto url :: rest
    /\ Forall stays rest
    /\ platform_insights s1 = platform_insights s ++ ins
    /\ Forall (fun u => u = url) ins
    /\ (ins = [] \/ ins = [url])
    /\ (ins = [url] <->
        exists body,
          is_ok (w_goto w t url) = true
          /\ contains "login" (lower (w_url w (t ++ [EGoto url]))) = false
          /\ is_ok (w_title w (t ++ [EGoto url])) = true
          /\ w_inner_text w (t ++ [EGoto url; ETitle]) "body" = Ok body
          /\ mentions_admin body = true).
Proof.
  unfold check_public_url, probe_public_url, goto, page_url, page_title,
    inner_text, try_except, bind, call, when, modify, ret.
  replace ((t ++ [EGoto url]) ++ [ETitle]) with (t ++ [EGoto url; ETitle])
    by (rewrite <- app_assoc; reflexivity).
  destruct (w_goto w t url) as [resp|e] eqn:Hgoto; cbv beta iota.
  2:{ eexists _, _, [], []. rewrite app_nil_r. settle.
      intros (body & H & _). discriminate H. }
  destruct (contains "login" (lower (w_url w _))) eqn:Hlogin.
  { change (negb true) with false. cbv beta iota.
    eexists _, _, [], []. rewrite app_nil_r. settle.
    intros (body & _ & H & _). discriminate H. }
  change (negb false) with true. cbv beta iota.
  destruct (w_title w _) as [title|e] eqn:Htitle; cbv beta iota.
  2:{ eexists _, _, [ETitle], []. rewrite app_nil_r, <- app_assoc. settle.
      intros (body & _ & _ & H & _). discriminate H. }
  destruct (w_inner_text w _ _) as [body|e] eqn:Hbody; cbv beta iota;
    rewrite <- app_assoc in Hbody; cbn [app] in Hbody.
  2:{ eexists _, _, [ETitle; EInnerText "body"], [].
      rewrite app_nil_r, <- !app_assoc. cbn [app]. settle.
      intros (body & _ & _ & _ & H & _). rewrite Hbody in H. discriminate H. }
  change (contains "admin" (lower (String.substring 0 1000 body))
          || contains "manage" (lower (String.substring 0 1000 body)))
    with (mentions_admin body).
  destruct (mentions_admin body) eqn:Hm; cbv beta iota.
  - eexists _, _, [ETitle; EInnerText "body"], [url].
    rewrite <- !app_assoc. cbn [app]. settle.
    intros _. exists body. settle.
  - eexists _, _, [ETitle; EInnerText "body"], [].
    rewrite app_nil_r, <- !app_assoc. cbn [app]. settle.
    intros (body' & _ & _ & _ & H' & H). rewrite Hbody in H'.
    injection H' as <-. congruence.
Qed.

End PlatformProbes.

Section AdminProbes.
Import Comprehensive.

Lemma wf_design_tokens_script d : wf_tokens (design_tokens_script d).
Proof.
  unfold wf_tokens, design_tokens_script. cbn [cssVariables elementStyles].
  split; [apply NoDup_keys_dict_of_items|].
  split; [apply NoDup_keys_dict_of_items|].
  apply Forall_forall. intros [k v] Hin. cbn [snd].
  apply in_dict_of_items in Hin.
  assert (H : forall n l, In (k, v) (element_styles_from n l) ->
                          json_native v = true).
  { clear. intros n l. revert n.
    induction l as [|el l IH]; intros n; simpl; [contradiction|].
    intros [Heq|Hin]; [|now apply (IH (S n))].
    unfold element_style in Heq. injection Heq as _ <-. reflexivity. }
  exact (H _ _ Hin).
Qed.

(** The form test returns, and its first call counts the required
    fields. *)
Lemma test_form_functionality_calls {S} w (s : S) t :
  exists f more,
    test_form_functionality w s t
    = (Ok f, s,
       t ++ ELocatorCount "input[required], select[required], textarea[required]"
         :: more)
    /\ Forall stays more.
Proof.
  unfold test_form_functionality, with_local, try_except, locator_count,
    click, wait_for_timeout, bind, call, AnalyzePlatform.when, modify, ret.
  destruct (w_locator_count w t _) as [n|e]; cbv beta iota.
  2:{ eexists _, []. split; [reflexivity|constructor]. }
  destruct (w_locator_count w _ submit_selector) as [k|e]; cbv beta iota.
  2:{ eexists _, [_]. rewrite <- app_assoc. split; [reflexivity|repeat constructor]. }
  destruct (0 <? k)%nat; cbv beta iota.
  2:{ eexists _, [_]. rewrite <- app_assoc. split; [reflexivity|repeat constructor]. }
  destruct (w_click w _ _) as [[]|e]; cbv beta iota.
  2:{ eexists _, [_; _]. rewrite <- !app_assoc. split; [reflexivity|repeat constructor]. }
  destruct (w_wait_for_timeout w _) as [[]|e]; cbv beta iota.
  2:{ eexists _, [_; _; _]. rewrite <- !app_assoc.
      split; [reflexivity|repeat constructor]. }
  destruct (w_locator_count w _ _) as [v|e]; cbv beta iota;
    eexists _, [_; _; _; _]; rewrite <- !app_assoc;
    (split; [reflexivity|repeat constructor]).
Qed.

(** The end of the proof for a turn stopped by the exception of the call
    [ev] made after [pre]. *)
Ltac stopped H rest pre ev :=
  rewrite <- ?app_assoc in H; cbn [app] in H;
  eexists (Failed _), _; split;
  [ split; [reflexivity|];
    eexists (Failed _), rest;
    split; [rewrite <- ?app_assoc; reflexivity|];
    split; [repeat constructor|];
    split; [reflexivity|];
    exists pre, ev; split; [reflexivity|];
    cbn [failure]; rewrite H; reflexivity
  | split; [exact I|reflexivity] ].

(** One turn of the loop of [analyze_admin_interface]: what it calls,
    and the entry it sets. *)
Lemma analyze_admin_page_turn path w s t :
  let url := (base_url ++ path)%string in
  let shot :=
    path_join screenshots_dir
      ("admin_" ++ page_name path ++ "_"
       ++ dt_stamp (w_now w (t ++ [EGoto url; EWaitForTimeout 2000])%list)
       ++ ".png")%string in
  let analysed :=
    t ++ [ EGoto url; EWaitForTimeout 2000; ENow; EScreenshot shot;
           ELocatorCount "text=404, text=Not Found, text=Page not found" ] in
  exists e t1,
    admin_turn w path s t (set_page path e s) t1
    /\ wf_entry e
    /\ match e with
       | Probed r =>
           probe_admin_page path w s t = (Ok tt, set_page path e s, t1)
           /\ screenshot_path r = shot
           /\ (forall st, w_goto w t url = Ok (Some st) ->
                          status_code r = st
                          /\ ((400 <= st)%Z -> is_error r = true))
           /\ exists d,
               w_document w analysed = Ok d
               /\ pr_page_analysis r = page_analysis_script d
       | Failed msg => probe_admin_page path w s t = (Raise msg, s, t1)
       end.
Proof.
  intros url shot analysed.
  remember (w_document w analysed) as answer eqn:Hanswer.
  unfold admin_turn.
  unfold analyze_admin_page, probe_admin_page, take_screenshot,
    extract_design_tokens,
    goto, wait_for_timeout, locator_count, evaluate, screenshot, now,
    try_except, bind, call, modify, ret.
  cbv beta iota zeta. fold url.
  destruct (w_goto w t url) as [resp|e] eqn:Hgoto; cbv beta iota.
  2:{ eexists (Failed _), _. split; [|split; [exact I|reflexivity]].
      split; [reflexivity|]. eexists (Failed _), [].
      split; [reflexivity|]. split; [constructor|]. split; [reflexivity|].
      exists [], (EGoto url). rewrite app_nil_r. cbn [failure]. rewrite Hgoto.
      split; reflexivity. }
  destruct (w_wait_for_timeout w _) as [[]|e] eqn:Hwait; cbv beta iota.
  2:{ stopped Hwait [EWaitForTimeout 2000] [EGoto url] (EWaitForTimeout 2000). }
  destruct (w_screenshot w _ _) as [[]|e] eqn:Hshot; cbv beta iota.
  2:{ rewrite <- ?app_assoc in Hshot; cbn [app] in Hshot.
      eexists (Failed _), _. split; [|split; [exact I|reflexivity]].
      split; [reflexivity|].
      eexists (Failed _), [EWaitForTimeout 2000; ENow; EScreenshot _].
      split; [rewrite <- ?app_assoc; reflexivity|].
      split; [repeat constructor|]. split; [reflexivity|].
      eexists [EGoto url; EWaitForTimeout 2000; ENow], (EScreenshot _).
      split; [reflexivity|]. cbn [failure]. rewrite <- ?app_assoc. cbn [app].
      rewrite Hshot. reflexivity. }
  destruct (w_locator_count w _ _) as [n404|e] eqn:Hcount; cbv beta iota.
  2:{ rewrite <- ?app_assoc in Hcount; cbn [app] in Hcount.
      eexists (Failed _), _. split; [|split; [exact I|reflexivity]].
      split; [reflexivity|].
      eexists (Failed _), [EWaitForTimeout 2000; ENow; EScreenshot _; ELocatorCount _].
      split; [rewrite <- ?app_assoc; reflexivity|].
      split; [repeat constructor|]. split; [reflexivity|].
      eexists [EGoto url; EWaitForTimeout 2000; ENow; EScreenshot _], (ELocatorCount _).
      split; [reflexivity|]. cbn [failure]. rewrite <- ?app_assoc. cbn [app]. rewrite Hcount. reflexivity. }
  match goal with
  | |- context [w_document w ?x] =>
      destruct (w_document w x) as [d|e] eqn:Hdoc; cbv beta iota
  end.
  2:{ rewrite <- ?app_assoc in Hdoc; cbn [app] in Hdoc.
      eexists (Failed _), _. split; [|split; [exact I|reflexivity]].
      split; [reflexivity|].
      eexists (Failed _), [EWaitForTimeout 2000; ENow; EScreenshot _; ELocatorCount _;
                           EEvaluate "page_analysis"].
      split; [rewrite <- ?app_assoc; reflexivity|].
      split; [repeat constructor|]. split; [reflexivity|].
      eexists [EGoto url; EWaitForTimeout 2000; ENow; EScreenshot _; ELocatorCount _],
        (EEvaluate "page_analysis").
      split; [reflexivity|]. cbn [failure]. rewrite <- ?app_assoc. cbn [app]. rewrite Hdoc. reflexivity. }
  rewrite <- ?app_assoc in Hdoc; cbn [app] in Hdoc.
  assert (Hst : forall st : Z,
             Ok resp = Ok (Some st) ->
             match resp with Some st0 => st0 | None => 0%Z end = st
             /\ ((400 <= st)%Z ->
                 (400 <=? match resp with Some st0 => st0 | None => 0%Z end)%Z
                 || (0 <? n404)%nat = true)).
  { intros st [= ->]. split; [reflexivity|]. intros H.
    apply Z.leb_le in H. now rewrite H. }
  destruct (hasForm (page_analysis_script d)) eqn:Hform; cbv beta iota.
  - match goal with
    | |- context [test_form_functionality w ?s0 ?t0] =>
        destruct (test_form_functionality_calls w s0 t0) as (f & more & Hf & Hmore);
        rewrite Hf; cbv beta iota
    end.
    match goal with
    | |- context [w_document w ?x] =>
        destruct (w_document w x) as [d2|e] eqn:Htok; cbv beta iota
    end.
    + rewrite <- ?app_assoc. cbn [app]. eexists (Probed _), _. split.
      * split; [reflexivity|]. eexists (Probed _), _.
        split; [rewrite <- ?app_assoc; cbn [app]; reflexivity|].
        split.
        { repeat (constructor; [reflexivity|]).
          apply Forall_app. split; [exact Hmore|repeat constructor]. }
        split; [reflexivity|].
        cbn [screenshot_path pr_page_analysis]. rewrite Hform.
        eexists (_ :: more). split; [reflexivity|]. eexists. reflexivity.
      * split; [apply wf_design_tokens_script|].
        cbn [screenshot_path status_code is_error pr_page_analysis].
        rewrite <- ?app_assoc. cbn [app].
        split; [reflexivity|]. split; [reflexivity|]. split; [exact Hst|].
        exists d. split; [|reflexivity]. rewrite Hanswer. exact Hdoc.
    + rewrite <- ?app_assoc in Htok; cbn [app] in Htok.
      rewrite <- ?app_assoc. cbn [app].
      eexists (Failed _), _. split; [|split; [exact I|reflexivity]].
      split; [reflexivity|].
      eexists (Failed _), _.
      split; [rewrite <- ?app_assoc; cbn [app]; reflexivity|].
      split.
      { repeat (constructor; [reflexivity|]).
        apply Forall_app. split; [exact Hmore|repeat constructor]. }
      split; [reflexivity|].
      eexists (EGoto url :: EWaitForTimeout 2000 :: ENow :: EScreenshot _
                 :: ELocatorCount _ :: EEvaluate "page_analysis"
                 :: ELocatorCount _ :: more), (EEvaluate "design_tokens").
      split; [reflexivity|]. cbn [failure]. rewrite <- ?app_assoc. cbn [app]. rewrite Htok. reflexivity.
  - match goal with
    | |- context [w_document w ?x] =>
        destruct (w_document w x) as [d2|e] eqn:Htok; cbv beta iota
    end.
    + rewrite <- ?app_assoc. cbn [app]. eexists (Probed _), _. split.
      * split; [reflexivity|]. eexists (Probed _), _.
        split; [rewrite <- ?app_assoc; cbn [app]; reflexivity|].
        split; [repeat constructor|].
        split; [reflexivity|].
        cbn [screenshot_path pr_page_analysis]. rewrite Hform.
        exists []. split; reflexivity.
      * split; [apply wf_design_tokens_script|].
        cbn [screenshot_path status_code is_error pr_page_analysis].
        rewrite <- ?app_assoc. cbn [app].
        split; [reflexivity|]. split; [reflexivity|]. split; [exact Hst|].
        exists d. split; [|reflexivity]. rewrite Hanswer. exact Hdoc.
    + rewrite <- ?app_assoc in Htok; cbn [app] in Htok.
      rewrite <- ?app_assoc. cbn [app].
      eexists (Failed _), _. split; [|split; [exact I|reflexivity]].
      split; [reflexivity|].
      eexists (Failed _), [EWaitForTimeout 2000; ENow; EScreenshot _; ELocatorCount _;
                           EEvaluate "page_analysis"; EEvaluate "design_tokens"].
      split; [rewrite <- ?app_assoc; cbn [app]; reflexivity|].
      split; [repeat constructor|]. split; [reflexivity|].
      eexists [EGoto url; EWaitForTimeout 2000; ENow; EScreenshot _; ELocatorCount _;
               EEvaluate "page_analysis"], (EEvaluate "design_tokens").
      split; [reflexivity|]. cbn [failure]. rewrite <- ?app_assoc. cbn [app]. rewrite Htok. reflexivity.
Qed.

End AdminProbes.

(** ** One entry per target *)

Ltac invert_Forall2 :=
  repeat match goal with
         | H : Forall2 _ (_ :: _) _ |- _ => inversion H; subst; clear H
         | H : Forall2 _ [] _ |- _ => inversion H; subst; clear H
         end.

Lemma NoDup_admin_pages : NoDup Comprehensive.admin_pages.
Proof. apply nodupb_NoDup. reflexivity. Qed.

Lemma NoDup_urls_to_check : NoDup AnalyzePlatform.urls_to_check.
Proof. apply nodupb_NoDup. reflexivity. Qed.

Lemma NoDup_public_urls : NoDup AnalyzePlatform.public_urls.
Proof. apply nodupb_NoDup. reflexivity. Qed.

(** The admin loop returns, with one entry per page of the enumeration,
    and the design tokens of every entry are as the script builds
    them. *)
Lemma admin_pages_filled {S} (w : world) (s : S) (t : trace) :
  exists a t',
    Comprehensive.analyze_admin_interface w s t = (Ok a, s, t')
    /\ keys (Comprehensive.pages a) = Comprehensive.admin_pages
    /\ Forall (fun kv => wf_entry (snd kv)) (Comprehensive.pages a).
Proof.
  unfold Comprehensive.analyze_admin_interface, with_local.
  destruct (for_each_sets
              Comprehensive.set_page
              (fun (_ : string) e => wf_entry e)
              Comprehensive.analyze_admin_page w) with
    (l := Comprehensive.admin_pages) (s := {| Comprehensive.pages := [] |})
    (t := t) as [xs [t' [-> HF]]].
  { intros path s0 t0.
    destruct (analyze_admin_page_turn path w s0 t0) as (e & t1 & Hturn & Hwf & _).
    exists e, t1. split; [apply Hturn|exact Hwf]. }
  eexists _, _. split; [reflexivity|].
  unfold Comprehensive.admin_pages in HF. invert_Forall2.
  match goal with
  | |- context [fold_left ?f (combine ?l ?xs) ?s0] =>
      let v := eval vm_compute in (fold_left f (combine l xs) s0) in
      change (fold_left f (combine l xs) s0) with v
  end.
  cbn [Comprehensive.pages].
  split; [reflexivity|]. repeat constructor; assumption.
Qed.

Section Loops.
Import AnalyzePlatform.

(** The loop of [analyze_main_application], turn by turn. *)
Lemma main_loop_turns w s t :
  exists s' t',
    for_each urls_to_check check_url w s t = (Ok tt, s', t')
    /\ chain (main_turn w) urls_to_check s t s' t'
    /\ exists d xs,
        t' = t ++ d
        /\ gotos d = urls_to_check
        /\ accessible_pages s' = accessible_pages s ++ xs
        /\ Forall (fun p => In (ap_url p) urls_to_check) xs
        /\ forall url pre post,
            d = pre ++ EGoto url :: post ->
            let own := filter (fun p => String.eqb (ap_url p) url) xs in
            let shown := (t ++ pre) ++ [EGoto url; ESleep 1000] in
            (List.length own <= 1)%nat
            /\ (forall msg, w_goto w (t ++ pre) url = Raise msg -> own = [])
            /\ (contains "login" (lower (w_url w shown)) = true -> own = [])
            /\ (forall title,
                   is_ok (w_goto w (t ++ pre) url) = true ->
                   w_title w shown = Ok title ->
                   contains "login" (lower (w_url w shown)) = false ->
                   own = [ {| ap_url := url; ap_final_url := w_url w shown;
                              ap_title := title |} ]).
Proof.
  destruct (for_each_chain
              (fun url s0 t0 s1 t1 =>
                 main_turn w url s0 t0 s1 t1
                 /\ exists rest xs,
                     t1 = t0 ++ EGoto url :: rest
                     /\ Forall stays rest
                     /\ accessible_pages s1 = accessible_pages s0 ++ xs
                     /\ Forall (fun p => ap_url p = url) xs
                     /\ (List.length xs <= 1)%nat
                     /\ (forall msg, w_goto w t0 url = Raise msg -> xs = [])
                     /\ (contains "login"
                           (lower (w_url w (t0 ++ [EGoto url; ESleep 1000]))) = true ->
                         xs = [])
                     /\ (forall title,
                            is_ok (w_goto w t0 url) = true ->
                            w_title w (t0 ++ [EGoto url; ESleep 1000]) = Ok title ->
                            contains "login"
                              (lower (w_url w (t0 ++ [EGoto url; ESleep 1000]))) = false ->
                            xs = [ {| ap_url := url;
                                      ap_final_url :=
                                        w_url w (t0 ++ [EGoto url; ESleep 1000]);
                                      ap_title := title |} ]))
              check_url w) with (l := urls_to_check) (s := s) (t := t)
    as (s' & t' & Heq & Hchain).
  { intros url s0 t0. destruct (check_url_turn url w s0 t0) as (s1 & t1 & Hturn & H).
    exists s1, t1. split; [apply Hturn|]. split; [exact Hturn|exact H]. }
  exists s', t'. split; [exact Heq|]. split.
  - revert Hchain. apply chain_impl. intros a s0 t0 s1 t1 [H _]. exact H.
  - apply (chain_entries accessible_pages ap_url
             (fun url t0 xs =>
                (List.length xs <= 1)%nat
                /\ (forall msg, w_goto w t0 url = Raise msg -> xs = [])
                /\ (contains "login"
                      (lower (w_url w (t0 ++ [EGoto url; ESleep 1000]))) = true ->
                    xs = [])
                /\ (forall title,
                       is_ok (w_goto w t0 url) = true ->
                       w_title w (t0 ++ [EGoto url; ESleep 1000]) = Ok title ->
                       contains "login"
                         (lower (w_url w (t0 ++ [EGoto url; ESleep 1000]))) = false ->
                       xs = [ {| ap_url := url;
                                 ap_final_url :=
                                   w_url w (t0 ++ [EGoto url; ESleep 1000]);
                                 ap_title := title |} ]))
             urls_to_check s t s' t'); [|apply NoDup_urls_to_check].
    revert Hchain. apply chain_impl. intros a s0 t0 s1 t1 [_ H]. exact H.
Qed.

(** The loop of [check_public_pages], turn by turn. *)
Lemma public_loop_turns w s t :
  exists s' t',
    for_each public_urls check_public_url w s t = (Ok tt, s', t')
    /\ chain (public_turn w) public_urls s t s' t'
    /\ exists d xs,
        t' = t ++ d
        /\ gotos d = public_urls
        /\ accessible_content s' = accessible_content s ++ xs
        /\ Forall (fun c => In (content_url c) public_urls) xs
        /\ forall url pre post,
            d = pre ++ EGoto url :: post ->
            let own := filter (fun c => String.eqb (content_url c) url) xs in
            (forall msg, w_goto w (t ++ pre) url = Raise msg ->
                         own = [Inaccessible url msg])
            /\ (is_ok (w_goto w (t ++ pre) url) = true ->
                contains "login" (lower (w_url w ((t ++ pre) ++ [EGoto url]))) = true ->
                own = [])
            /\ (forall title,
                   is_ok (w_goto w (t ++ pre) url) = true ->
                   contains "login" (lower (w_url w ((t ++ pre) ++ [EGoto url]))) = false ->
                   w_title w ((t ++ pre) ++ [EGoto url]) = Ok title ->
                   is_ok (w_inner_text w ((t ++ pre) ++ [EGoto url; ETitle]) "body") = true ->
                   own = [Accessible url title]).
Proof.
  destruct (for_each_chain
              (fun url s0 t0 s1 t1 =>
                 public_turn w url s0 t0 s1 t1
                 /\ exists rest xs,
                     t1 = t0 ++ EGoto url :: rest
                     /\ Forall stays rest
                     /\ accessible_content s1 = accessible_content s0 ++ xs
                     /\ Forall (fun c => content_url c = url) xs
                     /\ (forall msg, w_goto w t0 url = Raise msg ->
                                     xs = [Inaccessible url msg])
                     /\ (is_ok (w_goto w t0 url) = true ->
                         contains "login" (lower (w_url w (t0 ++ [EGoto url]))) = true ->
                         xs = [])
                     /\ (forall title,
                            is_ok (w_goto w t0 url) = true ->
                            contains "login" (lower (w_url w (t0 ++ [EGoto url]))) = false ->
                            w_title w (t0 ++ [EGoto url]) = Ok title ->
                            is_ok (w_inner_text w (t0 ++ [EGoto url; ETitle]) "body") = true ->
                            xs = [Accessible url title]))
              check_public_url w) with (l := public_urls) (s := s) (t := t)
    as (s' & t' & Heq & Hchain).
  { intros url s0 t0.
    destruct (check_public_url_turn url w s0 t0) as (s1 & t1 & Hturn & H).
    exists s1, t1. split; [apply Hturn|]. split; [exact Hturn|exact H]. }
  exists s', t'. split; [exact Heq|]. split.
  - revert Hchain. apply chain_impl. intros a s0 t0 s1 t1 [H _]. exact H.
  - apply (chain_entries accessible_content content_url
             (fun url t0 xs =>
                (forall msg, w_goto w t0 url = Raise msg ->
                             xs = [Inaccessible url msg])
                /\ (is_ok (w_goto w t0 url) = true ->
                    contains "login" (lower (w_url w (t0 ++ [EGoto url]))) = true ->
                    xs = [])
                /\ (forall title,
                       is_ok (w_goto w t0 url) = true ->
                       contains "login" (lower (w_url w (t0 ++ [EGoto url]))) = false ->
                       w_title w (t0 ++ [EGoto url]) = Ok title ->
                       is_ok (w_inner_text w (t0 ++ [EGoto url; ETitle]) "body") = true ->
                       xs = [Accessible url title]))
             public_urls s t s' t'); [|apply NoDup_public_urls].
    revert Hchain. apply chain_impl. intros a s0 t0 s1 t1 [_ H]. exact H.
Qed.

End Loops.

(** C1, as amended.  After the admin loop of the comprehensive script,
    [pages] has exactly one entry for each admin page of the
    enumeration, whether its probe failed or not.  The main-application
    loop of the platform script navigates to each URL of its enumeration
    once, in order, and [accessible_pages] has at most one entry for
    each URL: none when the navigation to it raised, none when the URL
    read after that navigation contains [login], and otherwise, if the
    title is read, the one entry of the URL, with that final URL and
    that title.  The public-pages loop navigates likewise, and
    [accessible_content] has for a URL exactly one entry, that of the
    failure, when the navigation to it raised; none when the navigation
    returned and the URL read after it contains [login]; and the one
    entry of the page when the title and the body are read.  The
    navigation and the readings are those of the turn of the URL in this
    run: [pre] are the calls the loop made before it navigated to the
    URL. *)
Theorem one_entry_per_target :
  (forall (S : Type) (w : world) (s : S) (t : trace),
      exists a t',
        Comprehensive.analyze_admin_interface w s t = (Ok a, s, t')
        /\ keys (Comprehensive.pages a) = Comprehensive.admin_pages
        /\ forall path,
            count_occ string_dec (keys (Comprehensive.pages a)) path
            = count_occ string_dec Comprehensive.admin_pages path)
  /\ (forall (S : Type) (w : world) (s : S) (t : trace),
         exists a d,
           AnalyzePlatform.main_application_analysis w s t = (Ok a, s, t ++ d)
           /\ gotos d = AnalyzePlatform.urls_to_check
           /\ (forall url, (List.length (pages_for url a) <= 1)%nat)
           /\ forall url pre post,
               d = pre ++ EGoto url :: post ->
               let shown := t ++ pre ++ [EGoto url; ESleep 1000] in
               (forall msg, w_goto w (t ++ pre) url = Raise msg ->
                            pages_for url a = [])
               /\ (contains "login" (lower (w_url w shown)) = true ->
                   pages_for url a = [])
               /\ (forall title,
                      is_ok (w_goto w (t ++ pre) url) = true ->
                      w_title w shown = Ok title ->
                      contains "login" (lower (w_url w shown)) = false ->
                      pages_for url a
                      = [ {| AnalyzePlatform.ap_url := url;
                             AnalyzePlatform.ap_final_url := w_url w shown;
                             AnalyzePlatform.ap_title := title |} ]))
  /\ (forall (S : Type) (w : world) (s : S) (t : trace),
         exists a d,
           AnalyzePlatform.public_pages_analysis w s t = (Ok a, s, t ++ d)
           /\ gotos d = AnalyzePlatform.public_urls
           /\ forall url pre post,
               d = pre ++ EGoto url :: post ->
               let shown := t ++ pre ++ [EGoto url] in
               (forall msg, w_goto w (t ++ pre) url = Raise msg ->
                            content_for url a
                            = [AnalyzePlatform.Inaccessible url msg])
               /\ (is_ok (w_goto w (t ++ pre) url) = true ->
                   contains "login" (lower (w_url w shown)) = true ->
                   content_for url a = [])
               /\ (forall title,
                      is_ok (w_goto w (t ++ pre) url) = true ->
                      contains "login" (lower (w_url w shown)) = false ->
                      w_title w shown = Ok title ->
                      is_ok (w_inner_text w (shown ++ [ETitle]) "body") = true ->
                      content_for url a = [AnalyzePlatform.Accessible url title])).
Proof.
  split; [|split]; intros S w s t.
  - destruct (admin_pages_filled w s t) as [a [t' [Heq [Hk _]]]].
    exists a, t'. split; [exact Heq|]. split; [exact Hk|].
    intros path. now rewrite Hk.
  - unfold AnalyzePlatform.main_application_analysis, with_local, bind.
    destruct (main_loop_turns w
                {| AnalyzePlatform.accessible_pages := [];
                   AnalyzePlatform.navigation_structure := [];
                   AnalyzePlatform.inferred_features := [];
                   AnalyzePlatform.missing_admin_features := [] |} t)
      as (a & t' & -> & _ & d & xs & -> & Hg & Hp & Hin & Hall).
    cbv beta iota. unfold modify.
    eexists _, d. split; [reflexivity|]. split; [exact Hg|].
    unfold pages_for.
    cbn [AnalyzePlatform.infer_admin_requirements AnalyzePlatform.accessible_pages].
    rewrite Hp. cbn [AnalyzePlatform.accessible_pages app].
    split.
    + intros url.
      destruct (in_dec string_dec url AnalyzePlatform.urls_to_check) as [Hu|Hu].
      * rewrite <- Hg in Hu. destruct (gotos_split url d Hu) as (pre & post & Hd).
        apply (Hall url pre post Hd).
      * rewrite filter_none; [simpl; lia|].
        eapply Forall_impl; [|exact Hin]. intros p Hp'. cbv beta in *.
        destruct (String.eqb_spec (AnalyzePlatform.ap_url p) url) as [E|E];
          [|reflexivity].
        exfalso. apply Hu. now rewrite <- E.
    + intros url pre post Hd. cbv zeta.
      replace (t ++ pre ++ [EGoto url; ESleep 1000])
        with ((t ++ pre) ++ [EGoto url; ESleep 1000])
        by (rewrite <- app_assoc; reflexivity).
      apply (Hall url pre post Hd).
  - unfold AnalyzePlatform.public_pages_analysis, with_local.
    destruct (public_loop_turns w
                {| AnalyzePlatform.accessible_content := [];
                   AnalyzePlatform.platform_insights := [] |} t)
      as (a & t' & -> & _ & d & xs & -> & Hg & Hp & Hin & Hall).
    exists a, d. split; [reflexivity|]. split; [exact Hg|].
    intros url pre post Hd. cbv zeta. unfold content_for. rewrite Hp.
    cbn [AnalyzePlatform.accessible_content app].
    replace (t ++ pre ++ [EGoto url]) with ((t ++ pre) ++ [EGoto url])
      by (rewrite <- app_assoc; reflexivity).
    replace (((t ++ pre) ++ [EGoto url]) ++ [ETitle])
      with ((t ++ pre) ++ [EGoto url; ETitle])
      by (rewrite <- !app_assoc; reflexivity).
    apply (Hall url pre post Hd).
Qed.

(** A run of the main-application loop in the world where only the
    dashboard is behind the login page.  The dashboard, whose navigation
    ends on the login page, has no entry; the home page, visited before
    it, has its one. *)
Lemma one_entry_per_target_witness :
  exists a d,
    AnalyzePlatform.main_application_analysis login_wall_world tt []
    = (Ok a, tt, [] ++ d)
    /\ pages_for "https://ellaai-platform-prod.web.app/dashboard" a = []
    /\ pages_for "https://ellaai-platform-prod.web.app/" a
       = [ {| AnalyzePlatform.ap_url := "https://ellaai-platform-prod.web.app/";
              AnalyzePlatform.ap_final_url := "https://ellaai-platform-prod.web.app/";
              AnalyzePlatform.ap_title := "EllaAI" |} ].
Proof.
  destruct (proj1 (proj2 one_entry_per_target) unit login_wall_world tt [])
    as (a & d & Heq & _ & _ & H).
  exists a, d. split; [exact Heq|].
  pose proof Heq as Hrun. vm_compute in Hrun. injection Hrun as _ Hd.
  subst d. split.
  - match type of H with
    | forall url pre post, ?l = _ -> _ =>
        destruct (H "https://ellaai-platform-prod.web.app/dashboard"
                    (firstn 10 l) (skipn 11 l) eq_refl) as (_ & Hlogin & _)
    end.
    apply Hlogin. reflexivity.
  - match type of H with
    | forall url pre post, ?l = _ -> _ =>
        destruct (H "https://ellaai-platform-prod.web.app/"
                    [] (skipn 1 l) eq_refl) as (_ & _ & Hone)
    end.
    exact (Hone "EllaAI" eq_refl eq_refl eq_refl).
Defined.

(** C1, as stated, fails: in the world without network the
    main-application loop ends with no entry at all, for any of its four
    URLs. *)
Lemma failed_probe_leaves_no_entry :
  exists a,
    result_of (AnalyzePlatform.main_application_analysis dead_world tt [])
    = Ok a
    /\ AnalyzePlatform.accessible_pages a = []
    /\ pages_for "https://ellaai-platform-prod.web.app/dashboard" a = [].
Proof. eexists. split; [vm_compute; reflexivity|]. split; reflexivity. Qed.

(** ** Sequential probing *)

(** The loop of [analyze_admin_interface], turn by turn. *)
Lemma admin_loop_turns w s t :
  exists s' d,
    for_each Comprehensive.admin_pages Comprehensive.analyze_admin_page w s t
    = (Ok tt, s', t ++ d)
    /\ chain (admin_turn w) Comprehensive.admin_pages s t s' (t ++ d)
    /\ gotos d = map (append Comprehensive.base_url) Comprehensive.admin_pages.
Proof.
  destruct (for_each_chain (admin_turn w) Comprehensive.analyze_admin_page w)
    with (l := Comprehensive.admin_pages) (s := s) (t := t)
    as (s' & t' & Heq & Hchain).
  { intros path s0 t0.
    destruct (analyze_admin_page_turn path w s0 t0) as (e & t1 & Hturn & _).
    eexists _, t1. split; [apply Hturn|exact Hturn]. }
  destruct (chain_gotos (append Comprehensive.base_url) (admin_turn w))
    with (l := Comprehensive.admin_pages) (s := s) (t := t) (s' := s') (t' := t')
    as (d & -> & Hg); [|exact Hchain|].
  { intros path s0 t0 s1 t1 (_ & e & rest & Ht & Hrest & _).
    exists rest. split; [exact Ht|exact Hrest]. }
  exists s', d. auto.
Qed.

(** C8.  The targets are probed one after the other, in the order of
    the enumeration.  Each of the three loops is a chain of turns, one
    per target: the turn of a target starts from the store and the calls
    that the turn of the target before it left, so every call of a probe
    and the recording of its result come before the first call of the
    next probe, and no two probes overlap.  A turn is the whole probe of
    its target ([admin_turn], [main_turn], [public_turn]): it starts
    with the navigation to the target, makes no other navigation, makes
    the steps of the probe in the order of the script, and has recorded
    the result when it ends.  Hence the navigations of a loop are those
    to its targets, in order. *)
Theorem sequential_probing :
  (forall (S : Type) (w : world) (s : S) (t : trace),
      exists a d,
        Comprehensive.analyze_admin_interface w s t = (Ok a, s, t ++ d)
        /\ chain (admin_turn w) Comprehensive.admin_pages
                 {| Comprehensive.pages := [] |} t a (t ++ d)
        /\ gotos d = map (append Comprehensive.base_url) Comprehensive.admin_pages)
  /\ (forall (S : Type) (w : world) (s : S) (t : trace),
         exists a d,
           AnalyzePlatform.main_application_analysis w s t
           = (Ok (AnalyzePlatform.infer_admin_requirements a), s, t ++ d)
           /\ chain (main_turn w) AnalyzePlatform.urls_to_check
                    {| AnalyzePlatform.accessible_pages := [];
                       AnalyzePlatform.navigation_structure := [];
                       AnalyzePlatform.inferred_features := [];
                       AnalyzePlatform.missing_admin_features := [] |}
                    t a (t ++ d)
           /\ gotos d = AnalyzePlatform.urls_to_check)
  /\ (forall (S : Type) (w : world) (s : S) (t : trace),
         exists a d,
           AnalyzePlatform.public_pages_analysis w s t = (Ok a, s, t ++ d)
           /\ chain (public_turn w) AnalyzePlatform.public_urls
                    {| AnalyzePlatform.accessible_content := [];
                       AnalyzePlatform.platform_insights := [] |}
                    t a (t ++ d)
           /\ gotos d = AnalyzePlatform.public_urls).
Proof.
  split; [|split]; intros S w s t.
  - unfold Comprehensive.analyze_admin_interface, with_local.
    destruct (admin_loop_turns w {| Comprehensive.pages := [] |} t)
      as (a & d & -> & Hchain & Hg).
    exists a, d. auto.
  - unfold AnalyzePlatform.main_application_analysis, with_local, bind.
    match goal with
    | |- context [for_each _ _ w ?init t] =>
        destruct (main_loop_turns w init t)
        as (a & t' & -> & Hchain & d & xs & -> & Hg & _)
    end.
    exists a, d. auto.
  - unfold AnalyzePlatform.public_pages_analysis, with_local.
    match goal with
    | |- context [for_each _ _ w ?init t] =>
        destruct (public_loop_turns w init t)
        as (a & t' & -> & Hchain & d & xs & -> & Hg & _)
    end.
    exists a, d. auto.
Qed.

(** ** Failures of a probe *)








(** ** Pages that answer with an error status *)




(** ** Exit codes *)

Lemma bind_ok {S A B} (m : M S A) (f : A -> M S B) w s t b s' t' :
  bind m f w s t = (Ok b, s', t') ->
  exists a s1 t1, m w s t = (Ok a, s1, t1) /\ f a w s1 t1 = (Ok b, s', t').
Proof.
  unfold bind. destruct (m w s t) as [[[a|e] s1] t1]; [|discriminate].
  intros H. now exists a, s1, t1.
Qed.

Lemma try_finally_ok {S A} (m : M S A) (f : M S unit) w s t a s' t' :
  try_finally m f w s t = (Ok a, s', t') ->
  exists s1 t1, m w s t = (Ok a, s1, t1) /\ f w s1 t1 = (Ok tt, s', t').
Proof.
  unfold try_finally. destruct (m w s t) as [[r s1] t1].
  destruct (f w s1 t1) as [[[[]|e] s2] t2] eqn:Hf; [|discriminate].
  intros H. injection H as -> -> ->. exists s1, t1. split; [reflexivity|exact Hf].
Qed.

Lemma call_ok {S A} ev (answer : world -> trace -> outcome A) w (s : S) t a s' t' :
  call ev answer w s t = (Ok a, s', t') ->
  answer w t = Ok a /\ s' = s /\ t' = t ++ [ev].
Proof. unfold call. intros [= -> -> ->]. auto. Qed.

(** When [generate_report] returns, the JSON report was written. *)
Lemma generate_report_ok w s t path s' t' :
  Comprehensive.generate_report w s t = (Ok path, s', t') ->
  exists t1 j t2,
    t' = t1 ++ EDumpJson path j :: t2
    /\ w_write w t1 path = Ok tt
    /\ j = json_dump_default_str (PDict s).
Proof.
  unfold Comprehensive.generate_report. intros H.
  apply bind_ok in H. destruct H as [ts [s1 [t1 [H1 H]]]].
  apply call_ok in H1. destruct H1 as [_ [-> ->]].
  apply bind_ok in H. destruct H as [[] [s2 [t2 [H2 H]]]].
  apply call_ok in H2. destruct H2 as [_ [-> ->]].
  apply bind_ok in H. destruct H as [self [s3 [t3 [H3 H]]]].
  injection H3 as <- <- <-.
  apply bind_ok in H. destruct H as [[] [s4 [t4 [H4 H]]]].
  apply call_ok in H4. destruct H4 as [Hw [-> ->]].
  apply bind_ok in H. destruct H as [ts' [s5 [t5 [H5 H]]]].
  apply call_ok in H5. destruct H5 as [_ [-> ->]].
  apply bind_ok in H. destruct H as [[] [s6 [t6 [H6 H]]]].
  apply call_ok in H6. destruct H6 as [_ [-> ->]].
  injection H as <- <- <-.
  eexists _, _, _. split; [|split; [exact Hw|reflexivity]].
  rewrite <- !app_assoc. reflexivity.
Qed.

(** C4, as amended.  The comprehensive script exits with 0 when
    [run_analysis] returns and with 1 otherwise; a browser that fails to
    launch makes [run_analysis] raise, and an exit with 0 means that the
    browser was launched and the JSON report written.  The platform
    script exits with 1 when the browser fails to launch; once the
    browser, its context and its page are there and the browser closes,
    it exits with 0 whatever was raised in between, the writing of the
    report included. *)
Theorem exit_codes :
  (forall w,
      w_makedirs w [ENow] Comprehensive.screenshots_dir = Ok tt ->
      fst (Comprehensive.script w)
      = if is_ok (result_of
                    (Comprehensive.run_analysis w
                       (Comprehensive.initial_results (w_now w []))
                       [ENow; EMakedirs Comprehensive.screenshots_dir]))
        then 0%Z else 1%Z)
  /\ (forall w s t msg,
         w_launch w t = Raise msg ->
         Comprehensive.run_analysis w s t = (Raise msg, s, t ++ [ELaunch]))
  /\ (forall w,
         fst (Comprehensive.script w) = 0%Z ->
         w_launch w [ENow; EMakedirs Comprehensive.screenshots_dir] = Ok tt
         /\ exists t1 path j t2,
             snd (Comprehensive.script w) = t1 ++ EDumpJson path j :: t2
             /\ w_write w t1 path = Ok tt)
  /\ (forall w msg,
         w_launch w [] = Raise msg ->
         AnalyzePlatform.script w = (1%Z, [ELaunch]))
  /\ (forall w,
         w_launch w [] = Ok tt ->
         w_new_context w [ELaunch] = Ok tt ->
         w_new_page w [ELaunch; ENewContext] = Ok tt ->
         (forall t, w_close w t = Ok tt) ->
         fst (AnalyzePlatform.script w) = 0%Z).
Proof.
  split; [|split; [|split; [|split]]].
  - intros w Hmk. unfold Comprehensive.script, Comprehensive.main.
    unfold bind at 1. unfold now at 1. unfold call at 1. cbv beta iota.
    unfold bind at 1. unfold modify at 1. cbv beta iota.
    unfold bind at 1. unfold makedirs at 1. unfold call at 1.
    simpl app. rewrite Hmk. cbv beta iota.
    unfold try_except, bind at 1.
    destruct (Comprehensive.run_analysis w _ _) as [[[p|e] s'] t']; reflexivity.
  - intros w s t msg H. unfold Comprehensive.run_analysis, bind, launch, call.
    now rewrite H.
  - intros w. unfold Comprehensive.script.
    destruct (Comprehensive.main w [] []) as [[[[]|e] s'] t'] eqn:Hmain;
      [|discriminate].
    intros _. cbn [snd].
    unfold Comprehensive.main in Hmain.
    apply bind_ok in Hmain. destruct Hmain as [ts [s1 [t1 [H1 H]]]].
    apply call_ok in H1. destruct H1 as [_ [-> ->]].
    apply bind_ok in H. destruct H as [[] [s2 [t2 [H2 H]]]].
    injection H2 as <- <-.
    apply bind_ok in H. destruct H as [[] [s3 [t3 [H3 H]]]].
    apply call_ok in H3. destruct H3 as [_ [-> ->]].
    unfold try_except in H.
    destruct (bind Comprehensive.run_analysis _ w _ _)
      as [[[[]|e] s4] t4] eqn:Hrun; [|discriminate H].
    injection H as <- <-.
    apply bind_ok in Hrun. destruct Hrun as [path [s5 [t5 [Hrun Hret]]]].
    injection Hret as <- <-.
    unfold Comprehensive.run_analysis in Hrun.
    apply bind_ok in Hrun. destruct Hrun as [[] [s6 [t6 [H6 Hrun]]]].
    apply call_ok in H6. destruct H6 as [Hlaunch [-> ->]].
    split; [exact Hlaunch|].
    apply bind_ok in Hrun. destruct Hrun as [[] [s7 [t7 [H7 Hrun]]]].
    apply call_ok in H7. destruct H7 as [_ [-> ->]].
    apply bind_ok in Hrun. destruct Hrun as [[] [s8 [t8 [H8 Hrun]]]].
    apply call_ok in H8. destruct H8 as [_ [-> ->]].
    apply try_finally_ok in Hrun. destruct Hrun as [s9 [t9 [Hst Hclose]]].
    apply call_ok in Hclose. destruct Hclose as [_ [-> ->]].
    unfold Comprehensive.guarded_stages, try_except in Hst.
    destruct (Comprehensive.stages w _ _) as [[[p|e] sa] ta] eqn:Hstages;
      [|discriminate Hst].
    injection Hst as -> -> ->.
    unfold Comprehensive.stages in Hstages.
    apply bind_ok in Hstages. destruct Hstages as [[] [sb [tb [_ Hrep]]]].
    apply generate_report_ok in Hrep.
    destruct Hrep as [u1 [j [u2 [-> [Hw _]]]]].
    exists u1, path, j, (u2 ++ [EClose]). split; [|exact Hw].
    rewrite <- app_assoc. reflexivity.
  - intros w msg H. unfold AnalyzePlatform.script,
      AnalyzePlatform.analyze_platform, bind, launch, call.
    now rewrite H.
  - intros w Hl Hc Hp Hclose. unfold AnalyzePlatform.script,
      AnalyzePlatform.analyze_platform, bind, launch, new_context, new_page,
      call at 1 2 3.
    simpl app. rewrite Hl, Hc, Hp.
    unfold try_finally, AnalyzePlatform.guarded_analysis, try_except,
      close, call at 1, ret.
    destruct (bind _ _ w tt _) as [[[u|e] s'] t']; rewrite Hclose; reflexivity.
Qed.

(** A run of the comprehensive script in the quiet world: it exits with
    0, the browser was launched and the report written. *)
Lemma exit_codes_witness :
  w_launch quiet_world [ENow; EMakedirs Comprehensive.screenshots_dir] = Ok tt
  /\ exists t1 path j t2,
      snd (Comprehensive.script quiet_world) = t1 ++ EDumpJson path j :: t2
      /\ w_write quiet_world t1 path = Ok tt.
Proof.
  apply (proj1 (proj2 (proj2 exit_codes)) quiet_world).
  vm_compute. reflexivity.
Defined.

(** C4, as stated, fails: when the disk is full the platform script does
    not write its report, the exception of the writing is caught by the
    handler of [analyze_platform], and the script exits with 0. *)
Lemma unwritten_report_exits_zero :
  result_of (AnalyzePlatform.analysis full_disk_world
               AnalyzePlatform.initial_results [ELaunch; ENewContext; ENewPage])
  = Raise "No space left on device"
  /\ fst (AnalyzePlatform.script full_disk_world) = 0%Z.
Proof. split; vm_compute; reflexivity. Qed.

(** ** The report *)

Lemma json_native_dict (d : list (string * pyval)) :
  nodupb (map fst d) = true ->
  Forall (fun kv => json_native (snd kv) = true) d ->
  json_native (PDict d) = true.
Proof.
  intros Hk Hv. simpl. rewrite Hk. simpl.
  apply forallb_forall. rewrite Forall_forall in Hv. exact Hv.
Qed.

Lemma json_native_list (l : list pyval) :
  Forall (fun v => json_native v = true) l -> json_native (PList l) = true.
Proof.
  intros H. simpl. apply forallb_forall. rewrite Forall_forall in H. exact H.
Qed.

Lemma json_native_map_list {A} (f : A -> pyval) (l : list A) :
  (forall a, In a l -> json_native (f a) = true) ->
  json_native (PList (map f l)) = true.
Proof.
  intros H. apply json_native_list, Forall_forall.
  intros v Hv. apply in_map_iff in Hv. destruct Hv as [a [<- Ha]]. auto.
Qed.

Lemma json_native_map_dict {A} (f : A -> pyval) (d : list (string * A)) :
  NoDup (keys d) ->
  (forall kv, In kv d -> json_native (f (snd kv)) = true) ->
  json_native (PDict (map (fun kv => (fst kv, f (snd kv))) d)) = true.
Proof.
  intros Hk H. apply json_native_dict.
  - rewrite map_map. simpl. now apply nodupb_NoDup.
  - apply Forall_forall. intros kv Hkv. apply in_map_iff in Hkv.
    destruct Hkv as [x [<- Hx]]. simpl. auto.
Qed.

Lemma json_native_py_strs l : json_native (AnalyzePlatform.py_strs l) = true.
Proof. apply json_native_map_list. reflexivity. Qed.

Create HintDb native.
#[local] Hint Resolve json_native_py_strs json_native_load : native.

(** A dict literal is native when its values are. *)
Ltac native_dict :=
  apply json_native_dict;
  [reflexivity|repeat constructor; cbn [snd]; auto with native].

Section ComprehensiveReport.
Import Comprehensive.

Lemma native_design_tokens t :
  wf_tokens t -> json_native (design_tokens_to_py t) = true.
Proof.
  intros [Hc [He Hv]]. unfold design_tokens_to_py.
  assert (Hcss : json_native (py_str_dict (cssVariables t)) = true).
  { unfold py_str_dict. apply (json_native_map_dict PStr); auto. }
  assert (Hel : json_native (PDict (elementStyles t)) = true).
  { apply json_native_dict; [now apply nodupb_NoDup|exact Hv]. }
  destruct (muiTheme t) as [j|]; cbn [app]; native_dict.
Qed.

Lemma native_page_structure p : json_native (page_structure_to_py p) = true.
Proof. reflexivity. Qed.

#[local] Hint Resolve native_design_tokens native_page_structure : native.

Lemma native_main_app m :
  wf_tokens (ma_design_tokens m) -> json_native (main_app_to_py m) = true.
Proof. intros H. unfold main_app_to_py. native_dict. Qed.

Lemma native_button b : json_native (button_to_py b) = true.
Proof.
  unfold button_to_py. destruct (bt_disabled b), (bt_type b); reflexivity.
Qed.

Lemma native_page_analysis p : json_native (page_analysis_to_py p) = true.
Proof.
  unfold page_analysis_to_py. native_dict.
  - apply json_native_map_list. reflexivity.
  - apply json_native_map_list. intros b _. apply native_button.
Qed.

Lemma native_functionality f : json_native (functionality_to_py f) = true.
Proof.
  unfold functionality_to_py. destruct (required_fields f); reflexivity.
Qed.

#[local] Hint Resolve native_page_analysis native_functionality : native.

Lemma native_page_entry e :
  wf_entry e -> json_native (page_entry_to_py e) = true.
Proof.
  destruct e as [r|msg]; simpl wf_entry; intros H; [|reflexivity].
  unfold page_entry_to_py. native_dict.
  destruct (functionality_test r); auto with native.
Qed.

Lemma native_admin a :
  NoDup (keys (pages a)) ->
  Forall (fun kv => wf_entry (snd kv)) (pages a) ->
  json_native (admin_to_py a) = true.
Proof.
  intros Hk Hwf. unfold admin_to_py. native_dict.
  apply (json_native_map_dict page_entry_to_py); [exact Hk|].
  intros kv Hkv. apply native_page_entry.
  rewrite Forall_forall in Hwf. now apply Hwf.
Qed.

Lemma native_network_request r : json_native (network_request_to_py r) = true.
Proof.
  unfold network_request_to_py.
  destruct (nr_status r), (nr_response_time r); reflexivity.
Qed.

Lemma native_connectivity c :
  errors c = [] -> json_native (connectivity_to_py c) = true.
Proof.
  intros H. unfold connectivity_to_py. rewrite H. native_dict.
  apply json_native_map_list. intros r _. apply native_network_request.
Qed.

End ComprehensiveReport.

Lemma ret_ok {S A} (a : A) w (s : S) t b s' t' :
  ret a w s t = (Ok b, s', t') -> b = a /\ s' = s /\ t' = t.
Proof. unfold ret. intros H. injection H as <- <- <-. auto. Qed.

Lemma modify_ok {S} (f : S -> S) w s t u s' t' :
  modify f w s t = (Ok u, s', t') -> s' = f s /\ t' = t.
Proof. unfold modify. intros H. injection H as _ <- <-. auto. Qed.

Lemma with_local_ok {S L A} (init : L) (m : M L A) w (s : S) t l s' t' :
  with_local init m w s t = (Ok l, s', t') ->
  s' = s /\ exists a, m w init t = (Ok a, l, t').
Proof.
  unfold with_local. destruct (m w init t) as [[[a|e] l0] t0]; [|discriminate].
  intros H. injection H as <- <- <-. split; [reflexivity|]. now exists a.
Qed.

(** A property of the store that every turn keeps holds after the
    loop. *)
Lemma for_each_invariant {S A} (I : S -> Prop) (body : A -> M S unit) w :
  (forall a s t, I s -> I (store_of (body a w s t))) ->
  forall l s t, I s -> I (store_of (for_each l body w s t)).
Proof.
  intros Hb l. induction l as [|a l IH]; intros s t Hs; simpl; [exact Hs|].
  unfold bind. pose proof (Hb a s t Hs) as H1.
  destruct (body a w s t) as [[[[]|e] s1] t1]; [|exact H1].
  apply IH. exact H1.
Qed.

(** Reading a run that returned, call by call. *)
Ltac inv_run :=
  repeat match goal with
         | H : bind _ _ _ _ _ = (Ok _, _, _) |- _ =>
             apply bind_ok in H; destruct H as (? & ? & ? & ? & ?)
         | H : call _ _ _ _ _ = (Ok _, _, _) |- _ =>
             apply call_ok in H; destruct H as (? & ? & ?); subst
         | H : ret _ _ _ _ = (Ok _, _, _) |- _ =>
             apply ret_ok in H; destruct H as (? & ? & ?); subst
         | H : modify _ _ _ _ = (Ok _, _, _) |- _ =>
             apply modify_ok in H; destruct H as (? & ?); subst
         end.

Section ComprehensiveStages.
Import Comprehensive.

Lemma analyze_main_application_ok {S} w (s : S) t m s' t' :
  analyze_main_application w s t = (Ok m, s', t') ->
  s' = s /\ wf_tokens (ma_design_tokens m).
Proof.
  unfold analyze_main_application, take_screenshot, extract_design_tokens,
    goto, wait_for_timeout, screenshot, evaluate, locator_count, now.
  intros H. inv_run. split; [reflexivity|]. apply wf_design_tokens_script.
Qed.

Lemma test_service_connectivity_ok {S} w (s : S) t c s' t' :
  test_service_connectivity w s t = (Ok c, s', t') ->
  s' = s /\ errors c = [].
Proof.
  unfold test_service_connectivity, goto, evaluate, now.
  intros H.
  repeat (inv_run;
          try match goal with
              | H : observed_network _ _ _ = _ |- _ =>
                  unfold observed_network in H; injection H as <- <- <-
              end).
  split; reflexivity.
Qed.

Lemma keys_flat_map_sub {A} (f : string * A -> list (string * (string * string)))
      (d : list (string * A)) :
  (forall kv x, In x (f kv) -> f kv = [x] /\ fst x = fst kv) ->
  NoDup (keys d) -> NoDup (keys (flat_map f d))
  /\ forall k, In k (keys (flat_map f d)) -> In k (keys d).
Proof.
  intros Hf. induction d as [|kv d IH]; simpl; intros Hnd.
  - split; [constructor|contradiction].
  - inversion Hnd as [|? ? Hk Hd]; subst. destruct (IH Hd) as [IH1 IH2].
    unfold keys in *. rewrite map_app.
    destruct (f kv) as [|x l] eqn:Hfk; simpl.
    + split; [exact IH1|]. intros k Hin. right. now apply IH2.
    + destruct (Hf kv x) as [Heq Hx]; [rewrite Hfk; now left|].
      rewrite Hfk in Heq. injection Heq as ->. simpl.
      split.
      * constructor; [|exact IH1]. rewrite Hx. intros Hin. apply Hk. now apply IH2.
      * intros k [<-|Hin]; [left; now symmetry|right; now apply IH2].
Qed.

Lemma native_design_gaps m a :
  wf_tokens (ma_design_tokens m) ->
  json_native (PList (map design_gap_to_py (compare_designs m a))) = true.
Proof.
  intros [Hc _]. apply json_native_map_list. intros g Hg.
  unfold compare_designs in Hg. apply in_flat_map in Hg.
  destruct Hg as [[path e] [_ Hg]]. cbn [fst snd] in Hg.
  unfold compare_page in Hg. destruct e as [r|msg]; [|contradiction].
  set (dv := flat_map _ (cssVariables (ma_design_tokens m))) in Hg.
  assert (Hdv : NoDup (keys dv)).
  { apply keys_flat_map_sub; [|exact Hc].
    intros kv x Hx.
    destruct (dict_get (fst kv) (cssVariables (pr_design_tokens r)));
      [|contradiction].
    destruct (String.eqb (snd kv) s); [contradiction|].
    destruct Hx as [<-|[]]. split; reflexivity. }
  assert (Hg' : g = {| gap_page := path;
                       missing_variables :=
                         filter (fun v => negb (dict_mem v (cssVariables (pr_design_tokens r))))
                                (keys (cssVariables (ma_design_tokens m)));
                       different_values := dv |}).
  { destruct (filter _ _), dv; simpl in Hg; intuition. }
  subst g. unfold design_gap_to_py. cbn [gap_page missing_variables different_values].
  native_dict.
  apply (json_native_map_dict
           (fun v => PDict [("main_app", PStr (fst v)); ("admin_page", PStr (snd v))]));
    [exact Hdv|reflexivity].
Qed.

(** The store when steps 1 to 4 of [run_analysis] have returned. *)
Lemma collect_shape w now t s' t' :
  collect w (initial_results now) t = (Ok tt, s', t') ->
  exists m a c,
    s' = [ ("timestamp", PStr (dt_iso now));
           ("main_app", main_app_to_py m);
           ("admin_interface", admin_to_py a);
           ("design_analysis", PDict []);
           ("service_connectivity", connectivity_to_py c);
           ("design_gaps", PList (map design_gap_to_py (compare_designs m a))) ]
    /\ wf_tokens (ma_design_tokens m)
    /\ keys (pages a) = admin_pages
    /\ Forall (fun kv => wf_entry (snd kv)) (pages a)
    /\ errors c = [].
Proof.
  unfold collect. intros H. inv_run.
  match goal with
  | H : analyze_main_application _ _ _ = _ |- _ =>
      apply analyze_main_application_ok in H; destruct H as [-> Hm]
  end.
  match goal with
  | H : test_service_connectivity _ _ _ = _ |- _ =>
      apply test_service_connectivity_ok in H; destruct H as [-> Hc]
  end.
  match goal with
  | H : analyze_admin_interface ?w ?s ?t = _ |- _ =>
      destruct (admin_pages_filled w s t) as [a' [t'' [Heq [Hk Hwf]]]];
      rewrite Heq in H; injection H as <- <- <-
  end.
  eexists _, _, _. split; [reflexivity|]. auto.
Qed.

End ComprehensiveStages.

Section PlatformStages.
Import AnalyzePlatform.

Lemma native_login la : json_native (login_to_py la) = true.
Proof. unfold login_to_py. native_dict. Qed.

Lemma native_nav n : json_native (nav_to_py n) = true.
Proof. unfold nav_to_py. now destruct (nav_href n). Qed.

Lemma native_app a :
  inferred_features a = [] -> json_native (app_to_py a) = true.
Proof.
  intros H. unfold app_to_py. rewrite H. native_dict.
  - apply json_native_map_list. reflexivity.
  - apply json_native_map_list. intros n _. apply native_nav.
  - apply json_native_map_list. intros c _. unfold admin_feature_to_py.
    native_dict.
Qed.

Lemma native_public p : json_native (public_to_py p) = true.
Proof.
  unfold public_to_py. native_dict.
  - apply json_native_map_list. intros [u x|u e] _; reflexivity.
  - apply json_native_map_list. reflexivity.
Qed.

Lemma check_url_inferred url w s t :
  inferred_features s = [] ->
  inferred_features (store_of (check_url url w s t)) = [].
Proof.
  intros Hs.
  unfold check_url, probe_url, goto, sleep, page_url, page_title,
    screenshot, try_except, bind, call, when, modify, ret.
  destruct (w_goto w t url) as [resp|e]; cbv beta iota; [|exact Hs].
  destruct (w_title w _) as [title|e]; cbv beta iota; [|exact Hs].
  destruct (negb (contains "login" (lower (w_url w _)))); cbv beta iota;
    [|exact Hs].
  world_call1 w_screenshot; [|exact Hs].
  unfold extract_navigation_items at 1. local_call.
  destruct r as [[|n l]|e]; exact Hs.
Qed.

Lemma main_application_analysis_ok {S} w (s : S) t a s' t' :
  main_application_analysis w s t = (Ok a, s', t') ->
  s' = s /\ inferred_features a = [].
Proof.
  unfold main_application_analysis. intros H.
  apply with_local_ok in H. destruct H as [-> [u H]]. split; [reflexivity|].
  inv_run. cbn [infer_admin_requirements inferred_features].
  pose proof (for_each_invariant
                (fun s0 => inferred_features s0 = []) check_url w
                (fun a0 s0 t0 => check_url_inferred a0 w s0 t0)
                urls_to_check
                {| accessible_pages := []; navigation_structure := [];
                   inferred_features := []; missing_admin_features := [] |}
                t eq_refl) as Hi.
  rewrite H in Hi. exact Hi.
Qed.

(** The store when steps 1 to 3 of [analyze_platform] have returned. *)
Lemma platform_collect_shape w t s' t' :
  collect w initial_results t = (Ok tt, s', t') ->
  exists la app pa,
    s' = [ ("login_page", login_to_py la);
           ("main_application", app_to_py app);
           ("recommendations",
            PDict [ ("critical", PList []); ("high_priority", PList []);
                    ("medium_priority", PList []); ("low_priority", PList []) ]);
           ("public_pages", public_to_py pa) ]
    /\ inferred_features app = [].
Proof.
  unfold collect, analyze_login_page, analyze_main_application,
    check_public_pages, goto, sleep, makedirs, screenshot.
  intros H. inv_run.
  match goal with
  | H : main_application_analysis _ _ _ = _ |- _ =>
      apply main_application_analysis_ok in H; destruct H as [-> Happ]
  end.
  repeat match goal with
         | H : with_local _ _ _ _ _ = (Ok _, _, _) |- _ =>
             apply with_local_ok in H; destruct H as [-> _]
         | H : public_pages_analysis _ _ _ = (Ok _, _, _) |- _ =>
             unfold public_pages_analysis in H
         end.
  eexists _, _, _. split; [reflexivity|exact Happ].
Qed.

End PlatformStages.

Lemma get_ok {S} w (s : S) t a s' t' :
  get w s t = (Ok a, s', t') -> a = s /\ s' = s /\ t' = t.
Proof. unfold get. intros H. injection H as <- <- <-. auto. Qed.

Lemma keys_map_values {A B} (f : A -> B) (d : list (string * A)) :
  keys (map (fun kv => (fst kv, f (snd kv))) d) = keys d.
Proof. unfold keys. rewrite map_map. reflexivity. Qed.

(** The report of the comprehensive script is native. *)
Lemma native_comprehensive_report w now t s' t' :
  Comprehensive.collect w (Comprehensive.initial_results now) t = (Ok tt, s', t') ->
  json_native (PDict s') = true.
Proof.
  intros H. apply collect_shape in H.
  destruct H as (m & a & c & -> & Hm & Hk & Hwf & Hc).
  apply json_native_dict; [reflexivity|].
  repeat constructor; cbn [snd]; auto with native.
  - now apply native_main_app.
  - apply native_admin; [|exact Hwf].
    unfold keys in *. rewrite Hk. apply NoDup_admin_pages.
  - now apply native_connectivity.
  - now apply native_design_gaps.
Qed.

(** The report of the platform script is native. *)
Lemma native_platform_report w t s' t' :
  AnalyzePlatform.collect w AnalyzePlatform.initial_results t = (Ok tt, s', t') ->
  json_native (PDict s') = true.
Proof.
  intros H. apply platform_collect_shape in H.
  destruct H as (la & app & pa & -> & Happ).
  apply json_native_dict; [reflexivity|].
  repeat constructor; cbn [snd]; auto with native.
  - apply native_login.
  - now apply native_app.
  - apply native_public.
Qed.

(** When the [generate_report] of the platform script returns, the JSON
    report was written. *)
Lemma platform_generate_report_ok w s t s' t' :
  json_native (PDict s) = true ->
  AnalyzePlatform.generate_report w s t = (Ok tt, s', t') ->
  exists t1 t2,
    t' = t1 ++ EDumpJson AnalyzePlatform.report_path
                 (json_dump_default_str (PDict s)) :: t2.
Proof.
  intros Hn. unfold AnalyzePlatform.generate_report, makedirs. intros H.
  inv_run.
  match goal with
  | H : get _ _ _ = _ |- _ => apply get_ok in H; destruct H as (-> & -> & ->)
  end.
  rewrite (json_dump_native _ Hn) in *.
  inv_run. eexists _, []. reflexivity.
Qed.

(** C5.  The JSON report that [generate_report] writes, parsed again, is
    the report in memory: in the comprehensive script the value of
    [self.analysis_results] after steps 1 to 4, written with
    [default=str]; in the platform script the value of [results] after
    steps 1 to 3, written without [default] and without a [TypeError].
    (The text of the file is [json]'s concern: the statement is about the
    JSON value written and read.) *)
Theorem report_round_trip :
  (forall w now t s1 t1 path s2 t2,
      Comprehensive.collect w (Comprehensive.initial_results now) t
      = (Ok tt, s1, t1) ->
      Comprehensive.generate_report w s1 t1 = (Ok path, s2, t2) ->
      exists u1 j u2,
        t2 = u1 ++ EDumpJson path j :: u2
        /\ j = json_dump_default_str (PDict s1)
        /\ json_load j = PDict s1)
  /\ (forall w t s1 t1 s2 t2,
         AnalyzePlatform.collect w AnalyzePlatform.initial_results t
         = (Ok tt, s1, t1) ->
         AnalyzePlatform.generate_report w s1 t1 = (Ok tt, s2, t2) ->
         exists u1 j u2,
           t2 = u1 ++ EDumpJson AnalyzePlatform.report_path j :: u2
           /\ json_dump (PDict s1) = Ok j
           /\ json_load j = PDict s1).
Proof.
  split.
  - intros w now t s1 t1 path s2 t2 Hc Hg.
    apply native_comprehensive_report in Hc.
    apply generate_report_ok in Hg. destruct Hg as (u1 & j & u2 & -> & _ & ->).
    exists u1, (json_dump_default_str (PDict s1)), u2.
    split; [reflexivity|]. split; [reflexivity|].
    now apply json_load_dump_native.
  - intros w t s1 t1 s2 t2 Hc Hg.
    apply native_platform_report in Hc.
    destruct (platform_generate_report_ok _ _ _ _ _ Hc Hg) as (u1 & u2 & ->).
    exists u1, (json_dump_default_str (PDict s1)), u2.
    split; [reflexivity|]. split; [now apply json_dump_native|].
    now apply json_load_dump_native.
Qed.

(** The run of the comprehensive script in the quiet world: what was
    written is read back as the report in memory. *)
Lemma report_round_trip_witness :
  exists u1 j u2,
    trace_of (Comprehensive.generate_report quiet_world
                (store_of (Comprehensive.collect quiet_world
                             (Comprehensive.initial_results new_year) []))
                (trace_of (Comprehensive.collect quiet_world
                             (Comprehensive.initial_results new_year) [])))
    = u1 ++ EDumpJson
              "./analysis/comprehensive_ellaai_analysis_20250101_000000.json" j
         :: u2
    /\ j = json_dump_default_str
             (PDict (store_of (Comprehensive.collect quiet_world
                                 (Comprehensive.initial_results new_year) [])))
    /\ json_load j
       = PDict (store_of (Comprehensive.collect quiet_world
                            (Comprehensive.initial_results new_year) [])).
Proof.
  refine (proj1 report_round_trip quiet_world new_year [] _ _ _
            (store_of (Comprehensive.generate_report quiet_world
                         (store_of (Comprehensive.collect quiet_world
                                      (Comprehensive.initial_results new_year) []))
                         (trace_of (Comprehensive.collect quiet_world
                                      (Comprehensive.initial_results new_year) []))))
            _ _ _).
  - vm_compute. reflexivity.
  - vm_compute. reflexivity.
Defined.

(** ** The keys of a report *)

Lemma admin_page_keys_shape ts m a x c g :
  admin_page_keys
    [ ("timestamp", ts); ("main_app", m);
      ("admin_interface", Comprehensive.admin_to_py a);
      ("design_analysis", x); ("service_connectivity", c);
      ("design_gaps", g) ]
  = Some (keys (Comprehensive.pages a)).
Proof.
  transitivity
    (Some (keys (map (fun kv => (fst kv, Comprehensive.page_entry_to_py (snd kv)))
                     (Comprehensive.pages a)))).
  - reflexivity.
  - f_equal. apply keys_map_values.
Qed.

Lemma json_keys_dump (d : list (string * pyval)) :
  json_keys (json_dump_default_str (PDict d)) = keys d.
Proof. simpl. apply keys_map_values. Qed.

(** C6.  Two runs of the comprehensive script that both fill their
    report, whatever the two worlds answer, give reports with the same
    top-level keys, those of [__init__], and with the same keys in
    [admin_interface["pages"]], the paths of [admin_pages]; the JSON
    objects written have these same member names. *)
Theorem report_keys :
  forall w1 w2 now1 now2 t1 t2 s1 s2 t1' t2',
    Comprehensive.collect w1 (Comprehensive.initial_results now1) t1
    = (Ok tt, s1, t1') ->
    Comprehensive.collect w2 (Comprehensive.initial_results now2) t2
    = (Ok tt, s2, t2') ->
    keys s1 = keys s2
    /\ keys s1 = keys (Comprehensive.initial_results now1)
    /\ admin_page_keys s1 = admin_page_keys s2
    /\ admin_page_keys s1 = Some Comprehensive.admin_pages
    /\ json_keys (json_dump_default_str (PDict s1))
       = json_keys (json_dump_default_str (PDict s2)).
Proof.
  intros w1 w2 now1 now2 t1 t2 s1 s2 t1' t2' H1 H2.
  apply collect_shape in H1. destruct H1 as (m1 & a1 & c1 & -> & _ & Hk1 & _).
  apply collect_shape in H2. destruct H2 as (m2 & a2 & c2 & -> & _ & Hk2 & _).
  rewrite !json_keys_dump, !admin_page_keys_shape, Hk1, Hk2.
  repeat split; reflexivity.
Qed.

(** Two runs of steps 1 to 4, in the quiet world and in the world
    without network: the reports have the same keys. *)
Lemma report_keys_witness :
  keys (store_of (Comprehensive.collect quiet_world
                    (Comprehensive.initial_results new_year) []))
  = keys (store_of (Comprehensive.collect not_found_world
                      (Comprehensive.initial_results new_year) []))
  /\ admin_page_keys
       (store_of (Comprehensive.collect quiet_world
                    (Comprehensive.initial_results new_year) []))
     = Some Comprehensive.admin_pages.
Proof.
  destruct (report_keys quiet_world not_found_world new_year new_year [] []
              (store_of (Comprehensive.collect quiet_world
                           (Comprehensive.initial_results new_year) []))
              (store_of (Comprehensive.collect not_found_world
                           (Comprehensive.initial_results new_year) []))
              (trace_of (Comprehensive.collect quiet_world
                           (Comprehensive.initial_results new_year) []))
              (trace_of (Comprehensive.collect not_found_world
                           (Comprehensive.initial_results new_year) [])))
    as (H1 & _ & _ & H4 & _).
  - vm_compute. reflexivity.
  - vm_compute. reflexivity.
  - split; [exact H1|exact H4].
Defined.

(** The fields of an entry of [pages] are another matter: the entry of a
    probe that went through and the entry of a failure have different
    keys. *)
Example entry_fields_depend_on_outcome :
  option_map json_keys
    (dict_get "/admin"
       (map (fun kv => (fst kv,
                        json_dump_default_str (Comprehensive.page_entry_to_py (snd kv))))
            (Comprehensive.pages
               (store_of (Comprehensive.analyze_admin_page "/admin" quiet_world
                            {| Comprehensive.pages := [] |} [])))))
  = Some [ "screenshot_path"; "status_code"; "is_error"; "page_analysis";
           "functionality_test"; "design_tokens" ]
  /\ option_map json_keys
       (dict_get "/admin"
          (map (fun kv => (fst kv,
                           json_dump_default_str (Comprehensive.page_entry_to_py (snd kv))))
               (Comprehensive.pages
                  (store_of (Comprehensive.analyze_admin_page "/admin" dead_world
                               {| Comprehensive.pages := [] |} [])))))
     = Some [ "error"; "status" ].
Proof. split; vm_compute; reflexivity. Qed.

(** ** Recommendations *)

(** C9.  The recommendations do not depend on what was observed.
    [_generate_recommendations] gives the same text for every state of
    the analyzer; [generate_recommendations], which takes no argument,
    is a mapping with the four priorities, five items each, all of which
    [generate_report] prints; and the [recommendations] entry of the
    report of the platform script is, after steps 1 to 3 in any world,
    the one [analyze_platform] started with. *)
Theorem recommendations_constant :
  (forall self1 self2 : Comprehensive.results,
      Comprehensive._generate_recommendations self1
      = Comprehensive._generate_recommendations self2)
  /\ keys AnalyzePlatform.generate_recommendations
     = [ "critical"; "high_priority"; "medium_priority"; "low_priority" ]
  /\ Forall (fun kv => List.length (snd kv) = 5%nat)
            AnalyzePlatform.generate_recommendations
  /\ AnalyzePlatform.printed_recommendations
     = AnalyzePlatform.generate_recommendations
  /\ (forall w t s' t',
         AnalyzePlatform.collect w AnalyzePlatform.initial_results t
         = (Ok tt, s', t') ->
         dict_get "recommendations" s'
         = dict_get "recommendations" AnalyzePlatform.initial_results).
Proof.
  split; [reflexivity|]. split; [reflexivity|].
  split; [repeat constructor|]. split; [reflexivity|].
  intros w t s' t' H. apply platform_collect_shape in H.
  destruct H as (la & app & pa & -> & _). reflexivity.
Qed.

(** Steps 1 to 3 of the platform script in the quiet world. *)
Lemma recommendations_constant_witness :
  dict_get "recommendations"
    (store_of (AnalyzePlatform.collect quiet_world
                 AnalyzePlatform.initial_results []))
  = dict_get "recommendations" AnalyzePlatform.initial_results.
Proof.
  apply (proj2 (proj2 (proj2 (proj2 recommendations_constant))) quiet_world []
           _ (trace_of (AnalyzePlatform.collect quiet_world
                          AnalyzePlatform.initial_results []))).
  vm_compute. reflexivity.
Defined.

(** ** Navigation items *)

Lemma truthy_nonempty s : truthy s = true -> s <> "".
Proof. destruct s; [discriminate|]. intros _. discriminate. Qed.

Lemma length_flat_map_option {A B} (f : A -> option B) (l : list A) :
  (List.length (flat_map (fun a => match f a with Some b => [b] | None => [] end) l)
   <= List.length l)%nat.
Proof.
  induction l as [|a l IH]; simpl; [lia|].
  rewrite length_app. destruct (f a); simpl; lia.
Qed.

Section AdminNavigation.
Import AnalyzeAdmin.

Lemma nav_item_some link it : nav_item link = Some it -> nav_item_of link it.
Proof.
  unfold nav_item, nav_item_of.
  destruct (el_inner_text link) as [raw|e]; [|discriminate].
  destruct (el_href link) as [h|e]; [|discriminate].
  destruct (truthy (strip raw)) eqn:Ht; [|discriminate].
  destruct (String.length (strip raw) <? 50)%nat eqn:Hl; [|discriminate].
  simpl. intros [= <-]. exists raw. simpl.
  repeat split; [now apply truthy_nonempty|now apply Nat.ltb_lt].
Qed.

Lemma nav_item_long link raw :
  el_inner_text link = Ok raw ->
  (50 <= String.length (strip raw))%nat ->
  nav_item link = None.
Proof.
  intros Hraw Hlen. unfold nav_item. rewrite Hraw.
  destruct (el_href link); [|reflexivity].
  assert (H : (String.length (strip raw) <? 50)%nat = false)
    by (apply Nat.ltb_ge; exact Hlen).
  rewrite H, andb_false_r. reflexivity.
Qed.

Lemma collect_nav_items_spec nav_links :
  (List.length (collect_nav_items nav_links) <= 20)%nat
  /\ Forall (fun it => exists link,
                 In link (firstn 20 nav_links) /\ nav_item_of link it)
            (collect_nav_items nav_links).
Proof.
  unfold collect_nav_items. split.
  - etransitivity; [apply (length_flat_map_option nav_item)|].
    apply firstn_le_length.
  - apply Forall_forall. intros it Hit. apply in_flat_map in Hit.
    destruct Hit as [link [Hl Hit]]. exists link. split; [exact Hl|].
    destruct (nav_item link) as [it'|] eqn:Hn; [|contradiction].
    destruct Hit as [<-|[]]. now apply nav_item_some.
Qed.

End AdminNavigation.

Section PlatformNavigation.
Import AnalyzePlatform.

(** One element: no call is made, and the item appended, if any, is
    taken from that element. *)
Lemma add_nav_item_spec el w items t :
  exists r added,
    add_nav_item el w items t = (r, items ++ added, t)
    /\ (List.length added <= 1)%nat
    /\ Forall (nav_link_of el) added
    /\ (added <> [] -> r = Ok tt).
Proof.
  unfold add_nav_item, bind, lift, when, modify, ret.
  destruct (el_inner_text el) as [raw|e] eqn:Hraw.
  2:{ exists (Raise e), []. rewrite app_nil_r. repeat split; auto. congruence. }
  destruct (el_href el) as [h|e].
  2:{ exists (Raise e), []. rewrite app_nil_r. repeat split; auto. congruence. }
  destruct (truthy (strip raw)) eqn:Ht;
    [destruct (String.length (strip raw) <? 30)%nat eqn:Hl|];
    simpl andb; cbv beta iota.
  - exists (Ok tt), [{| nav_text := strip raw; nav_href := h |}].
    split; [reflexivity|]. split; [simpl; lia|]. split; [|reflexivity].
    constructor; [|constructor].
    exists raw. simpl. split; [exact Hraw|]. split; [reflexivity|].
    split; [now apply truthy_nonempty|now apply Nat.ltb_lt].
  - exists (Ok tt), []. rewrite app_nil_r. repeat split; auto.
  - exists (Ok tt), []. rewrite app_nil_r. repeat split; auto.
Qed.

(** The loop over the elements of one selector: whether it ends or an
    element raises, it has made no call and has appended at most one
    item per element. *)
Lemma elements_loop elements w items t :
  exists r added,
    for_each elements add_nav_item w items t = (r, items ++ added, t)
    /\ (List.length added <= List.length elements)%nat
    /\ Forall (fun n => exists el, In el elements /\ nav_link_of el n) added.
Proof.
  revert items. induction elements as [|el elements IH]; intros items; simpl.
  - exists (Ok tt), []. rewrite app_nil_r. repeat split; auto.
  - unfold bind.
    destruct (add_nav_item_spec el w items t) as (r & added & -> & Hlen & Hall & _).
    assert (Hhere : Forall (fun n => exists el0,
                              In el0 (el :: elements) /\ nav_link_of el0 n) added).
    { eapply Forall_impl; [|exact Hall]. intros n Hn. exists el.
      split; [now left|exact Hn]. }
    destruct r as [[]|e].
    + destruct (IH (items ++ added)) as (r & more & -> & Hlen' & Hall').
      exists r, (added ++ more). rewrite app_assoc.
      repeat split; [rewrite length_app; lia|].
      apply Forall_app. split; [exact Hhere|].
      eapply Forall_impl; [|exact Hall'].
      intros n (el' & Hin & Hn). exists el'. split; [now right|exact Hn].
    + exists (Raise e), added. repeat split; [lia|exact Hhere].
Qed.

(** One selector: the turn returns and appends at most ten items, each
    taken from one of the first ten elements the selector matches. *)
Lemma extract_from_selector_spec selector w items t :
  exists added t',
    extract_from_selector selector w items t = (Ok tt, items ++ added, t')
    /\ (List.length added <= 10)%nat
    /\ Forall (fun n =>
                 exists elements el,
                   w_query_selector_all w t selector = Ok elements
                   /\ In el (firstn 10 elements)
                   /\ nav_link_of el n) added.
Proof.
  unfold extract_from_selector, try_except. unfold bind at 1.
  unfold query_selector_all, call.
  destruct (w_query_selector_all w t selector) as [elements|e].
  2:{ exists [], (t ++ [EQuerySelectorAll selector]). rewrite app_nil_r.
      repeat split; auto; simpl; lia. }
  destruct (elements_loop (firstn 10 elements) w items
              (t ++ [EQuerySelectorAll selector]))
    as (r & added & Heq & Hlen & Hall).
  rewrite Heq.
  exists added, (t ++ [EQuerySelectorAll selector]). split.
  - destruct r as [[]|e]; reflexivity.
  - split.
    + etransitivity; [exact Hlen|]. apply firstn_le_length.
    + eapply Forall_impl; [|exact Hall].
      intros n (el & Hin & Hn). exists elements, el. auto.
Qed.

End PlatformNavigation.

(** [extract_navigation_items] returns, with at most ten items per
    selector, sixty in all, each not empty and shorter than 30
    characters. *)
Lemma extract_navigation_items_spec {S} w (s : S) t :
  exists items t',
    AnalyzePlatform.extract_navigation_items w s t = (Ok items, s, t')
    /\ (List.length items <= 60)%nat
    /\ Forall (fun n => AnalyzePlatform.nav_text n <> ""
                        /\ (String.length (AnalyzePlatform.nav_text n) < 30)%nat)
              items.
Proof.
  unfold AnalyzePlatform.extract_navigation_items, with_local.
  destruct (for_each_appends
              (fun items : list AnalyzePlatform.nav_link => items)
              (fun _ xs =>
                 (List.length xs <= 10)%nat
                 /\ Forall (fun n => AnalyzePlatform.nav_text n <> ""
                                     /\ (String.length (AnalyzePlatform.nav_text n) < 30)%nat)
                           xs)
              AnalyzePlatform.extract_from_selector w) with
    (l := AnalyzePlatform.nav_selectors) (s := @nil AnalyzePlatform.nav_link)
    (t := t) as (items & t' & xss & -> & Hitems & HF).
  { intros sel items t0.
    destruct (extract_from_selector_spec sel w items t0)
      as (added & t1 & Heq & Hlen & Hall).
    exists (items ++ added), t1, added. repeat split; auto.
    eapply Forall_impl; [|exact Hall].
    intros n (elements & el & _ & _ & raw & _ & _ & Hne & Hlt). auto. }
  exists items, t'. split; [reflexivity|]. simpl in Hitems. subst items.
  unfold AnalyzePlatform.nav_selectors in HF. invert_Forall2.
  repeat match goal with H : _ /\ Forall _ _ |- _ => destruct H end.
  split.
  - simpl. rewrite !length_app. simpl. lia.
  - simpl. repeat (apply Forall_app; split; auto).
Qed.

(** C10.  [analyze_navigation] records at most 20 items, each the whole
    stripped text of one of the first 20 links, not empty and shorter
    than 50 characters; a link with a longer text gives no item.
    [extract_navigation_items] records at most 10 items per selector and
    60 in all, each the whole stripped text of one of the first 10
    elements of its selector, not empty and shorter than 30 characters;
    an element with a longer text leaves [nav_items] as it was. *)
Theorem navigation_bounded :
  (forall w s t items s' t',
      AnalyzeAdmin.analyze_navigation w s t = (Ok items, s', t') ->
      (List.length items <= 20)%nat
      /\ Forall (fun it =>
                   exists nav_links link,
                     w_query_selector_all w t (dq "a[href], button[role='menuitem']")
                     = Ok nav_links
                     /\ In link (firstn 20 nav_links)
                     /\ nav_item_of link it)
                items)
  /\ (forall link raw,
         el_inner_text link = Ok raw ->
         (50 <= String.length (strip raw))%nat ->
         AnalyzeAdmin.nav_item link = None)
  /\ (forall selector w items t,
         exists added t',
           AnalyzePlatform.extract_from_selector selector w items t
           = (Ok tt, items ++ added, t')
           /\ (List.length added <= 10)%nat
           /\ Forall (fun n =>
                        exists elements el,
                          w_query_selector_all w t selector = Ok elements
                          /\ In el (firstn 10 elements)
                          /\ nav_link_of el n) added)
  /\ (forall (S : Type) w (s : S) t,
         exists items t',
           AnalyzePlatform.extract_navigation_items w s t = (Ok items, s, t')
           /\ (List.length items <= 60)%nat
           /\ Forall (fun n => AnalyzePlatform.nav_text n <> ""
                               /\ (String.length (AnalyzePlatform.nav_text n) < 30)%nat)
                     items)
  /\ List.length AnalyzePlatform.nav_selectors = 6%nat
  /\ (forall el raw w items t,
         el_inner_text el = Ok raw ->
         (30 <= String.length (strip raw))%nat ->
         store_of (AnalyzePlatform.add_nav_item el w items t) = items).
Proof.
  split; [|split; [|split; [|split; [|split]]]].
  - intros w s t items s' t'.
    unfold AnalyzeAdmin.analyze_navigation, query_selector_all. intros H.
    inv_run.
    match goal with
    | H : w_query_selector_all _ _ _ = Ok ?l |- _ =>
        destruct (collect_nav_items_spec l) as [Hlen Hall]; rename H into Hq
    end.
    split; [exact Hlen|].
    eapply Forall_impl; [|exact Hall].
    intros it (link & Hin & Hit). eexists _, link. split; [exact Hq|]. auto.
  - exact nav_item_long.
  - exact extract_from_selector_spec.
  - intros S w s t. apply extract_navigation_items_spec.
  - reflexivity.
  - intros el raw w items t Hraw Hlen.
    unfold AnalyzePlatform.add_nav_item, bind, lift, AnalyzePlatform.when,
      modify, ret.
    rewrite Hraw. destruct (el_href el); [|reflexivity].
    assert (H : (String.length (strip raw) <? 30)%nat = false)
      by (apply Nat.ltb_ge; exact Hlen).
    rewrite H, andb_false_r. reflexivity.
Qed.

(** [analyze_navigation] on a page with the links [some_links]. *)
Lemma navigation_bounded_witness :
  (List.length (AnalyzeAdmin.collect_nav_items some_links) <= 20)%nat
  /\ Forall (fun it =>
               exists nav_links link,
                 w_query_selector_all links_world []
                   (dq "a[href], button[role='menuitem']")
                 = Ok nav_links
                 /\ In link (firstn 20 nav_links)
                 /\ nav_item_of link it)
            (AnalyzeAdmin.collect_nav_items some_links).
Proof.
  apply (proj1 navigation_bounded links_world tt []
           (AnalyzeAdmin.collect_nav_items some_links) tt
           [EQuerySelectorAll (dq "a[href], button[role='menuitem']")]).
  reflexivity.
Defined.

(** On that page eighteen items are recorded: the first link, and
    seventeen of the twenty-five last ones; the link with the long text
    and the link without text give none. *)
Example navigation_items_of_some_links :
  map fst (AnalyzeAdmin.collect_nav_items some_links)
  = "Users" :: repeat "Item" 17.
Proof. vm_compute. reflexivity. Qed.

(** The public-pages loop can list a URL twice: when the page loads and
    its title is read, the entry of the page is appended; when the
    reading of the body then raises, the handler appends the entry of
    the failure. *)
Example public_page_listed_twice :
  content_for "https://ellaai-platform-prod.web.app/about"
    (store_of (AnalyzePlatform.check_public_url
                 "https://ellaai-platform-prod.web.app/about" unreadable_world
                 {| AnalyzePlatform.accessible_content := [];
                    AnalyzePlatform.platform_insights := [] |} []))
  = [ AnalyzePlatform.Accessible
        "https://ellaai-platform-prod.web.app/about" "EllaAI";
      AnalyzePlatform.Inaccessible
        "https://ellaai-platform-prod.web.app/about" "Timeout 30000ms exceeded" ].
Proof. vm_compute. reflexivity. Qed.

(** * Further properties

    What the code shows of the functions the properties above do not
    reach. *)

(** ** More on strings *)

Lemma string_app_assoc (a b c : string) :
  ((a ++ b) ++ c = a ++ b ++ c)%string.
Proof. induction a as [|x a IH]; simpl; [reflexivity|now rewrite IH]. Qed.

Section Trim.
Variable p : ascii -> bool.

Lemma lstrip_by_head s :
  match lstrip_by p s with
  | EmptyString => True
  | String c _ => p c = false
  end.
Proof.
  induction s as [|c s IH]; simpl; [exact I|].
  destruct (p c) eqn:E; [exact IH|exact E].
Qed.

Lemma rstrip_by_cons c s :
  p c = false -> rstrip_by p (String c s) = String c (rstrip_by p s).
Proof. intros H. simpl. destruct (rstrip_by p s); [now rewrite H|reflexivity]. Qed.

Lemma rstrip_by_last s :
  match chars (rstrip_by p s) with
  | [] => True
  | c :: l => p (last (c :: l) c) = false
  end.
Proof.
  induction s as [|c s IH]; simpl; [exact I|].
  destruct (rstrip_by p s) as [|c' r] eqn:E.
  - destruct (p c) eqn:Hc; simpl; [exact I|exact Hc].
  - simpl in IH |- *. destruct (chars r) as [|c'' l] eqn:El.
    + exact IH.
    + rewrite <- IH. clear. revert c c' c''.
      induction l as [|x l IHl]; intros; [reflexivity|].
      simpl. destruct l; [reflexivity|]. apply (IHl c c' x).
Qed.

Lemma strip_by_trimmed s : trimmed p (rstrip_by p (lstrip_by p s)).
Proof.
  unfold trimmed. pose proof (lstrip_by_head s) as Hh.
  pose proof (rstrip_by_last (lstrip_by p s)) as Hl.
  destruct (lstrip_by p s) as [|c u]; [exact I|].
  rewrite (rstrip_by_cons c u Hh) in *. simpl in *. split; [exact Hh|exact Hl].
Qed.

End Trim.

Lemma string_of_uint_digits u :
  Forall (fun c => is_digit c = true) (chars (NilEmpty.string_of_uint u)).
Proof. induction u; simpl; constructor; auto. Qed.

Lemma decimal_digits n : Forall (fun c => is_digit c = true) (chars (decimal n)).
Proof. apply string_of_uint_digits. Qed.

Lemma decimal_inj n m : decimal n = decimal m -> n = m.
Proof.
  unfold decimal. intros H.
  apply (f_equal NilEmpty.uint_of_string) in H.
  rewrite !NilEmpty.usu in H. injection H as H.
  apply (f_equal Nat.of_uint) in H.
  now rewrite !DecimalNat.Unsigned.of_to in H.
Qed.

Lemma chars_app a b : chars (a ++ b) = chars a ++ chars b.
Proof. induction a as [|c a IH]; simpl; [reflexivity|now rewrite IH]. Qed.

Lemma digits_no_underscore s :
  Forall (fun c => is_digit c = true) (chars s) ->
  existsb (Ascii.eqb "_") (chars s) = false.
Proof.
  induction s as [|c s IH]; cbn [chars existsb]; intros H; [reflexivity|].
  inversion H as [|? ? Hc Hs]; subst. rewrite (IH Hs), orb_false_r.
  destruct (Ascii.eqb_spec "_"%char c) as [<-|]; [discriminate Hc|reflexivity].
Qed.

Lemma after_last_underscore_app a d :
  existsb (Ascii.eqb "_") (chars d) = false ->
  after_last_underscore (a ++ "_" ++ d) = d.
Proof.
  intros Hd. induction a as [|c a IH].
  - cbn [append after_last_underscore]. rewrite Hd. reflexivity.
  - cbn [append after_last_underscore] in *.
    rewrite chars_app, existsb_app. cbn [chars existsb].
    rewrite Ascii.eqb_refl, orb_true_l, orb_true_r. exact IH.
Qed.

Lemma prefix_slash c s :
  String.prefix "/" (String c s) = Ascii.eqb c "/".
Proof.
  cbn [String.prefix]. destruct (ascii_dec "/" c) as [<-|Hne].
  - now destruct s.
  - symmetry. apply Ascii.eqb_neq. congruence.
Qed.

Lemma replace_slash_flat s : no_slash (replace "/" "_" s) = true.
Proof.
  unfold replace. induction s as [|c s IH]; [reflexivity|].
  cbn [replace_from]. rewrite prefix_slash.
  destruct (Ascii.eqb c "/") eqn:E.
  - cbn [String.length Nat.sub append no_slash]. exact IH.
  - cbn [no_slash]. now rewrite E, IH.
Qed.

Lemma lstrip_char_flat ch s : no_slash s = true -> no_slash (lstrip_char ch s) = true.
Proof.
  induction s as [|c s IH]; cbn [lstrip_char no_slash]; [reflexivity|].
  intros H. destruct (Ascii.eqb c ch).
  - apply IH. now apply andb_true_iff in H.
  - exact H.
Qed.

Lemma lstrip_char_head ch s :
  match lstrip_char ch s with
  | EmptyString => True
  | String c _ => c <> ch
  end.
Proof.
  induction s as [|c s IH]; cbn [lstrip_char]; [exact I|].
  destruct (Ascii.eqb_spec c ch); [exact IH|assumption].
Qed.

Section DictKeys.
Context {V : Type}.

Lemma keys_fold_dict_set (items acc : list (string * V)) k :
  In k (keys (fold_left (fun d kv => dict_set (fst kv) (snd kv) d) items acc))
  <-> In k (keys acc) \/ In k (keys items).
Proof.
  revert acc. induction items as [|[k' v'] items IH]; intros acc; simpl.
  - tauto.
  - rewrite IH. cbn [fst snd].
    destruct (in_dec string_dec k' (keys acc)) as [Hin|Hnin].
    + rewrite keys_dict_set_present by assumption.
      split; [tauto|]. intros [H|[<-|H]]; auto.
    + rewrite keys_dict_set_fresh by assumption. rewrite in_app_iff. simpl.
      tauto.
Qed.

Lemma keys_dict_of_items (items : list (string * V)) k :
  In k (keys (dict_of_items items)) <-> In k (keys items).
Proof. unfold dict_of_items. rewrite keys_fold_dict_set. simpl. tauto. Qed.

End DictKeys.

(** ** Design tokens *)

Section DesignTokens.
Import Comprehensive.

(** X1.  The custom properties of the root element, and nothing else, are
    the keys of [cssVariables], each once; a value is the trimmed value of
    such a property and neither starts nor ends with white space. *)
Theorem css_variables_spec d :
  NoDup (keys (cssVariables (design_tokens_script d)))
  /\ (forall k,
         In k (keys (cssVariables (design_tokens_script d)))
         <-> In k (keys (d_root_style d)) /\ String.prefix "--" k = true)
  /\ (forall k v,
         In (k, v) (cssVariables (design_tokens_script d)) ->
         trimmed js_is_space v
         /\ exists raw, In (k, raw) (d_root_style d) /\ v = js_trim raw).
Proof.
  unfold design_tokens_script. cbn [cssVariables].
  split; [apply NoDup_keys_dict_of_items|]. split.
  - intros k. rewrite keys_dict_of_items. unfold keys.
    rewrite map_map. cbn [fst]. rewrite !in_map_iff. split.
    + intros [[k' raw] [Hk Hin]]. cbn [fst] in Hk. subst k'.
      apply filter_In in Hin. destruct Hin as [Hin Hp]. split; [|exact Hp].
      now exists (k, raw).
    + intros [[[k' raw] [Hk Hin]] Hp]. cbn [fst] in Hk. subst k'.
      exists (k, raw). split; [reflexivity|]. apply filter_In. auto.
  - intros k v Hin. apply in_dict_of_items in Hin.
    apply in_map_iff in Hin. destruct Hin as [[k' raw] [Heq Hin]].
    cbn [fst snd] in Heq. injection Heq as -> <-.
    apply filter_In in Hin. destruct Hin as [Hin _].
    split; [apply strip_by_trimmed|]. now exists raw.
Qed.

Lemma element_key_index i el :
  after_last_underscore (fst (element_style i el)) = decimal i.
Proof.
  unfold element_style. cbn [fst].
  replace (lower (ke_tagName el) ++ "_" ++ replace_ws_runs false (ke_className el)
             ++ "_" ++ decimal i)%string
    with ((lower (ke_tagName el) ++ "_" ++ replace_ws_runs false (ke_className el))
            ++ "_" ++ decimal i)%string.
  - apply after_last_underscore_app, digits_no_underscore, decimal_digits.
  - rewrite !string_app_assoc. reflexivity.
Qed.

Lemma element_key_inj i j el el' :
  fst (element_style i el) = fst (element_style j el') -> i = j.
Proof.
  intros H. apply (f_equal after_last_underscore) in H.
  rewrite !element_key_index in H. now apply decimal_inj.
Qed.

Lemma in_element_styles_from n l kv :
  In kv (element_styles_from n l) ->
  exists i el, (n <= i)%nat /\ kv = element_style i el.
Proof.
  revert n. induction l as [|el l IH]; intros n; simpl; [contradiction|].
  intros [<-|Hin].
  - exists n, el. split; [lia|reflexivity].
  - destruct (IH _ Hin) as (i & el' & Hi & Heq). exists i, el'. split; [lia|exact Heq].
Qed.

Lemma NoDup_element_keys n l : NoDup (keys (element_styles_from n l)).
Proof.
  revert n. induction l as [|el l IH]; intros n; simpl; constructor; [|apply IH].
  intros Hin. unfold keys in Hin. apply in_map_iff in Hin.
  destruct Hin as [kv [Hk Hin]].
  apply in_element_styles_from in Hin. destruct Hin as (i & el' & Hi & ->).
  apply element_key_inj in Hk. lia.
Qed.

Lemma nth_error_element_styles_from n l i el :
  nth_error l i = Some el ->
  nth_error (element_styles_from n l) i = Some (element_style (n + i) el).
Proof.
  revert n i. induction l as [|x l IH]; intros n [|i]; simpl; try discriminate.
  - intros [= ->]. now rewrite Nat.add_0_r.
  - intros H. rewrite (IH (S n) i H). f_equal. f_equal. lia.
Qed.

Lemma length_element_styles_from n l :
  List.length (element_styles_from n l) = List.length l.
Proof. revert n. induction l as [|x l IH]; intros n; simpl; [reflexivity|now rewrite IH]. Qed.

(** X2.  [elementStyles] has one entry per key element, in the order of the
    document: the index that ends a key keeps two elements of the same tag
    and classes apart, so no entry overwrites another. *)
Theorem element_styles_spec d :
  List.length (elementStyles (design_tokens_script d))
  = List.length (d_key_elements d)
  /\ (forall i el,
         nth_error (d_key_elements d) i = Some el ->
         nth_error (elementStyles (design_tokens_script d)) i
         = Some (element_style i el))
  /\ (forall i j el el',
         fst (element_style i el) = fst (element_style j el') -> i = j).
Proof.
  unfold design_tokens_script. cbn [elementStyles].
  rewrite (dict_of_items_nodup _ (NoDup_element_keys 0 (d_key_elements d))).
  split; [apply length_element_styles_from|]. split.
  - intros i el H. apply (nth_error_element_styles_from 0 _ _ _ H).
  - exact element_key_inj.
Qed.

End DesignTokens.

(** ** The names of the screenshots *)

Section ScreenshotNames.
Import Comprehensive.

(** X3.  The names of the screenshots.  Whatever the path of an admin page,
    its [page_name] holds no path separator and does not start with an
    underscore; the file name the platform script derives from a URL holds
    none either and is never empty.  [take_screenshot] returns the path it
    gave to the browser, a file of the screenshots directory whose name
    starts with the name asked for. *)
Theorem screenshot_names :
  (forall admin_path,
      no_slash (page_name admin_path) = true
      /\ String.prefix "_" (page_name admin_path) = false)
  /\ (forall url,
         let filename :=
           str_or (replace "/" "_"
                     (replace "https://ellaai-platform-prod.web.app/" "" url))
                  "homepage" in
         no_slash filename = true /\ filename <> "")
  /\ (forall (S : Type) name w (s : S) t path s' t',
         take_screenshot name w s t = (Ok path, s', t') ->
         s' = s
         /\ t' = t ++ [ENow; EScreenshot path]
         /\ w_screenshot w (t ++ [ENow]) path = Ok tt
         /\ path = (screenshots_dir ++ "/" ++ name ++ "_"
                      ++ dt_stamp (w_now w t) ++ ".png")%string).
Proof.
  split; [|split].
  - intros admin_path. unfold page_name. split.
    + apply lstrip_char_flat, replace_slash_flat.
    + pose proof (lstrip_char_head "_" (replace "/" "_"
                    (replace "/admin" "admin_root" admin_path))) as H.
      destruct (lstrip_char _ _) as [|c r]; [reflexivity|].
      cbn [String.prefix]. destruct (ascii_dec "_" c) as [<-|]; [|reflexivity].
      now contradiction H.
  - intros url. cbv zeta. unfold str_or.
    pose proof (replace_slash_flat
                  (replace "https://ellaai-platform-prod.web.app/" "" url)) as H.
    destruct (replace "/" "_" _) as [|c r]; [split; [reflexivity|discriminate]|].
    split; [exact H|discriminate].
  - intros S name w s t path s' t'. unfold take_screenshot, now, screenshot.
    intros H. inv_run. rewrite <- app_assoc.
    match goal with H : Ok _ = Ok _ |- _ => injection H as <- end.
    match goal with H : w_screenshot _ _ _ = Ok ?u |- _ => destruct u end.
    repeat split; auto.
Qed.

End ScreenshotNames.

(** ** The form test *)

Section FormTest.
Import Comprehensive.

Ltac form_test_case :=
  cbn; repeat split; try discriminate; try lia; eauto;
  try (intros [? [? _]]; discriminate).

(** X4.  [test_form_functionality] never raises and leaves the store alone.
    [api_connectivity] stays [unknown]; [has_validation] is true exactly
    when [submit_test] is [validation_works]; [required_fields] is still the
    empty list exactly when the first count raised, the message of which
    [submit_test] then bears; and the submit button is clicked at most once. *)
Theorem form_test_returns :
  forall (S : Type) (w : world) (s : S) (t : trace),
    exists f d,
      test_form_functionality w s t = (Ok f, s, t ++ d)
      /\ api_connectivity f = "unknown"
      /\ (has_validation f = true <-> submit_test f = "validation_works")
      /\ (required_fields f = None <->
          exists msg,
            w_locator_count w t
              "input[required], select[required], textarea[required]"
            = Raise msg
            /\ submit_test f = ("error: " ++ msg)%string)
      /\ (List.length (filter (fun e => match e with EClick _ => true | _ => false end) d)
          <= 1)%nat.
Proof.
  intros S w s t.
  unfold test_form_functionality, with_local, try_except, bind, locator_count,
    click, wait_for_timeout, call, AnalyzePlatform.when, modify, ret.
  destruct (w_locator_count w t _) as [n|e] eqn:H1; cbv beta iota.
  2:{ eexists _, [_]. split; [reflexivity|]. form_test_case. }
  match goal with
  | |- context [w_locator_count w ?t0 submit_selector] =>
      destruct (w_locator_count w t0 submit_selector) as [k|e] eqn:H2
  end; cbv beta iota.
  2:{ eexists _, [_; _]. rewrite <- app_assoc. split; [reflexivity|].
      form_test_case. }
  destruct (0 <? k)%nat; cbv beta iota.
  2:{ eexists _, [_; _]. rewrite <- app_assoc. split; [reflexivity|].
      form_test_case. }
  destruct (w_click w _ _) as [[]|e]; cbv beta iota.
  2:{ eexists _, [_; _; _]. rewrite <- !app_assoc. split; [reflexivity|].
      form_test_case. }
  destruct (w_wait_for_timeout w _) as [[]|e]; cbv beta iota.
  2:{ eexists _, [_; _; _; _]. rewrite <- !app_assoc. split; [reflexivity|].
      form_test_case. }
  match goal with
  | |- context [w_locator_count w ?t0 ?sel] =>
      destruct (w_locator_count w t0 sel) as [v|e] eqn:H3
  end; cbv beta iota.
  2:{ eexists _, [_; _; _; _; _]. rewrite <- !app_assoc. split; [reflexivity|].
      form_test_case. }
  eexists _, [_; _; _; _; _]. rewrite <- !app_assoc. split; [reflexivity|].
  destruct (0 <? v)%nat; form_test_case.
Qed.

End FormTest.

(** ** The entry of an admin page *)

Section ProbeRecord.
Import Comprehensive.

(** X5.  The entry of a probe that went through.  Its status is that of the
    response, 0 when the navigation gave none; [is_error] is false exactly
    when that status is below 400 and the locator of the 404 texts counted
    nothing; the form test was run exactly when the page analysis found a
    form; the screenshot is that of the page, and every other entry of
    [pages] is as it was. *)
Theorem probe_record_spec :
  forall path w s t s' t',
    probe_admin_page path w s t = (Ok tt, s', t') ->
    exists r response n404,
      s' = set_page path (Probed r) s
      /\ w_goto w t (base_url ++ path) = Ok response
      /\ status_code r = match response with Some st => st | None => 0%Z end
      /\ w_locator_count w
           (t ++ [EGoto (base_url ++ path); EWaitForTimeout 2000; ENow;
                  EScreenshot (screenshot_path r)])
           "text=404, text=Not Found, text=Page not found" = Ok n404
      /\ (is_error r = false <-> (status_code r < 400)%Z /\ n404 = 0%nat)
      /\ (functionality_test r <> None <-> hasForm (pr_page_analysis r) = true)
      /\ screenshot_path r
         = (screenshots_dir ++ "/admin_" ++ page_name path ++ "_"
              ++ dt_stamp (w_now w (t ++ [EGoto (base_url ++ path)%string;
                                          EWaitForTimeout 2000])%list)
              ++ ".png")%string
      /\ forall other, other <> path ->
                       dict_get other (pages s') = dict_get other (pages s).
Proof.
  intros path w s t s' t'.
  unfold probe_admin_page, take_screenshot, extract_design_tokens,
    goto, wait_for_timeout, locator_count, evaluate, screenshot, now.
  cbv zeta. intros H. inv_run.
  repeat match goal with H : Ok _ = Ok _ |- _ => injection H as <- end.
  match goal with
  | H : (if ?c then _ else _) _ _ _ = _ |- _ => destruct c eqn:Hform
  end; inv_run;
  repeat match goal with
         | H : test_form_functionality _ _ _ = (Ok _, _, _) |- _ =>
             unfold test_form_functionality in H;
             apply with_local_ok in H; destruct H as [-> _]
         end; inv_run.
  all: eexists _, _, _; split; [reflexivity|].
  all: cbn [status_code is_error functionality_test pr_page_analysis screenshot_path].
  all: split; [eassumption|]; split; [reflexivity|].
  all: split;
    [ match goal with
      | H : w_locator_count _ ?t0 _ = Ok _ |- w_locator_count _ ?t1 _ = Ok _ =>
          replace t1 with t0 by (rewrite <- !app_assoc; reflexivity); exact H
      end |].
  all: split;
    [ rewrite orb_false_iff, Z.leb_gt, Nat.ltb_ge; split;
      [intros [? ?]; split; [assumption|lia]|intros [? ->]; split; [assumption|lia]] |].
  all: split; [rewrite Hform; split; [try reflexivity; intros Hn; now contradiction Hn|
                                       try discriminate; intros; discriminate]|].
  all: split;
    [ unfold path_join; rewrite <- !app_assoc;
      rewrite ?string_app_assoc; reflexivity |].
  all: intros other Hne; unfold set_page; cbn [pages];
    apply dict_get_set_other; congruence.
Qed.

End ProbeRecord.

(** ** Service connectivity *)

Section Network.
Import Comprehensive.

Lemma request_part_handle_response u st at_time l :
  map request_part (handle_response u st at_time l) = map request_part l.
Proof.
  induction l as [|r l IH]; simpl; [reflexivity|].
  destruct (String.eqb (nr_url r) u); simpl; [reflexivity|].
  now rewrite IH.
Qed.

Lemma request_part_handle l e :
  map request_part (handle l e)
  = map request_part l ++ requests_of [e].
Proof.
  destruct e as [u m at_time|u st at_time]; simpl.
  - rewrite map_app. reflexivity.
  - rewrite request_part_handle_response, app_nil_r. reflexivity.
Qed.

Lemma request_part_fold net l :
  map request_part (fold_left handle net l)
  = map request_part l ++ requests_of net.
Proof.
  revert l. induction net as [|e net IH]; intros l; simpl.
  - now rewrite app_nil_r.
  - rewrite IH, request_part_handle. unfold requests_of. simpl.
    rewrite <- app_assoc, app_nil_r. reflexivity.
Qed.

Lemma handle_response_unmatched u st at_time l :
  ~ In u (map nr_url l) -> handle_response u st at_time l = l.
Proof.
  induction l as [|r l IH]; simpl; intros H; [reflexivity|].
  destruct (String.eqb_spec (nr_url r) u) as [E|E].
  - exfalso. apply H. now left.
  - f_equal. apply IH. intros Hin. apply H. now right.
Qed.

Lemma first_answered_app seen l r :
  first_answered seen l ->
  nr_status r = None -> nr_response_time r = None ->
  first_answered seen (l ++ [r]).
Proof.
  revert seen. induction l as [|x l IH]; simpl; intros seen H Hs Ht.
  - auto.
  - destruct H as [H1 H2]. split; [exact H1|]. now apply IH.
Qed.

Lemma first_answered_response seen u st at_time l :
  first_answered seen l ->
  ~ In u seen ->
  first_answered seen (handle_response u st at_time l).
Proof.
  revert seen. induction l as [|r l IH]; simpl; intros seen H Hu; [exact I|].
  destruct H as [H1 H2].
  destruct (String.eqb_spec (nr_url r) u) as [E|E]; simpl.
  - split; [|exact H2]. intros Hin. rewrite E in Hin. contradiction.
  - split; [exact H1|]. apply IH; [exact H2|].
    intros [Heq|Hin]; [congruence|contradiction].
Qed.

Lemma first_answered_fold net l :
  first_answered [] l -> first_answered [] (fold_left handle net l).
Proof.
  revert l. induction net as [|e net IH]; intros l H; simpl; [exact H|].
  apply IH. destruct e as [u m at_time|u st at_time]; simpl.
  - now apply first_answered_app.
  - apply first_answered_response; [exact H|intros []].
Qed.

Lemma answered_by_more net net' r :
  incl net net' -> answered_by net r -> answered_by net' r.
Proof.
  intros Hi H st Hst. destruct (H st Hst) as (at_time & Hin & Ht).
  exists at_time. split; [now apply Hi|exact Ht].
Qed.

Lemma answered_handle_response done u st at_time l :
  Forall (answered_by done) l ->
  Forall (answered_by (done ++ [NetResponse u st at_time]))
         (handle_response u st at_time l).
Proof.
  induction 1 as [|r l Hr Hl IH]; simpl; [constructor|].
  destruct (String.eqb_spec (nr_url r) u) as [E|E].
  - constructor.
    + intros st' Hst. simpl in Hst. injection Hst as <-.
      exists at_time. simpl. split; [|reflexivity].
      apply in_or_app. right. left. now rewrite E.
    + eapply Forall_impl; [|exact Hl].
      intros x. apply answered_by_more. intros y Hy. apply in_or_app. now left.
  - constructor; [|exact IH].
    revert Hr. apply answered_by_more. intros y Hy. apply in_or_app. now left.
Qed.

Lemma answered_fold net done l :
  Forall (answered_by done) l ->
  Forall (answered_by (done ++ net)) (fold_left handle net l).
Proof.
  revert done l. induction net as [|e net IH]; intros done l H; simpl.
  - now rewrite app_nil_r.
  - replace (done ++ e :: net) with ((done ++ [e]) ++ net)
      by (rewrite <- app_assoc; reflexivity).
    apply IH. destruct e as [u m at_time|u st at_time]; simpl.
    + apply Forall_app. split.
      * eapply Forall_impl; [|exact H]. intros x. apply answered_by_more.
        intros y Hy. apply in_or_app. now left.
      * constructor; [|constructor]. intros st Hst. discriminate.
    + now apply answered_handle_response.
Qed.

(** X6.  The log the two handlers build from the events of the network holds
    one item per request, in the order of the requests: no response adds,
    removes or reorders an item.  A status comes from a response to the URL
    of its item; of the items of one URL only the first ever holds a status,
    so a second request to a URL stays without one; and a response to a URL
    that was not requested changes nothing. *)
Theorem network_log net :
  map request_part (fold_left handle net []) = requests_of net
  /\ Forall (answered_by net) (fold_left handle net [])
  /\ first_answered [] (fold_left handle net [])
  /\ (forall u st at_time l,
         ~ In u (map nr_url l) -> handle_response u st at_time l = l).
Proof.
  split; [|split; [|split]].
  - apply (request_part_fold net []).
  - apply (answered_fold net [] []). constructor.
  - apply first_answered_fold. exact I.
  - intros u st at_time l. apply handle_response_unmatched.
Qed.

Lemma lastn_min {A} n (l : list A) :
  List.length (lastn n l) = Nat.min n (List.length l).
Proof. unfold lastn. rewrite length_skipn. lia. Qed.

Lemma lastn_map {A B} (f : A -> B) n (l : list A) :
  lastn n (map f l) = map f (lastn n l).
Proof. unfold lastn. now rewrite length_map, skipn_map. Qed.

(** The shared slice of a log that only grew at its end is, for what its
    items are compared on, the slice of the log it was taken from. *)
Lemma shared_lastn_map {A B} (f : A -> B) n (l l' : list A) (more : list B) :
  map f l' = map f l ++ more ->
  map f (shared_lastn n l l') = lastn n (map f l).
Proof.
  intros H. unfold shared_lastn.
  rewrite <- firstn_map, <- skipn_map, H, lastn_min.
  rewrite skipn_app, length_map.
  replace (List.length l - n - List.length l)%nat with 0%nat by lia.
  rewrite skipn_O, firstn_app, length_skipn, length_map.
  replace (Nat.min n (List.length l) - (List.length l - (List.length l - n)))%nat
    with 0%nat by lia.
  rewrite firstn_O, app_nil_r.
  rewrite firstn_all2 by (rewrite length_skipn, length_map; lia).
  unfold lastn. now rewrite length_map.
Qed.

Lemma shared_lastn_same {A} n (l : list A) : shared_lastn n l l = lastn n l.
Proof.
  unfold shared_lastn. rewrite lastn_min. unfold lastn.
  apply firstn_all2. rewrite length_skipn. lia.
Qed.

Lemma in_firstn {A} n (l : list A) x : In x (firstn n l) -> In x l.
Proof.
  intros H. rewrite <- (firstn_skipn n l). apply in_or_app. now left.
Qed.

Lemma in_skipn {A} n (l : list A) x : In x (skipn n l) -> In x l.
Proof.
  intros H. rewrite <- (firstn_skipn n l). apply in_or_app. now right.
Qed.

Lemma Forall_shared_lastn {A} (P : A -> Prop) n (l l' : list A) :
  Forall P l' -> Forall P (shared_lastn n l l').
Proof.
  intros H. unfold shared_lastn. apply Forall_forall. intros x Hx.
  rewrite Forall_forall in H. apply H.
  apply in_firstn in Hx. now apply in_skipn in Hx.
Qed.

(** X7.  [test_service_connectivity], when it returns.  Its calls are the
    two registrations, a reading of the clock, the navigation, a second
    reading of the clock and the Firebase script; the store is untouched.
    [api_calls] holds the last ten requests of the navigation, all of them
    when there are fewer, as items of the log: with what the handlers wrote
    in them up to the return of the Firebase script.  So a status in it
    comes from a response of the navigation or from one that arrived while
    the script was evaluated, and a request made during the script is not
    in it.  The load time is the time between the two readings of the
    clock; [firebase_auth] is one of the three answers of the script; and
    no error is ever listed. *)
Theorem service_connectivity_spec :
  forall (S : Type) w (s : S) t c s' t',
    test_service_connectivity w s t = (Ok c, s', t') ->
    let started := t ++ [EOn "request"; EOn "response"] in
    let loaded := started ++ [ENow; EGoto (base_url ++ "/admin")%string] in
    let net := w_network w loaded in
    let late := w_network w t' in
    s' = s
    /\ t' = loaded ++ [ENow; EEvaluate "firebase"]
    /\ api_calls c
       = firstn (Nat.min 10 (List.length (requests_of net)))
                (skipn (List.length (requests_of net) - 10)
                       (fold_left handle (net ++ late) []))
    /\ map request_part (api_calls c) = lastn 10 (requests_of net)
    /\ Forall (answered_by (net ++ late)) (api_calls c)
    /\ (late = [] -> api_calls c = lastn 10 (fold_left handle net []))
    /\ load_time_micros c = (dt_micros (w_now w loaded) - dt_micros (w_now w started))%Z
    /\ (firebase_auth c = "loaded" \/ firebase_auth c = "not_loaded"
        \/ exists msg, firebase_auth c = ("error: " ++ msg)%string)
    /\ errors c = [].
Proof.
  intros S w s t c s' t'.
  unfold test_service_connectivity, goto, evaluate, now. intros H.
  repeat (inv_run;
          try match goal with
              | H : observed_network _ _ _ = _ |- _ =>
                  unfold observed_network in H; injection H as <- <- <-
              end).
  repeat match goal with H : Ok _ = Ok _ |- _ => injection H as <- end.
  cbv zeta. cbn [api_calls firebase_auth load_time_micros errors].
  assert (E1 : (t ++ [EOn "request"]) ++ [EOn "response"]
               = t ++ [EOn "request"; EOn "response"])
    by (rewrite <- app_assoc; reflexivity).
  assert (E2 : forall (a b : event) (u : trace), (u ++ [a]) ++ [b] = u ++ [a; b])
    by (intros; rewrite <- app_assoc; reflexivity).
  rewrite !E1 in *. rewrite !E2 in *.
  set (net := w_network w _).
  set (late := w_network w _).
  assert (Hlen : List.length (fold_left handle net []) = List.length (requests_of net)).
  { now rewrite <- (length_map request_part), (request_part_fold net []). }
  split; [reflexivity|]. split; [reflexivity|].
  split.
  { unfold shared_lastn. now rewrite lastn_min, Hlen, fold_left_app. }
  split.
  { rewrite (shared_lastn_map request_part 10 _ _ (requests_of late)).
    - now rewrite (request_part_fold net []).
    - apply request_part_fold. }
  split.
  { apply Forall_shared_lastn. rewrite <- fold_left_app.
    apply (answered_fold (net ++ late) [] []). constructor. }
  split.
  { intros ->. apply shared_lastn_same. }
  split; [reflexivity|]. split; [|reflexivity].
  unfold firebase_script.
  match goal with
  | |- context [d_firebase ?d] => destruct (d_firebase d) as [[|]|msg]
  end; eauto.
Qed.

End Network.

(** ** Design gaps *)

Section DesignGaps.
Import Comprehensive.

Lemma dict_mem_false {V} k (d : list (string * V)) :
  dict_mem k d = false <-> dict_get k d = None.
Proof. unfold dict_mem. destruct (dict_get k d); split; congruence. Qed.

Lemma in_missing (main_vars admin_vars : list (string * string)) k :
  In k (filter (fun v => negb (dict_mem v admin_vars)) (keys main_vars))
  <-> In k (keys main_vars) /\ dict_get k admin_vars = None.
Proof.
  rewrite filter_In, negb_true_iff, dict_mem_false. reflexivity.
Qed.

Lemma in_different (main_vars admin_vars : list (string * string)) k m a :
  In (k, (m, a))
     (flat_map (fun kv =>
                  match dict_get (fst kv) admin_vars with
                  | Some a =>
                      if String.eqb (snd kv) a then []
                      else [ (fst kv, (snd kv, a)) ]
                  | None => []
                  end) main_vars)
  <-> In (k, m) main_vars /\ dict_get k admin_vars = Some a /\ m <> a.
Proof.
  rewrite in_flat_map. split.
  - intros [[k' m'] [Hin H]]. cbn [fst snd] in H.
    destruct (dict_get k' admin_vars) as [a'|] eqn:Hg; [|contradiction].
    destruct (String.eqb_spec m' a') as [->|Hne]; [contradiction|].
    destruct H as [[= -> -> ->]|[]]. auto.
  - intros (Hin & Hg & Hne). exists (k, m). split; [exact Hin|].
    cbn [fst snd]. rewrite Hg.
    destruct (String.eqb_spec m a); [contradiction|now left].
Qed.

(** One page: no gap exactly when the page defines every variable of the
    main application with the same value; a gap holds what is missing and
    what differs, and is never empty.  A page whose probe failed gives no
    gap. *)
Lemma compare_page_facts main_vars path :
  (forall msg, compare_page main_vars path (Failed msg) = [])
  /\ (forall r,
         compare_page main_vars path (Probed r) = []
         <-> covers (cssVariables (pr_design_tokens r)) main_vars)
  /\ (forall r g,
         In g (compare_page main_vars path (Probed r)) ->
         compare_page main_vars path (Probed r) = [g]
         /\ gap_of main_vars path r g).
Proof.
  split; [reflexivity|]. split.
  - intros r. unfold compare_page, covers.
    set (admin_vars := cssVariables (pr_design_tokens r)).
    set (missing := filter _ _). set (different := flat_map _ _).
    split.
    + intros H k v Hin.
      assert (Hm : missing = [])
        by (destruct missing, different; [reflexivity|discriminate..]).
      assert (Hd : different = [])
        by (destruct missing, different; [reflexivity|discriminate..]).
      destruct (dict_get k admin_vars) as [a|] eqn:Hg.
      * destruct (String.eqb_spec v a) as [->|Hne]; [reflexivity|].
        assert (Hin' : In (k, (v, a)) different)
          by (apply in_different; auto).
        rewrite Hd in Hin'. contradiction.
      * assert (Hin' : In k missing).
        { apply in_missing. split; [|exact Hg].
          apply in_map_iff. now exists (k, v). }
        rewrite Hm in Hin'. contradiction.
    + intros Hc.
      assert (Hm : missing = []).
      { destruct missing as [|k l] eqn:E; [reflexivity|].
        assert (Hin : In k missing) by (rewrite E; now left).
        apply in_missing in Hin. destruct Hin as [Hk Hg].
        apply in_map_iff in Hk. destruct Hk as [[k' v] [Heq Hin]].
        cbn [fst] in Heq. subst k'.
        rewrite (Hc _ _ Hin) in Hg. discriminate. }
      assert (Hd : different = []).
      { destruct different as [|[k [m a]] l] eqn:E; [reflexivity|].
        assert (Hin : In (k, (m, a)) different) by (rewrite E; now left).
        apply in_different in Hin. destruct Hin as (Hin & Hg & Hne).
        rewrite (Hc _ _ Hin) in Hg. congruence. }
      now rewrite Hm, Hd.
  - intros r g. unfold compare_page, gap_of. cbv zeta.
    set (admin_vars := cssVariables (pr_design_tokens r)).
    set (missing := filter _ _). set (different := flat_map _ _).
    intros Hin.
    assert (Hg : g = {| gap_page := path; missing_variables := missing;
                        different_values := different |}
                 /\ (missing <> [] \/ different <> [])).
    { destruct missing, different; simpl in Hin;
        [contradiction|destruct Hin as [<-|[]]..];
        (split; [reflexivity|]); (left; discriminate) || (right; discriminate). }
    destruct Hg as [-> Hne]. split.
    + destruct missing, different; try reflexivity.
      destruct Hne as [H|H]; contradiction.
    + cbn [gap_page missing_variables different_values].
      split; [reflexivity|]. split; [intros k; apply in_missing|].
      split; [intros k m a; apply in_different|exact Hne].
Qed.

Lemma flat_map_nil_iff {A B} (f : A -> list B) (l : list A) :
  flat_map f l = [] <-> forall x, In x l -> f x = [].
Proof.
  induction l as [|a l IH]; simpl.
  - split; [intros _ x []|reflexivity].
  - split.
    + intros H. apply app_eq_nil in H. destruct H as [H1 H2].
      intros x [<-|Hx]; [exact H1|]. now apply IH.
    + intros H. rewrite (H a (or_introl eq_refl)). apply IH.
      intros x Hx. apply H. now right.
Qed.

Lemma compare_designs_nil_iff main_app_data admin_data :
  compare_designs main_app_data admin_data = []
  <-> forall path r,
       In (path, Probed r) (pages admin_data) ->
       covers (cssVariables (pr_design_tokens r))
              (cssVariables (ma_design_tokens main_app_data)).
Proof.
  unfold compare_designs. rewrite flat_map_nil_iff. split.
  - intros H path r Hin.
    apply (proj1 (proj2 (compare_page_facts _ path)) r).
    exact (H (path, Probed r) Hin).
  - intros H [path [r|msg]] Hin; cbn [fst snd]; [|reflexivity].
    apply (proj1 (proj2 (compare_page_facts _ path)) r).
    exact (H path r Hin).
Qed.

(** X8.  [compare_designs] reports no gap exactly when every admin page that
    was probed defines every CSS variable of the main application with the
    same value.  A page whose probe failed is never reported, and neither is
    a variable that only the admin page defines. *)
Theorem design_gaps_none main_app_data admin_data :
  (compare_designs main_app_data admin_data = []
   <-> forall path r,
        In (path, Probed r) (pages admin_data) ->
        covers (cssVariables (pr_design_tokens r))
               (cssVariables (ma_design_tokens main_app_data)))
  /\ ((forall path e, In (path, e) (pages admin_data) -> exists msg, e = Failed msg) ->
      compare_designs main_app_data admin_data = []).
Proof.
  set (main_vars := cssVariables (ma_design_tokens main_app_data)).
  pose proof (compare_designs_nil_iff main_app_data admin_data) as Hiff.
  fold main_vars in Hiff.
  split; [exact Hiff|].
  intros Hall. apply Hiff. intros path r Hin.
  destruct (Hall _ _ Hin) as [msg Hmsg]. discriminate Hmsg.
Qed.

(** X9.  Every gap [compare_designs] reports is that of an admin page that
    was probed, and at most one gap is reported per page.  The gap lists as
    missing the variables of the main application the page does not define,
    and as different those it defines with another value, with both values;
    it is never empty. *)
Theorem design_gaps_content main_app_data admin_data :
  (forall g,
      In g (compare_designs main_app_data admin_data) ->
      exists r,
        In (gap_page g, Probed r) (pages admin_data)
        /\ gap_of (cssVariables (ma_design_tokens main_app_data)) (gap_page g) r g)
  /\ (List.length (compare_designs main_app_data admin_data)
      <= List.length (pages admin_data))%nat.
Proof.
  unfold compare_designs.
  set (main_vars := cssVariables (ma_design_tokens main_app_data)).
  split.
  - intros g Hg. apply in_flat_map in Hg.
    destruct Hg as [[path [r|msg]] [Hin Hg]]; cbn [fst snd] in Hg;
      [|contradiction].
    destruct (proj2 (proj2 (compare_page_facts main_vars path)) r g Hg)
      as [_ Hgap].
    assert (Hp : gap_page g = path) by (apply Hgap). rewrite Hp.
    exists r. split; [exact Hin|exact Hgap].
  - induction (pages admin_data) as [|[path e] l IH]; simpl; [lia|].
    rewrite length_app.
    assert (H1 : (List.length (compare_page main_vars path e) <= 1)%nat).
    { destruct e as [r|msg]; [|simpl; lia].
      destruct (compare_page main_vars path (Probed r)) as [|g l'] eqn:E;
        [simpl; lia|].
      destruct (proj2 (proj2 (compare_page_facts main_vars path)) r g) as [Heq _].
      { rewrite E. now left. }
      rewrite E in Heq. injection Heq as ->. simpl. lia. }
    lia.
Qed.

(** X10.  The section of the Markdown summary on design gaps says that no
    significant gap was identified exactly when every admin page that was
    probed defines the variables of the main application with the same
    values; so it says so when no admin page could be probed at all. *)
Theorem design_gaps_summary main_app_data admin_data :
  (_format_design_gaps (compare_designs main_app_data admin_data)
   = "No significant design gaps identified."
   <-> forall path r,
        In (path, Probed r) (pages admin_data) ->
        covers (cssVariables (pr_design_tokens r))
               (cssVariables (ma_design_tokens main_app_data)))
  /\ ((forall path e, In (path, e) (pages admin_data) -> exists msg, e = Failed msg) ->
      _format_design_gaps (compare_designs main_app_data admin_data)
      = "No significant design gaps identified.").
Proof.
  set (main_vars := cssVariables (ma_design_tokens main_app_data)).
  assert (Hnone : _format_design_gaps (compare_designs main_app_data admin_data)
                  = "No significant design gaps identified."
                  <-> compare_designs main_app_data admin_data = []).
  { destruct (compare_designs main_app_data admin_data) as [|g l].
    - split; reflexivity.
    - split; [|discriminate]. unfold _format_design_gaps. simpl. discriminate. }
  pose proof (compare_designs_nil_iff main_app_data admin_data) as Hiff.
  fold main_vars in Hiff.
  split; [now rewrite Hnone|].
  intros Hall. apply Hnone, Hiff. intros path r Hin.
  destruct (Hall _ _ Hin) as [msg Hmsg]. discriminate Hmsg.
Qed.

End DesignGaps.

(** ** The login page *)

Section Login.
Import AnalyzePlatform.

Lemma login_analysis_shape w s t s' t' :
  analyze_login_page w s t = (Ok tt, s', t') ->
  exists pw google forgot signup sso mfa,
    s' = dict_set "login_page"
           (login_to_py
              {| security_features :=
                   chosen [ (pw, "Password field properly masked");
                            (google, "Google SSO integration") ];
                 ux_issues := [];
                 missing_features :=
                   chosen [ (negb forgot, "Password recovery link");
                            (negb sso, "Enterprise SSO (SAML/OIDC) not visible");
                            (negb mfa, "Multi-factor authentication not visible") ];
                 strengths :=
                   chosen [ (google, "Multiple authentication methods");
                            (forgot, "Password recovery option");
                            (signup, "Clear signup option") ] |}) s.
Proof.
  unfold analyze_login_page, goto, sleep, makedirs, screenshot, query_selector.
  intros H. inv_run.
  match goal with
  | H : with_local _ _ _ _ _ = _ |- _ =>
      apply with_local_ok in H; destruct H as [-> [u H]]
  end.
  inv_run.
  match goal with
  | Hpw : w_query_selector _ _ (dq "input[type='password']") = Ok ?pw,
    Hgoogle : w_query_selector _ _ (dq "[class*='google'], [text*='Google']") = Ok ?google,
    Hforgot : w_query_selector _ _ (dq "a[href*='forgot'], [text*='forgot']") = Ok ?forgot,
    Hsignup : w_query_selector _ _ (dq "a[href*='signup'], [text*='Sign up']") = Ok ?signup,
    Hsso : w_query_selector _ _ (dq "[text*='SSO'], [text*='SAML']") = Ok ?sso,
    Hmfa : w_query_selector _ _ (dq "[text*='MFA'], [text*='2FA']") = Ok ?mfa |- _ =>
      exists pw, google, forgot, signup, sso, mfa;
      clear Hpw Hgoogle Hforgot Hsignup Hsso Hmfa;
      destruct pw, google, forgot, signup, sso, mfa
  end;
    unfold when in *; cbn [negb] in *; inv_run; reflexivity.
Qed.

(** X11.  What [analyze_login_page] stores when it returns: no UX issue is
    ever reported; password recovery is reported once, as a strength or as a
    missing feature; several authentication methods are a strength exactly
    when the Google sign-in is a security feature; and at most two security
    features, three missing features and three strengths are listed. *)
Theorem login_page_findings w s t s' t' :
  analyze_login_page w s t = (Ok tt, s', t') ->
  exists la,
    s' = dict_set "login_page" (login_to_py la) s
    /\ ux_issues la = []
    /\ (In "Password recovery option" (strengths la)
        <-> ~ In "Password recovery link" (missing_features la))
    /\ (In "Multiple authentication methods" (strengths la)
        <-> In "Google SSO integration" (security_features la))
    /\ (List.length (security_features la) <= 2)%nat
    /\ (List.length (missing_features la) <= 3)%nat
    /\ (List.length (strengths la) <= 3)%nat.
Proof.
  intros H. apply login_analysis_shape in H.
  destruct H as (pw & google & forgot & signup & sso & mfa & ->).
  eexists. split; [reflexivity|].
  cbn [ux_issues strengths missing_features security_features].
  split; [reflexivity|].
  destruct pw, google, forgot, signup, sso, mfa; cbn;
    (split; [|split; [|repeat split; lia]]);
    (split; [intros H | intros H]);
    try (intros H'); 
    repeat match goal with
           | H : _ \/ _ |- _ => destruct H
           | H : False |- _ => contradiction
           | H : _ = _ |- _ => discriminate H
           | H : ~ _ |- _ => exfalso; apply H; tauto
           end; tauto.
Qed.

End Login.

(** ** The main application *)

Section MainApplication.
Import AnalyzePlatform.

(** One turn of the loop of [analyze_main_application]: the entry it
    appends, if any, is that of a page that is not a login page, and it
    extends the navigation by at most sixty items. *)
Lemma check_url_growth url w s t :
  exists s' t' xs ns,
    check_url url w s t = (Ok tt, s', t')
    /\ accessible_pages s' = accessible_pages s ++ xs
    /\ (List.length xs <= 1)%nat
    /\ Forall (fun p => ap_url p = url
                        /\ contains "login" (lower (ap_final_url p)) = false) xs
    /\ navigation_structure s' = navigation_structure s ++ ns
    /\ (List.length ns <= 60)%nat
    /\ Forall short_text ns
    /\ (xs = [] -> ns = [])
    /\ inferred_features s' = inferred_features s
    /\ missing_admin_features s' = missing_admin_features s.
Proof.
  unfold check_url, probe_url, goto, sleep, page_url, page_title,
    screenshot, try_except, bind, call, when, modify, ret.
  destruct (w_goto w t url) as [resp|e]; cbv beta iota.
  2:{ eexists _, _, [], []. rewrite !app_nil_r. finish. }
  destruct (w_title w _) as [title|e]; cbv beta iota.
  2:{ eexists _, _, [], []. rewrite !app_nil_r. finish. }
  destruct (contains "login" (lower (w_url w _))) eqn:Hlogin; cbv beta iota.
  { eexists _, _, [], []. rewrite !app_nil_r. finish. }
  change (negb false) with true. cbv beta iota.
  world_call1 w_screenshot.
  2:{ eexists _, _, [_], []. rewrite app_nil_r. split; [reflexivity|].
      cbn [add_accessible_page accessible_pages navigation_structure
             inferred_features missing_admin_features ap_url ap_final_url].
      finish; try (intros; discriminate). }
  match goal with
  | |- context [extract_navigation_items w ?s0 ?t0] =>
      destruct (extract_navigation_items_spec w s0 t0)
        as (items & t1 & -> & Hlen & Hall)
  end.
  cbv beta iota.
  destruct items as [|n l]; cbv beta iota.
  - eexists _, _, [_], []. rewrite app_nil_r. split; [reflexivity|].
    cbn [add_accessible_page accessible_pages navigation_structure
           inferred_features missing_admin_features ap_url ap_final_url].
    finish; try (intros; discriminate).
  - eexists _, _, [_], (n :: l). split; [reflexivity|].
    cbn [add_accessible_page extend_navigation accessible_pages
           navigation_structure inferred_features missing_admin_features
           ap_url ap_final_url].
    finish; try (intros; discriminate).
Qed.

Lemma check_urls_growth l w s t :
  exists s' t' xs ns,
    for_each l check_url w s t = (Ok tt, s', t')
    /\ accessible_pages s' = accessible_pages s ++ xs
    /\ (List.length xs <= List.length l)%nat
    /\ Forall (fun p => In (ap_url p) l
                        /\ contains "login" (lower (ap_final_url p)) = false) xs
    /\ navigation_structure s' = navigation_structure s ++ ns
    /\ (List.length ns <= 60 * List.length l)%nat
    /\ Forall short_text ns
    /\ (xs = [] -> ns = [])
    /\ inferred_features s' = inferred_features s
    /\ missing_admin_features s' = missing_admin_features s.
Proof.
  revert s t. induction l as [|url l IH]; intros s t.
  - exists s, t, [], []. rewrite !app_nil_r. simpl. unfold ret.
    repeat split; auto.
  - cbn [for_each]. unfold bind.
    destruct (check_url_growth url w s t)
      as (s1 & t1 & xs & ns & -> & Hx & Hxl & Hxa & Hn & Hnl & Hna & He & Hi & Hm).
    destruct (IH s1 t1)
      as (s2 & t2 & xs' & ns' & -> & Hx' & Hxl' & Hxa' & Hn' & Hnl' & Hna' & He' & Hi' & Hm').
    exists s2, t2, (xs ++ xs'), (ns ++ ns').
    split; [reflexivity|].
    split; [now rewrite Hx', Hx, app_assoc|].
    split; [rewrite length_app; simpl; lia|].
    split.
    { apply Forall_app. split.
      - eapply Forall_impl; [|exact Hxa]. intros p [<- Hp]. split; [now left|exact Hp].
      - eapply Forall_impl; [|exact Hxa']. intros p [Hin Hp]. split; [now right|exact Hp]. }
    split; [now rewrite Hn', Hn, app_assoc|].
    split; [rewrite length_app; simpl; lia|].
    split; [apply Forall_app; now split|].
    split.
    { intros H. apply app_eq_nil in H. destruct H as [H1 H2].
      now rewrite (He H1), (He' H2). }
    split; congruence.
Qed.

(** X12.  [analyze_main_application] always fills [app_analysis], whatever
    the pages answer.  [missing_admin_features] is the fixed list of
    [infer_admin_requirements] and [inferred_features] stays empty: neither
    reads the pages.  At most four pages are listed, each a URL of the
    enumeration that did not end on a login page; the navigation holds at
    most 240 items, each with a text that is not empty and shorter than 30
    characters, and none when no page is listed. *)
Theorem main_application_bounds (S : Type) (w : world) (s : S) (t : trace) :
  exists a t',
    main_application_analysis w s t = (Ok a, s, t')
    /\ missing_admin_features a = admin_features
    /\ inferred_features a = []
    /\ (List.length (accessible_pages a) <= 4)%nat
    /\ Forall (fun p => In (ap_url p) urls_to_check
                        /\ contains "login" (lower (ap_final_url p)) = false)
              (accessible_pages a)
    /\ (List.length (navigation_structure a) <= 240)%nat
    /\ Forall short_text (navigation_structure a)
    /\ (accessible_pages a = [] -> navigation_structure a = []).
Proof.
  unfold main_application_analysis, with_local, bind.
  destruct (check_urls_growth urls_to_check w
              {| accessible_pages := []; navigation_structure := [];
                 inferred_features := []; missing_admin_features := [] |} t)
    as (a & t' & xs & ns & -> & Hx & Hxl & Hxa & Hn & Hnl & Hna & He & Hi & Hm).
  unfold modify. eexists _, t'. split; [reflexivity|].
  cbn [infer_admin_requirements missing_admin_features inferred_features
         accessible_pages navigation_structure] in *.
  simpl app in Hx, Hn. rewrite Hx, Hn, Hi.
  repeat split; auto.
Qed.

End MainApplication.

Section SelectorLoop.
Import AnalyzePlatform.

Lemma add_nav_item_exact el w items t :
  exists r,
    add_nav_item el w items t = (r, items ++ link_of el, t)
    /\ is_ok r = readable el.
Proof.
  unfold add_nav_item, bind, lift, when, modify, ret, readable, link_of.
  destruct (el_inner_text el) as [raw|e]; cbn [is_ok andb].
  2:{ exists (Raise e). rewrite app_nil_r. split; reflexivity. }
  destruct (el_href el) as [h|e]; cbn [is_ok andb].
  2:{ exists (Raise e). rewrite app_nil_r. split; reflexivity. }
  destruct (truthy (strip raw) && (String.length (strip raw) <? 30)%nat).
  - exists (Ok tt). split; reflexivity.
  - exists (Ok tt). rewrite app_nil_r. split; reflexivity.
Qed.

Lemma elements_loop_exact elements w items t :
  exists r,
    for_each elements add_nav_item w items t
    = (r, items ++ flat_map link_of (take_while readable elements), t)
    /\ (is_ok r = forallb readable elements).
Proof.
  revert items. induction elements as [|el elements IH]; intros items.
  - exists (Ok tt). simpl. rewrite app_nil_r. split; reflexivity.
  - cbn [for_each take_while forallb]. unfold bind at 1.
    destruct (add_nav_item_exact el w items t) as (r & -> & Hr).
    rewrite <- Hr. destruct r as [[]|e]; cbn [is_ok andb flat_map].
    + destruct (IH (items ++ link_of el)) as (r & -> & Hr').
      exists r. rewrite <- app_assoc. split; [reflexivity|exact Hr'].
    + exists (Raise e). split; [|reflexivity]. do 2 f_equal.
      unfold readable, link_of in *.
      destruct (el_inner_text el); [|reflexivity].
      destruct (el_href el); [discriminate Hr|reflexivity].
Qed.

(** X13.  One selector of [extract_navigation_items].  The turn always
    returns after its one query.  When the query raises nothing is added.
    Otherwise the first ten elements are read in order up to the first one
    whose text or link cannot be read: the items of the elements before it
    are added, and no element after it is looked at. *)
Theorem selector_stops_at_failure selector w items t :
  exists added,
    extract_from_selector selector w items t
    = (Ok tt, items ++ added, t ++ [EQuerySelectorAll selector])
    /\ match w_query_selector_all w t selector with
       | Raise _ => added = []
       | Ok elements =>
           added = flat_map link_of (take_while readable (firstn 10 elements))
       end.
Proof.
  unfold extract_from_selector, try_except. unfold bind at 1.
  unfold query_selector_all, call.
  destruct (w_query_selector_all w t selector) as [elements|e].
  - destruct (elements_loop_exact (firstn 10 elements) w items
                (t ++ [EQuerySelectorAll selector])) as (r & -> & _).
    eexists. split; [|reflexivity]. destruct r as [[]|e]; reflexivity.
  - exists []. rewrite app_nil_r. split; reflexivity.
Qed.

End SelectorLoop.

(** ** The public pages *)

Section PublicInsights.
Import AnalyzePlatform.

Lemma check_public_url_insights url w s t :
  exists s' t' ins,
    check_public_url url w s t = (Ok tt, s', t')
    /\ platform_insights s' = platform_insights s ++ ins
    /\ (ins = [] \/ ins = [url])
    /\ (insights_accessible s -> insights_accessible s').
Proof.
  unfold check_public_url, probe_public_url, goto, page_url, page_title,
    inner_text, try_except, bind, call, when, modify, ret.
  assert (Hgrow : forall c p, insights_accessible p -> insights_accessible (add_content c p)).
  { intros c p H u Hu. destruct (H u Hu) as [title Hin]. exists title.
    cbn [add_content accessible_content]. apply in_or_app. now left. }
  destruct (w_goto w t url) as [resp|e]; cbv beta iota.
  2:{ eexists _, _, []. rewrite app_nil_r. split; [reflexivity|].
      split; [reflexivity|]. split; [now left|apply Hgrow]. }
  destruct (contains "login" (lower (w_url w _))).
  { change (negb true) with false. cbv beta iota.
    eexists _, _, []. rewrite app_nil_r. split; [reflexivity|].
    split; [reflexivity|]. split; [now left|auto]. }
  change (negb false) with true. cbv beta iota.
  world_call w_title.
  2:{ eexists _, _, []. rewrite app_nil_r. split; [reflexivity|].
      split; [reflexivity|]. split; [now left|apply Hgrow]. }
  world_call1 w_inner_text.
  2:{ eexists _, _, []. rewrite app_nil_r. split; [reflexivity|].
      split; [reflexivity|]. split; [now left|].
      intros H. now apply Hgrow, Hgrow. }
  match goal with
  | H : w_inner_text w ?t0 "body" = Ok ?body |- _ =>
      change (contains "admin" (lower (String.substring 0 1000 body))
              || contains "manage" (lower (String.substring 0 1000 body)))
        with (mentions_admin body);
      destruct (mentions_admin body) eqn:Hm; cbv beta iota
  end.
  - eexists _, _, [url]. split; [reflexivity|]. split; [reflexivity|].
    split; [now right|].
    intros H u Hu. cbn [add_insight add_content platform_insights accessible_content] in *.
    apply in_app_or in Hu. destruct Hu as [Hu|[<-|[]]].
    + destruct (H u Hu) as [title Hin]. exists title. apply in_or_app. now left.
    + eexists. apply in_or_app. right. now left.
  - eexists _, _, []. rewrite app_nil_r. split; [reflexivity|].
    split; [reflexivity|]. split; [now left|apply Hgrow].
Qed.

Lemma optional_items_nodup {A} (l : list A) (xss : list (list A)) :
  Forall2 (fun a xs => xs = [] \/ xs = [a]) l xss ->
  NoDup l ->
  NoDup (concat xss) /\ forall u, In u (concat xss) -> In u l.
Proof.
  induction 1 as [|a xs l xss Hxs HF IH]; intros Hnd.
  - split; [constructor|contradiction].
  - inversion Hnd as [|? ? Ha Hl]; subst. destruct (IH Hl) as [IH1 IH2].
    destruct Hxs as [->| ->]; simpl.
    + split; [exact IH1|]. intros u Hu. right. now apply IH2.
    + split.
      * constructor; [|exact IH1]. intros Hin. apply Ha. now apply IH2.
      * intros u [<-|Hu]; [now left|right; now apply IH2].
Qed.

(** The insights of the loop of [check_public_pages], turn by turn. *)
Lemma public_loop_insights w s t :
  exists s' d ins,
    for_each public_urls check_public_url w s t = (Ok tt, s', t ++ d)
    /\ gotos d = public_urls
    /\ platform_insights s' = platform_insights s ++ ins
    /\ forall u pre post,
        d = pre ++ EGoto u :: post ->
        (In u ins <->
         exists body,
           is_ok (w_goto w (t ++ pre) u) = true
           /\ contains "login" (lower (w_url w ((t ++ pre) ++ [EGoto u]))) = false
           /\ is_ok (w_title w ((t ++ pre) ++ [EGoto u])) = true
           /\ w_inner_text w ((t ++ pre) ++ [EGoto u; ETitle]) "body" = Ok body
           /\ mentions_admin body = true).
Proof.
  destruct (for_each_chain
              (fun url s0 t0 s1 t1 =>
                 exists rest ins,
                   t1 = t0 ++ EGoto url :: rest
                   /\ Forall stays rest
                   /\ platform_insights s1 = platform_insights s0 ++ ins
                   /\ Forall (fun u => u = url) ins
                   /\ (ins = [] \/ ins = [url])
                      /\ (ins = [url] <->
                          exists body,
                            is_ok (w_goto w t0 url) = true
                            /\ contains "login" (lower (w_url w (t0 ++ [EGoto url]))) = false
                            /\ is_ok (w_title w (t0 ++ [EGoto url])) = true
                            /\ w_inner_text w (t0 ++ [EGoto url; ETitle]) "body" = Ok body
                            /\ mentions_admin body = true))
              check_public_url w) with (l := public_urls) (s := s) (t := t)
    as (s' & t' & Heq & Hchain).
  { intros url s0 t0.
    destruct (check_public_url_insight url w s0 t0)
      as (s1 & t1 & rest & ins & H1 & H2 & H3 & H4 & H5 & H6 & H7).
    exists s1, t1. split; [exact H1|]. exists rest, ins. auto 10. }
  destruct (chain_entries platform_insights (fun u : string => u)
              (fun url t0 ins =>
                 (ins = [] \/ ins = [url])
                 /\ (ins = [url] <->
                     exists body,
                       is_ok (w_goto w t0 url) = true
                       /\ contains "login" (lower (w_url w (t0 ++ [EGoto url]))) = false
                       /\ is_ok (w_title w (t0 ++ [EGoto url])) = true
                       /\ w_inner_text w (t0 ++ [EGoto url; ETitle]) "body" = Ok body
                       /\ mentions_admin body = true))
              public_urls s t s' t' Hchain NoDup_public_urls)
    as (d & ins & -> & Hg & Hp & _ & Hall).
  exists s', d, ins. split; [exact Heq|]. split; [exact Hg|]. split; [exact Hp|].
  intros u pre post Hd. destruct (Hall u pre post Hd) as [Hshape Hiff].
  rewrite <- Hiff. split.
  - intros Hin.
    assert (Hf : In u (filter (fun x => String.eqb x u) ins))
      by (apply filter_In; split; [exact Hin|apply String.eqb_refl]).
    destruct Hshape as [E|E]; [rewrite E in Hf; contradiction|exact E].
  - intros E.
    assert (Hf : In u (filter (fun x => String.eqb x u) ins))
      by (rewrite E; now left).
    apply filter_In in Hf. apply Hf.
Qed.

(** X14.  [check_public_pages] always fills [public_analysis], after one
    navigation to each public URL, in order.  A URL is listed in
    [platform_insights] at most once, is one of the six public URLs and
    has an entry of an accessible page in [accessible_content].  It is
    listed exactly when, in its own turn, the navigation returned, the
    URL read after it does not contain [login], the title was read, and
    the first 1000 characters of the body read after the title mention
    [admin] or [manage]: [pre] are the calls the loop made before it
    navigated to the URL. *)
Theorem public_insights_spec (S : Type) (w : world) (s : S) (t : trace) :
  exists a d,
    public_pages_analysis w s t = (Ok a, s, t ++ d)
    /\ gotos d = public_urls
    /\ NoDup (platform_insights a)
    /\ (List.length (platform_insights a) <= 6)%nat
    /\ (forall u,
           In u (platform_insights a) ->
           In u public_urls
           /\ exists title, In (Accessible u title) (accessible_content a))
    /\ forall u pre post,
        d = pre ++ EGoto u :: post ->
        let shown := t ++ pre ++ [EGoto u] in
        (In u (platform_insights a) <->
         exists body,
           is_ok (w_goto w (t ++ pre) u) = true
           /\ contains "login" (lower (w_url w shown)) = false
           /\ is_ok (w_title w shown) = true
           /\ w_inner_text w (shown ++ [ETitle]) "body" = Ok body
           /\ mentions_admin body = true).
Proof.
  unfold public_pages_analysis, with_local.
  set (init := {| accessible_content := []; platform_insights := [] |}).
  destruct (for_each_appends
              platform_insights
              (fun url xs => xs = [] \/ xs = [url])
              check_public_url w) with
    (l := public_urls) (s := init) (t := t) as (a & t' & xss & Heq & Hp & HF).
  { intros url s0 t0.
    destruct (check_public_url_insights url w s0 t0) as (s1 & t1 & ins & H1 & H2 & H3 & _).
    exists s1, t1, ins. auto. }
  assert (Hbody : forall url s0 t0,
             insights_accessible s0 ->
             insights_accessible (store_of (check_public_url url w s0 t0))).
  { intros url s0 t0 H.
    destruct (check_public_url_insights url w s0 t0)
      as (s1 & t1 & ins & H1 & _ & _ & H4).
    rewrite H1. exact (H4 H). }
  assert (Hinv : insights_accessible init -> insights_accessible
            (store_of (for_each public_urls check_public_url w init t)))
    by (apply for_each_invariant; exact Hbody).
  destruct (public_loop_insights w init t) as (a2 & d & ins & Heq2 & Hg & Hp2 & Hlisted).
  rewrite Heq in Heq2. injection Heq2 as <- ->.
  rewrite Heq in *. cbn [store_of fst snd] in Hinv.
  assert (Ha : insights_accessible a) by (apply Hinv; intros u []).
  destruct (optional_items_nodup _ _ HF NoDup_public_urls) as [Hnd Hin].
  simpl in Hp, Hp2.
  exists a, d. split; [reflexivity|]. split; [exact Hg|].
  split; [rewrite Hp; exact Hnd|]. split; [|split].
  - rewrite Hp. change 6%nat with (List.length public_urls).
    apply (NoDup_incl_length Hnd). intros u Hu. now apply Hin.
  - intros u Hu. split; [|now apply Ha].
    rewrite Hp in Hu. now apply Hin.
  - intros u pre post Hd. cbv zeta.
    replace (t ++ pre ++ [EGoto u]) with ((t ++ pre) ++ [EGoto u])
      by (rewrite <- app_assoc; reflexivity).
    replace (((t ++ pre) ++ [EGoto u]) ++ [ETitle])
      with ((t ++ pre) ++ [EGoto u; ETitle])
      by (rewrite <- !app_assoc; reflexivity).
    rewrite Hp2. apply (Hlisted u pre post Hd).
Qed.

End PublicInsights.

(** ** The admin script *)

Section Features.
Import AnalyzeAdmin.

(** X15.  The search of one feature: it never raises; it queries the
    selectors in order and stops at the first that matches, which is the
    only one queried that does. *)
Theorem find_feature_spec selectors w s t :
  exists found tried,
    find_feature selectors w s t
    = (Ok found, s, t ++ map EQuerySelectorAll tried)
    /\ (exists rest, selectors = tried ++ rest)
    /\ (found = false -> tried = selectors)
    /\ (found = true -> tried <> [])
    /\ (forall pre sel post,
           tried = pre ++ sel :: post ->
           matches w (t ++ map EQuerySelectorAll pre) sel = found && is_nil post).
Proof.
  revert t. induction selectors as [|sel rest IH]; intros t.
  - exists false, []. simpl. rewrite app_nil_r. unfold ret.
    split; [reflexivity|]. split; [now exists []|]. split; [reflexivity|].
    split; [discriminate|].
    intros [|? ?] ? ? H; discriminate H.
  - cbn [find_feature]. unfold bind at 1, try_except, bind at 1,
      query_selector_all, call, ret at 1 2.
    assert (Hm : matches w t sel
                 = match w_query_selector_all w t sel with
                   | Ok (_ :: _) => true | _ => false end) by reflexivity.
    destruct (w_query_selector_all w t sel) as [[|el els]|e]; cbv beta iota.
    2:{ exists true, [sel]. unfold ret. split; [reflexivity|].
        split; [now exists rest|]. split; [discriminate|].
        split; [discriminate|].
        intros [|x pre] sel' post H.
        - injection H as <- <-. simpl. now rewrite app_nil_r.
        - injection H as _ H. destruct pre; discriminate H. }
    all: destruct (IH (t ++ [EQuerySelectorAll sel]))
        as (found & tried & Heq & [rest' Hpre] & Hall & Hne & Hmatch);
      exists found, (sel :: tried); rewrite Heq; cbn [map];
      rewrite <- app_assoc; (split; [reflexivity|]);
      (split; [exists rest'; now rewrite Hpre|]);
      (split; [intros Hf; now rewrite (Hall Hf)|]);
      (split; [discriminate|]);
      intros [|x pre] sel' post H;
      [ injection H as <- <-; simpl; rewrite app_nil_r, Hm;
        destruct found; [|reflexivity];
        destruct tried; [now contradiction Hne|reflexivity]
      | injection H as <- H; cbn [map];
        rewrite <- (Hmatch pre sel' post H), <- app_assoc; reflexivity ].
Qed.

Lemma find_feature_queries selectors w s t :
  selectors <> [] ->
  exists found d,
    find_feature selectors w s t = (Ok found, s, t ++ d)
    /\ (1 <= List.length d <= List.length selectors)%nat
    /\ Forall (fun e => exists sel, e = EQuerySelectorAll sel /\ In sel selectors) d.
Proof.
  assert (H : forall t0,
             exists found d,
               find_feature selectors w s t0 = (Ok found, s, t0 ++ d)
               /\ (List.length d <= List.length selectors)%nat
               /\ (selectors <> [] -> 1 <= List.length d)%nat
               /\ Forall (fun e => exists sel,
                             e = EQuerySelectorAll sel /\ In sel selectors) d).
  { induction selectors as [|sel rest IH]; intros t0.
    - exists false, []. simpl. rewrite app_nil_r.
      repeat split; auto. intros []. reflexivity.
    - cbn [find_feature]. unfold bind at 1, try_except, bind at 1,
        query_selector_all, call, ret at 1 2.
      destruct (w_query_selector_all w t0 sel) as [[|el els]|e]; cbv beta iota.
      2:{ exists true, [EQuerySelectorAll sel]. unfold ret.
          split; [reflexivity|]. simpl. split; [lia|]. split; [lia|].
          constructor; [|constructor]. exists sel. split; [reflexivity|now left]. }
      all: destruct (IH (t0 ++ [EQuerySelectorAll sel])) as (found & d & Heq & Hlen & _ & Hall);
        exists found, (EQuerySelectorAll sel :: d); rewrite Heq, <- app_assoc;
        (split; [reflexivity|]); simpl; (split; [lia|]); (split; [lia|]);
        (constructor; [exists sel; split; [reflexivity|now left]|]);
        (eapply Forall_impl; [|exact Hall]);
        intros e0 (x & -> & Hx); exists x; split; [reflexivity|now right]. }
  intros Hne. destruct (H t) as (found & d & Heq & Hlen & Hone & Hall).
  exists found, d. split; [exact Heq|]. split; [|exact Hall].
  split; [exact (Hone Hne)|exact Hlen].
Qed.

(** X16.  [analyze_admin_features] never raises, whatever the page answers:
    for each of the ten features it makes at least one query and at most one
    per selector of the feature, so between 10 and 22 in all, and no other
    call. *)
Theorem admin_features_never_raise w s t :
  exists blocks,
    analyze_admin_features w s t = (Ok tt, s, t ++ concat blocks)
    /\ Forall2 (fun fs d =>
                  (1 <= List.length d <= List.length (snd fs))%nat
                  /\ Forall (fun e => exists sel,
                                e = EQuerySelectorAll sel /\ In sel (snd fs)) d)
               feature_selectors blocks
    /\ (10 <= List.length (concat blocks) <= 22)%nat.
Proof.
  unfold analyze_admin_features.
  assert (Hne : Forall (fun fs : string * list string => snd fs <> []) feature_selectors)
    by (repeat constructor; discriminate).
  assert (Hloop : forall l t0,
             Forall (fun fs : string * list string => snd fs <> []) l ->
             exists blocks,
               for_each l (fun fs => bind (find_feature (snd fs)) (fun _ => ret tt)) w s t0
               = (Ok tt, s, t0 ++ concat blocks)
               /\ Forall2 (fun fs d =>
                             (1 <= List.length d <= List.length (snd fs))%nat
                             /\ Forall (fun e => exists sel,
                                           e = EQuerySelectorAll sel /\ In sel (snd fs)) d)
                          l blocks).
  { induction l as [|fs l IH]; intros t0 Hl.
    - exists []. simpl. rewrite app_nil_r. split; [reflexivity|constructor].
    - inversion Hl as [|? ? Hfs Hl']; subst.
      destruct (find_feature_queries (snd fs) w s t0 Hfs) as (found & d & Heq & Hd).
      destruct (IH (t0 ++ d) Hl') as (blocks & Heq' & HF).
      exists (d :: blocks). cbn [for_each]. unfold bind at 1, bind at 1.
      rewrite Heq. unfold ret at 1. cbv beta iota. rewrite Heq'.
      simpl. rewrite app_assoc. split; [reflexivity|]. constructor; assumption. }
  destruct (Hloop feature_selectors t Hne) as (blocks & Heq & HF).
  exists blocks. split; [exact Heq|]. split; [exact HF|].
  unfold feature_selectors in HF. invert_Forall2.
  repeat match goal with H : _ /\ Forall _ _ |- _ => destruct H as [? _] end.
  simpl in *. rewrite !length_app. simpl. lia.
Qed.

End Features.

Section AdminScript.
Import AnalyzeAdmin.

Lemma visit_admin_raises w s t msg s1 t1 :
  visit_admin w s t = (Raise msg, s1, t1) ->
  exists t0,
    t1 = t0 ++ [EScreenshot "screenshots/error_page.png"]
    /\ w_screenshot w t0 "screenshots/error_page.png" = Raise msg.
Proof.
  unfold visit_admin, try_except.
  match goal with
  | |- context [match ?m w s t with _ => _ end] =>
      destruct (m w s t) as [[[[]|e] s0] t0]
  end.
  - discriminate.
  - unfold screenshot, call. intros H. injection H as H <- <-.
    exists t0. split; [reflexivity|exact H].
Qed.

(** X17.  The handler of [analyze_ellaai_admin] swallows what the visit
    raises, unless its own screenshot raises: an exception leaves the [try]
    statement only from that screenshot, whose message it bears.  After a
    navigation that fails nothing is attempted but that screenshot.  So,
    once the browser, its context and its page are there, the script exits
    with 0 whenever the error screenshot and the closing of the browser
    return. *)
Theorem admin_visit_errors :
  (forall w s t msg s1 t1,
      visit_admin w s t = (Raise msg, s1, t1) ->
      exists t0,
        t1 = t0 ++ [EScreenshot "screenshots/error_page.png"]
        /\ w_screenshot w t0 "screenshots/error_page.png" = Raise msg)
  /\ (forall w s t msg,
         w_goto w t "https://ellaai-platform-prod.web.app/admin" = Raise msg ->
         visit_admin w s t
         = (w_screenshot w (t ++ [EGoto "https://ellaai-platform-prod.web.app/admin"])
                         "screenshots/error_page.png",
            s,
            t ++ [EGoto "https://ellaai-platform-prod.web.app/admin";
                  EScreenshot "screenshots/error_page.png"]))
  /\ (forall w,
         w_launch w [] = Ok tt ->
         w_new_context w [ELaunch] = Ok tt ->
         w_new_page w [ELaunch; ENewContext] = Ok tt ->
         (forall t, w_screenshot w t "screenshots/error_page.png" = Ok tt) ->
         (forall t, w_close w t = Ok tt) ->
         fst (script w) = 0%Z).
Proof.
  split; [exact visit_admin_raises|]. split.
  - intros w s t msg H. unfold visit_admin, try_except.
    unfold bind at 1, goto, call at 1. rewrite H.
    unfold screenshot, call. rewrite <- app_assoc. reflexivity.
  - intros w Hl Hc Hp Hshot Hclose.
    unfold script, analyze_ellaai_admin, bind, launch, new_context, new_page,
      call at 1 2 3.
    simpl app. rewrite Hl, Hc, Hp. unfold try_finally.
    destruct (visit_admin w tt [ELaunch; ENewContext; ENewPage])
      as [[[[]|e] s1] t1] eqn:Hv.
    + unfold close, call. now rewrite Hclose.
    + apply visit_admin_raises in Hv. destruct Hv as (t0 & _ & Hv).
      rewrite Hshot in Hv. discriminate.
Qed.

End AdminScript.

(** ** When a report is written *)

Lemma writes_app t d : writes (t ++ d) = writes t ++ writes d.
Proof. apply filter_app. Qed.

Lemma reads_writes d : Forall reads d -> writes d = [].
Proof.
  induction 1 as [|e d He _ IH]; [reflexivity|].
  unfold writes in *. simpl. now rewrite He.
Qed.

Ltac count_writes HP :=
  cbn [trace_of snd]; rewrite !writes_app, (reads_writes _ HP);
  cbn [writes filter is_write]; rewrite ?app_nil_r, <- ?app_assoc;
  try reflexivity.

Lemma comprehensive_collect_reads : emits reads Comprehensive.collect.
Proof.
  unfold Comprehensive.collect,
    Comprehensive.analyze_main_application,
    Comprehensive.analyze_admin_interface, Comprehensive.analyze_admin_page,
    Comprehensive.probe_admin_page,
    Comprehensive.test_service_connectivity,
    Comprehensive.test_form_functionality,
    Comprehensive.take_screenshot, Comprehensive.extract_design_tokens,
    goto, screenshot, wait_for_timeout, evaluate, locator_count, click, now.
  repeat emits_step; reflexivity.
Qed.

Lemma platform_collect_reads : emits reads AnalyzePlatform.collect.
Proof.
  unfold AnalyzePlatform.collect,
    AnalyzePlatform.analyze_login_page,
    AnalyzePlatform.analyze_main_application,
    AnalyzePlatform.main_application_analysis,
    AnalyzePlatform.check_url, AnalyzePlatform.probe_url,
    AnalyzePlatform.extract_navigation_items,
    AnalyzePlatform.extract_from_selector, AnalyzePlatform.add_nav_item,
    AnalyzePlatform.check_public_pages,
    AnalyzePlatform.public_pages_analysis, AnalyzePlatform.check_public_url,
    AnalyzePlatform.probe_public_url,
    goto, sleep, page_title, makedirs, screenshot, query_selector,
    query_selector_all, inner_text.
  repeat emits_step; reflexivity.
Qed.

(** X18.  No partial report.  In both pipelines a report file is opened only
    when every step that fills the results has returned, and the JSON
    written is then that of the whole results.  In the comprehensive script
    nothing is written when a step or the creation of the directory
    raises; otherwise the JSON report is written, and the Markdown summary
    follows exactly when the writing of the JSON returned.  In the platform
    script the JSON report is the only file, and nothing at all is written
    when the navigation to the login page raises. *)
Theorem no_partial_report :
  (forall w s t,
      let written := writes (trace_of (Comprehensive.stages w s t)) in
      match Comprehensive.collect w s t with
      | (Raise _, _, _) => written = writes t
      | (Ok _, s1, t1) =>
          let report_path :=
            ("./analysis/comprehensive_ellaai_analysis_"
             ++ dt_stamp (w_now w t1) ++ ".json")%string in
          let markdown_path :=
            ("./analysis/ellaai_analysis_summary_"
             ++ dt_stamp (w_now w t1) ++ ".md")%string in
          let report := json_dump_default_str (PDict s1) in
          match w_makedirs w (t1 ++ [ENow]) "./analysis" with
          | Raise _ => written = writes t
          | Ok _ =>
              match w_write w (t1 ++ [ENow; EMakedirs "./analysis"]) report_path with
              | Raise _ => written = writes t ++ [EDumpJson report_path report]
              | Ok _ =>
                  written
                  = writes t ++ [EDumpJson report_path report;
                                 EWriteText markdown_path]
              end
          end
      end)
  /\ (forall w t,
         writes (trace_of (AnalyzePlatform.analysis w AnalyzePlatform.initial_results t))
         = writes t
         \/ exists s1 t1 j,
             AnalyzePlatform.collect w AnalyzePlatform.initial_results t
             = (Ok tt, s1, t1)
             /\ json_dump (PDict s1) = Ok j
             /\ writes (trace_of (AnalyzePlatform.analysis w
                                    AnalyzePlatform.initial_results t))
                = writes t ++ [EDumpJson AnalyzePlatform.report_path j])
  /\ (forall w t msg,
         w_goto w t "https://ellaai-platform-prod.web.app/login" = Raise msg ->
         writes (trace_of (AnalyzePlatform.analysis w AnalyzePlatform.initial_results t))
         = writes t).
Proof.
  split; [|split].
  - intros w s t. cbv zeta. unfold Comprehensive.stages, bind.
    destruct (comprehensive_collect_reads w s t) as [d [Hd HP]].
    destruct (Comprehensive.collect w s t) as [[[[]|e] s1] t1] eqn:Hc;
      cbn [trace_of snd] in Hd; subst t1.
    2:{ count_writes HP. }
    unfold Comprehensive.generate_report, bind, now, makedirs, get, call, ret.
    cbv beta iota zeta.
    destruct (w_makedirs w _ _) as [[]|e]; cbv beta iota.
    2:{ count_writes HP. }
    rewrite <- !app_assoc. cbn [app].
    destruct (w_write w _ _) as [[]|e]; cbv beta iota.
    + destruct (w_write w _ _) as [[]|e]; cbv beta iota; count_writes HP.
    + count_writes HP.
  - intros w t. unfold AnalyzePlatform.analysis, bind.
    destruct (platform_collect_reads w AnalyzePlatform.initial_results t) as [d [Hd HP]].
    destruct (AnalyzePlatform.collect w AnalyzePlatform.initial_results t)
      as [[[[]|e] s1] t1] eqn:Hc; cbn [trace_of snd] in Hd; subst t1.
    2:{ left. count_writes HP. }
    pose proof (native_platform_report _ _ _ _ Hc) as Hn.
    unfold AnalyzePlatform.generate_report, bind, makedirs, get, call.
    destruct (w_makedirs w _ _) as [[]|e]; cbv beta iota.
    2:{ left. count_writes HP. }
    rewrite (json_dump_native _ Hn).
    right. exists s1, (t ++ d), (json_dump_default_str (PDict s1)).
    split; [reflexivity|]. split; [now apply json_dump_native|].
    count_writes HP.
  - intros w t msg H.
    unfold AnalyzePlatform.analysis, AnalyzePlatform.collect,
      AnalyzePlatform.analyze_login_page.
    unfold bind at 1 2 3, goto, call at 1. rewrite H.
    cbn [trace_of snd]. rewrite writes_app. cbn [writes filter is_write].
    now rewrite app_nil_r.
Qed.

(** ** The layout of the reports *)

(** X19.  The report of the platform script, when steps 1 to 3 have
    returned, has the same layout in every world: the three keys
    [analyze_platform] starts with followed by [public_pages], and under
    each of the three sections that are filled the keys its function starts
    with. *)
Theorem platform_report_layout :
  forall w t s' t',
    AnalyzePlatform.collect w AnalyzePlatform.initial_results t = (Ok tt, s', t') ->
    keys s' = [ "login_page"; "main_application"; "recommendations"; "public_pages" ]
    /\ section_keys "login_page" s'
       = Some [ "security_features"; "ux_issues"; "missing_features"; "strengths" ]
    /\ section_keys "main_application" s'
       = Some [ "accessible_pages"; "navigation_structure"; "inferred_features";
                "missing_admin_features" ]
    /\ section_keys "public_pages" s'
       = Some [ "accessible_content"; "platform_insights" ]
    /\ nested_get "main_application" "inferred_features" s' = Some (PList []).
Proof.
  intros w t s' t' H. apply platform_collect_shape in H.
  destruct H as (la & app & pa & -> & Hi).
  split; [reflexivity|]. split; [reflexivity|]. split; [reflexivity|].
  split; [reflexivity|].
  unfold nested_get. cbn. now rewrite Hi.
Qed.

(** X20.  What the comprehensive script never fills.  In every report whose
    steps 1 to 4 have returned, [design_analysis] is the empty dict
    [__init__] put there; under [admin_interface] only [pages] is filled,
    [navigation_structure], [connectivity_issues] and [functionality_tests]
    being as [analyze_admin_interface] created them; and the [errors] of
    [service_connectivity] is the empty list. *)
Theorem unfilled_sections :
  forall w now t s' t',
    Comprehensive.collect w (Comprehensive.initial_results now) t = (Ok tt, s', t') ->
    dict_get "design_analysis" s' = Some (PDict [])
    /\ section_keys "admin_interface" s'
       = Some [ "pages"; "navigation_structure"; "connectivity_issues";
                "functionality_tests" ]
    /\ nested_get "admin_interface" "navigation_structure" s' = Some (PDict [])
    /\ nested_get "admin_interface" "connectivity_issues" s' = Some (PList [])
    /\ nested_get "admin_interface" "functionality_tests" s' = Some (PDict [])
    /\ nested_get "service_connectivity" "errors" s' = Some (PList [])
    /\ dict_get "timestamp" s' = Some (PStr (dt_iso now)).
Proof.
  intros w now t s' t' H. apply collect_shape in H.
  destruct H as (m & a & c & -> & _ & _ & _ & Hc).
  split; [reflexivity|]. split; [reflexivity|]. split; [reflexivity|].
  split; [reflexivity|]. split; [reflexivity|]. split; [|reflexivity].
  unfold nested_get. cbn. now rewrite Hc.
Qed.

(** ** Runs in the worlds above *)

(** The connectivity test in the busy world.  Of the twelve requests of
    the navigation the last ten are kept, from the third on.  The third
    was answered during the navigation; the twelfth was answered while
    the Firebase script was evaluated, and its item holds that status;
    the request made during the script is not kept. *)
Lemma service_connectivity_spec_witness :
  exists c,
    result_of (Comprehensive.test_service_connectivity busy_world tt []) = Ok c
    /\ map request_part (Comprehensive.api_calls c)
       = Comprehensive.lastn 10 (requests_of (map api_request (seq 1 12)))
    /\ map Comprehensive.nr_status (Comprehensive.api_calls c)
       = [ Some 200%Z; None; None; None; None; None; None; None; None;
           Some 503%Z ].
Proof.
  destruct (Comprehensive.test_service_connectivity busy_world tt [])
    as [[[c|e] s'] t'] eqn:Hrun; [|vm_compute in Hrun; discriminate Hrun].
  exists c. split; [reflexivity|].
  destruct (service_connectivity_spec unit busy_world tt [] c s' t' Hrun)
    as (_ & Ht & Hc & Hreq & _).
  subst t'. split.
  - rewrite Hreq. vm_compute. reflexivity.
  - rewrite Hc. vm_compute. reflexivity.
Defined.

(** The login page in the quiet world, where no selector matches. *)
Lemma login_page_findings_witness :
  exists la,
    store_of (AnalyzePlatform.analyze_login_page quiet_world
                AnalyzePlatform.initial_results [])
    = dict_set "login_page" (AnalyzePlatform.login_to_py la)
               AnalyzePlatform.initial_results
    /\ AnalyzePlatform.ux_issues la = []
    /\ (List.length (AnalyzePlatform.missing_features la) <= 3)%nat.
Proof.
  destruct (login_page_findings quiet_world AnalyzePlatform.initial_results []
              (store_of (AnalyzePlatform.analyze_login_page quiet_world
                           AnalyzePlatform.initial_results []))
              (trace_of (AnalyzePlatform.analyze_login_page quiet_world
                           AnalyzePlatform.initial_results [])))
    as (la & Hs & Hux & _ & _ & _ & Hm & _).
  - vm_compute. reflexivity.
  - exists la. split; [exact Hs|]. split; [exact Hux|exact Hm].
Defined.

(** The probe of the first admin page in the quiet world: the page
    answers 200 and shows no 404 text. *)
Lemma probe_record_spec_witness :
  exists r,
    store_of (Comprehensive.probe_admin_page "/admin" quiet_world
                {| Comprehensive.pages := [] |} [])
    = Comprehensive.set_page "/admin" (Comprehensive.Probed r)
                             {| Comprehensive.pages := [] |}
    /\ Comprehensive.status_code r = 200%Z
    /\ Comprehensive.is_error r = false.
Proof.
  destruct (probe_record_spec "/admin" quiet_world
              {| Comprehensive.pages := [] |} []
              (store_of (Comprehensive.probe_admin_page "/admin" quiet_world
                           {| Comprehensive.pages := [] |} []))
              (trace_of (Comprehensive.probe_admin_page "/admin" quiet_world
                           {| Comprehensive.pages := [] |} [])))
    as (r & response & n404 & Hs & Hgoto & Hst & Hcount & Herr & _).
  - vm_compute. reflexivity.
  - exists r. split; [exact Hs|].
    injection Hgoto as <-. injection Hcount as <-.
    split; [exact Hst|]. apply Herr. rewrite Hst. split; [lia|reflexivity].
Defined.

(** The admin script in the world without network: the navigation
    raises, the error screenshot is taken, and the script exits
    with 0. *)
Lemma admin_visit_errors_witness :
  fst (AnalyzeAdmin.script dead_world) = 0%Z.
Proof.
  apply (proj2 (proj2 admin_visit_errors) dead_world); intros; reflexivity.
Defined.

(** The comprehensive script in the world whose disk is full: the JSON
    report is opened, its writing raises, and the Markdown summary is
    not written. *)
Lemma no_partial_report_witness :
  exists report,
    writes (trace_of (Comprehensive.stages full_disk_world
                        (Comprehensive.initial_results new_year) []))
    = [ EDumpJson "./analysis/comprehensive_ellaai_analysis_20250101_000000.json"
                  report ].
Proof.
  pose proof (proj1 no_partial_report full_disk_world
                (Comprehensive.initial_results new_year) []) as H.
  cbv zeta in H.
  destruct (Comprehensive.collect full_disk_world
              (Comprehensive.initial_results new_year) [])
    as [[[[]|e] s1] t1] eqn:Hc; [|vm_compute in Hc; discriminate Hc].
  change (w_makedirs full_disk_world (t1 ++ [ENow]) "./analysis")
    with (@Ok unit tt) in H.
  cbv beta iota in H.
  match type of H with
  | match ?x with _ => _ end =>
      change x with (@Raise unit "No space left on device") in H
  end.
  cbv beta iota in H. eexists. exact H.
Defined.

(** An admin interface whose one page could not be probed, against the
    main application of the quiet world: the summary reports no design
    gap. *)
Lemma design_gaps_summary_witness :
  Comprehensive._format_design_gaps
    (Comprehensive.compare_designs
       {| Comprehensive.ma_screenshot_path := "main.png";
          Comprehensive.ma_page_structure :=
            Comprehensive.page_structure_script blank_document;
          Comprehensive.ma_design_tokens :=
            Comprehensive.design_tokens_script blank_document;
          Comprehensive.ma_is_login_page := false;
          Comprehensive.ma_timestamp := dt_iso new_year |}
       {| Comprehensive.pages :=
            [ ("/admin", Comprehensive.Failed "net::ERR_NAME_NOT_RESOLVED") ] |})
  = "No significant design gaps identified.".
Proof.
  apply (proj2 (design_gaps_summary _ _)).
  intros path e [H|[]]. injection H as _ <-. eexists. reflexivity.
Defined.

(** The trimmed value of a custom property of [themed_document]. *)
Lemma css_variables_spec_witness :
  In "--primary"
     (keys (Comprehensive.cssVariables
              (Comprehensive.design_tokens_script themed_document)))
  /\ trimmed js_is_space "#1976d2".
Proof.
  split.
  - apply (proj1 (proj2 (css_variables_spec themed_document)) "--primary").
    split; [simpl; auto|reflexivity].
  - apply (proj2 (proj2 (css_variables_spec themed_document)) "--primary" "#1976d2").
    vm_compute. auto.
Defined.

(** The second of the two buttons of [themed_document] has its own
    entry. *)
Lemma element_styles_spec_witness :
  nth_error (Comprehensive.elementStyles
               (Comprehensive.design_tokens_script themed_document)) 1
  = Some (Comprehensive.element_style 1 text_button).
Proof.
  apply (proj1 (proj2 (element_styles_spec themed_document)) 1%nat text_button).
  reflexivity.
Defined.

(** The screenshot of the main page in the quiet world. *)
Lemma screenshot_names_witness :
  result_of (Comprehensive.take_screenshot "main_dashboard" quiet_world tt [])
  = Ok "./screenshots/analysis/main_dashboard_20250101_000000.png"
  /\ trace_of (Comprehensive.take_screenshot "main_dashboard" quiet_world tt [])
     = [] ++ [ENow; EScreenshot "./screenshots/analysis/main_dashboard_20250101_000000.png"].
Proof.
  split; [reflexivity|].
  apply (proj2 (proj2 screenshot_names) unit "main_dashboard" quiet_world tt []
           "./screenshots/analysis/main_dashboard_20250101_000000.png"
           tt
           (trace_of (Comprehensive.take_screenshot "main_dashboard" quiet_world tt []))).
  vm_compute. reflexivity.
Defined.

(** A response to a URL that was not requested. *)
Lemma network_log_witness :
  Comprehensive.handle_response "https://ellaai-platform-prod.web.app/favicon.ico"
    200%Z new_year
    (fold_left Comprehensive.handle
       [ NetRequest "https://ellaai-platform-prod.web.app/admin" "GET" new_year ] [])
  = fold_left Comprehensive.handle
      [ NetRequest "https://ellaai-platform-prod.web.app/admin" "GET" new_year ] [].
Proof.
  apply (proj2 (proj2 (proj2 (network_log [])))).
  intros [H|[]]. discriminate H.
Defined.

(** An admin interface whose one page could not be probed: no gap. *)
Lemma design_gaps_none_witness :
  Comprehensive.compare_designs themed_main_app
    {| Comprehensive.pages :=
         [ ("/admin", Comprehensive.Failed "net::ERR_NAME_NOT_RESOLVED") ] |}
  = [].
Proof.
  apply (proj2 (design_gaps_none _ _)).
  intros path e [H|[]]. injection H as _ <-. eexists. reflexivity.
Defined.

(** The gap of the first admin page of the quiet world against the main
    application of [themed_document]: both custom properties are
    missing. *)
Lemma design_gaps_content_witness :
  exists r,
    In ("/admin", Comprehensive.Probed r) (Comprehensive.pages plain_admin)
    /\ gap_of (Comprehensive.cssVariables
                 (Comprehensive.ma_design_tokens themed_main_app))
              "/admin" r
              {| Comprehensive.gap_page := "/admin";
                 Comprehensive.missing_variables := [ "--primary"; "--spacing" ];
                 Comprehensive.different_values := [] |}.
Proof.
  apply (proj1 (design_gaps_content themed_main_app plain_admin)
           {| Comprehensive.gap_page := "/admin";
              Comprehensive.missing_variables := [ "--primary"; "--spacing" ];
              Comprehensive.different_values := [] |}).
  vm_compute. auto.
Defined.

(** The public pages of [managed_world]: the second URL is listed,
    because of the body read in its own turn, after the three calls of
    the turn of the first. *)
Lemma public_insights_spec_witness :
  exists a d,
    AnalyzePlatform.public_pages_analysis managed_world tt [] = (Ok a, tt, [] ++ d)
    /\ In "https://ellaai-platform-prod.web.app/features"
          (AnalyzePlatform.platform_insights a).
Proof.
  destruct (public_insights_spec unit managed_world tt [])
    as (a & d & Heq & _ & _ & _ & _ & H).
  exists a, d. split; [exact Heq|].
  pose proof Heq as Hrun. vm_compute in Hrun. injection Hrun as _ Hd.
  subst d.
  match type of H with
  | forall u pre post, ?l = _ -> _ =>
      apply (H "https://ellaai-platform-prod.web.app/features"
               (firstn 3 l) (skipn 4 l) eq_refl)
  end.
  exists "Manage your hiring pipeline". repeat split.
Defined.

(** The search of a feature on a page with links: the first selector
    matches and the search stops there. *)
Lemma find_feature_spec_witness :
  matches links_world [] "table" = true.
Proof.
  destruct (find_feature_spec ["table"; "text=Users"] links_world tt [])
    as (found & tried & Heq & _ & _ & _ & H).
  vm_compute in Heq. injection Heq as <- Ht.
  destruct tried as [|sel [|sel' tried]]; try discriminate Ht.
  injection Ht as <-.
  exact (H [] "table" [] eq_refl).
Defined.

(** Steps 1 to 3 of the platform script in the quiet world. *)
Lemma platform_report_layout_witness :
  keys (store_of (AnalyzePlatform.collect quiet_world
                    AnalyzePlatform.initial_results []))
  = [ "login_page"; "main_application"; "recommendations"; "public_pages" ].
Proof.
  apply (platform_report_layout quiet_world []
           (store_of (AnalyzePlatform.collect quiet_world
                        AnalyzePlatform.initial_results []))
           (trace_of (AnalyzePlatform.collect quiet_world
                        AnalyzePlatform.initial_results []))).
  vm_compute. reflexivity.
Defined.

(** Steps 1 to 4 of the comprehensive script in the world whose pages
    answer 404. *)
Lemma unfilled_sections_witness :
  nested_get "admin_interface" "functionality_tests"
    (store_of (Comprehensive.collect not_found_world
                 (Comprehensive.initial_results new_year) []))
  = Some (PDict []).
Proof.
  destruct (unfilled_sections not_found_world new_year []
              (store_of (Comprehensive.collect not_found_world
                           (Comprehensive.initial_results new_year) []))
              (trace_of (Comprehensive.collect not_found_world
                           (Comprehensive.initial_results new_year) [])))
    as (_ & _ & _ & _ & H & _).
  - vm_compute. reflexivity.
  - exact H.
Defined.
